(** * Collaborative canvas: operation log, room registry, protocol handlers
      and client reconciler, embedded from the JavaScript sources.

    - [DrawingState]  : [src/server/drawing-state.js]
    - [RoomManager]   : [src/server/rooms.js]
    - [Server]        : the socket handlers of the server entry point
    - [CanvasManager] : [addOperation] of [src/client/canvas.js]
    - [DrawingStats]  : [getStats] of [src/server/drawing-state.js]
    - [Registry]      : what the registry and the logs keep true
    - [WebSocketClient] : the sending side of [src/client/websocket.js]
    - [Main]          : the callbacks the client entry point installs
    - [Stroke]        : a freehand stroke, from mouse down to mouse up

    JavaScript objects are records, arrays are lists indexed with stdpp's
    lookup and insert, the [Map] of users keeps its insertion order in an
    association list, and user objects, which the registry and the
    connection closures share, live in an explicit heap. *)

From Stdlib Require Import ZArith Lia.
From stdpp Require Import base option list gmap strings fin_maps.

Open Scope string_scope.
Open Scope list_scope.
Open Scope Z_scope.

(** ** Operations and their payload *)

(** The payload [data] of a drawing event. Only the fields the server and the
    reconciler inspect are named; everything else travels in [p_rest].
    [p_isComplete] is the truthiness of [data.isComplete]. Coordinates are
    stored and copied, never computed with. *)
Record Payload := mkPayload {
  p_isComplete : bool;
  p_tempId : option string;
  p_operationId : option string;
  p_x : option Z;
  p_y : option Z;
  p_width : option Z;
  p_height : option Z;
  p_tool : option string;
  p_rest : string
}.

(** An operation object. [op_data = None] stands for a missing ([undefined]
    or [null]) payload; an absent [undone] property reads as [false]. *)
Record Operation := mkOperation {
  op_id : string;
  op_type : string;
  op_userId : string;
  op_userName : string;
  op_userColor : string;
  op_timestamp : Z;
  op_data : option Payload;
  op_undone : bool
}.

#[global] Instance Payload_eq_dec : EqDecision Payload.
Proof. solve_decision. Defined.
#[global] Instance Operation_eq_dec : EqDecision Operation.
Proof. solve_decision. Defined.

(** [operation.undone = b] *)
Definition set_undone (b : bool) (o : Operation) : Operation :=
  {| op_id := op_id o; op_type := op_type o; op_userId := op_userId o;
     op_userName := op_userName o; op_userColor := op_userColor o;
     op_timestamp := op_timestamp o; op_data := op_data o; op_undone := b |}.

(** [operation.data = d] *)
Definition set_data (d : option Payload) (o : Operation) : Operation :=
  {| op_id := op_id o; op_type := op_type o; op_userId := op_userId o;
     op_userName := op_userName o; op_userColor := op_userColor o;
     op_timestamp := op_timestamp o; op_data := d; op_undone := op_undone o |}.

(** [Array.prototype.slice(0, e)]: a negative [e] counts from the end, and
    the bounds are clamped to the array. *)
Definition slice0 {A} (l : list A) (e : Z) : list A :=
  let len := Z.of_nat (length l) in
  let final := if e <? 0 then Z.max (len + e) 0 else Z.min e len in
  take (Z.to_nat final) l.

(** ** drawing-state.js *)
Module DrawingState.

Record t := mk {
  roomId : string;
  operations : list Operation;
  currentIndex : Z;
  referenceSize : option string
}.

(** [constructor(roomId)] *)
Definition new (r : string) : t :=
  {| roomId := r; operations := []; currentIndex := -1; referenceSize := None |}.

Definition set_operations (ops : list Operation) (s : t) : t :=
  {| roomId := roomId s; operations := ops; currentIndex := currentIndex s;
     referenceSize := referenceSize s |}.

(** [addOperation(operation)]: truncate to the cursor, push a copy with
    [undone: false], advance the cursor, return the argument. *)
Definition addOperation (operation : Operation) (s : t) : Operation * t :=
  let ops := slice0 (operations s) (currentIndex s + 1) in
  (operation,
   {| roomId := roomId s;
      operations := ops ++ [set_undone false operation];
      currentIndex := currentIndex s + 1;
      referenceSize := referenceSize s |}).

(** The test of the loop in [undo]. *)
Definition undo_target (userId : string) (operation : Operation) : bool :=
  bool_decide (op_userId operation = userId) && negb (op_undone operation).

(** The test of the loop in [redo]. *)
Definition redo_target (userId : string) (operation : Operation) : bool :=
  bool_decide (op_userId operation = userId) && op_undone operation.

(** [for (let i = length - 1; i >= 0; i--)]: [down_loop p b ops n] runs the
    iterations [i = n-1, ..., 0]; at the first hit it stores [undone = b]
    in the entry and returns it. The index is always in range. *)
Fixpoint down_loop (p : Operation → bool) (b : bool)
    (ops : list Operation) (n : nat) : option Operation * list Operation :=
  match n with
  | O => (None, ops)
  | S i =>
      match ops !! i with
      | Some operation =>
          if p operation
          then (Some (set_undone b operation), <[i := set_undone b operation]> ops)
          else down_loop p b ops i
      | None => (None, ops)
      end
  end.

(** [for (let i = 0; i < length; i++)]: [up_loop p b ops i fuel] runs from
    index [i]; a lookup past the end is the loop's exit test. *)
Fixpoint up_loop (p : Operation → bool) (b : bool)
    (ops : list Operation) (i fuel : nat) : option Operation * list Operation :=
  match fuel with
  | O => (None, ops)
  | S fuel' =>
      match ops !! i with
      | Some operation =>
          if p operation
          then (Some (set_undone b operation), <[i := set_undone b operation]> ops)
          else up_loop p b ops (S i) fuel'
      | None => (None, ops)
      end
  end.

Definition with_log (s : t) (r : option Operation * list Operation)
    : option Operation * t :=
  (r.1, set_operations r.2 s).

(** [undo(userId)] *)
Definition undo (userId : string) (s : t) : option Operation * t :=
  with_log s (down_loop (undo_target userId) true (operations s) (length (operations s))).

(** [redo(userId)] *)
Definition redo (userId : string) (s : t) : option Operation * t :=
  with_log s (up_loop (redo_target userId) false (operations s) 0 (length (operations s))).

(** [globalUndo()] *)
Definition globalUndo (s : t) : option Operation * t :=
  with_log s (down_loop (λ o, negb (op_undone o)) true (operations s) (length (operations s))).

(** [globalRedo()] *)
Definition globalRedo (s : t) : option Operation * t :=
  with_log s (up_loop (λ o, op_undone o) false (operations s) 0 (length (operations s))).

(** [getActiveOperations()] *)
Definition getActiveOperations (s : t) : list Operation :=
  filter (λ o, op_undone o = false) (slice0 (operations s) (currentIndex s + 1)).

(** [getOperationHistory()] *)
Record History := mkHistory {
  h_operations : list Operation;
  h_currentIndex : Z;
  h_referenceSize : option string
}.

Definition getOperationHistory (s : t) : History :=
  {| h_operations := operations s; h_currentIndex := currentIndex s;
     h_referenceSize := referenceSize s |}.

(** [clear()] *)
Definition clear (s : t) : t :=
  {| roomId := roomId s; operations := []; currentIndex := -1;
     referenceSize := referenceSize s |}.

(** The upward scan read as a recursion on the log: flip the first hit.
    [up_loop_flip_first] relates the two. *)
Fixpoint flip_first (p : Operation → bool) (b : bool)
    (ops : list Operation) : list Operation :=
  match ops with
  | [] => []
  | x :: l => if p x then set_undone b x :: l else x :: flip_first p b l
  end.

(** A call of one of the mutating methods, and runs of such calls. *)
Inductive Call :=
| CAdd (operation : Operation)
| CUndo (userId : string)
| CRedo (userId : string)
| CGlobalUndo
| CGlobalRedo
| CClear.

Definition call (c : Call) (s : t) : t :=
  match c with
  | CAdd o => (addOperation o s).2
  | CUndo u => (undo u s).2
  | CRedo u => (redo u s).2
  | CGlobalUndo => (globalUndo s).2
  | CGlobalRedo => (globalRedo s).2
  | CClear => clear s
  end.

Definition run (cs : list Call) (s : t) : t := foldl (λ s c, call c s) s cs.

Inductive reachable : t → Prop :=
| reach_new r : reachable (new r)
| reach_call c s : reachable s → reachable (call c s).

End DrawingState.

(** ** JavaScript [Map] with string keys

    A [Map] iterates in insertion order, [set] on a present key keeps the
    key's place, and [delete] removes the key. *)
Module JsMap.

Fixpoint get {V} (k : string) (m : list (string * V)) : option V :=
  match m with
  | [] => None
  | (k', v) :: m' => if decide (k' = k) then Some v else get k m'
  end.

Fixpoint set {V} (k : string) (v : V) (m : list (string * V)) : list (string * V) :=
  match m with
  | [] => [(k, v)]
  | (k', v') :: m' =>
      if decide (k' = k) then (k', v) :: m' else (k', v') :: set k v m'
  end.

Fixpoint delete {V} (k : string) (m : list (string * V)) : list (string * V) :=
  match m with
  | [] => []
  | (k', v') :: m' =>
      if decide (k' = k) then m' else (k', v') :: delete k m'
  end.

Definition values {V} (m : list (string * V)) : list V := map snd m.
Definition keys {V} (m : list (string * V)) : list string := map fst m.
Definition size {V} (m : list (string * V)) : nat := length m.

End JsMap.

(** ** rooms.js *)
Module RoomManager.

(** Address of a user object. *)
Definition loc := nat.

Record User := mkUser {
  u_id : string;
  u_name : string;
  u_color : string;
  u_socketId : string;
  u_isAdmin : bool;
  u_joinedAt : Z
}.

#[global] Instance User_eq_dec : EqDecision User.
Proof. solve_decision. Defined.

(** [user.isAdmin = b] *)
Definition set_isAdmin (b : bool) (u : User) : User :=
  {| u_id := u_id u; u_name := u_name u; u_color := u_color u;
     u_socketId := u_socketId u; u_isAdmin := b; u_joinedAt := u_joinedAt u |}.

Record Room := mkRoom {
  r_id : string;
  r_users : list (string * loc);
  r_drawingState : DrawingState.t;
  r_adminId : option string;
  r_createdAt : Z
}.

Definition set_drawingState (ds : DrawingState.t) (room : Room) : Room :=
  {| r_id := r_id room; r_users := r_users room; r_drawingState := ds;
     r_adminId := r_adminId room; r_createdAt := r_createdAt room |}.

(** The registry [this.rooms] together with the heap of user objects.
    A room object is referenced from the registry only, so it is kept by
    value; a user object is referenced from its room's [users] map and from
    the closure of the connection that created it, so both hold its
    address in [heap]. *)
Record t := mk {
  rooms : gmap string Room;
  heap : list User
}.

Definition empty : t := {| rooms := ∅; heap := [] |}.

(** [getRoom(roomId)]: get or create. [now] is [Date.now()]. *)
Definition getRoom (now : Z) (roomId : string) (rm : t) : Room * t :=
  match rooms rm !! roomId with
  | Some room => (room, rm)
  | None =>
      let room := {| r_id := roomId; r_users := [];
                     r_drawingState := DrawingState.new roomId;
                     r_adminId := None; r_createdAt := now |} in
      (room, {| rooms := <[roomId := room]> (rooms rm); heap := heap rm |})
  end.

Definition colorPalette : list string :=
  ["#FF6B6B"; "#4ECDC4"; "#45B7D1"; "#FFA07A"; "#98D8C8";
   "#F7DC6F"; "#BB8FCE"; "#85C1E2"; "#F8B739"; "#52B788"].

(** The user objects of a room, in [Map] order. *)
Definition room_users (h : list User) (room : Room) : list User :=
  omap (λ l, h !! l) (JsMap.values (r_users room)).

(** [assignColor(room)]; [rnd] is [Math.floor(Math.random() * 10)]. *)
Definition assignColor (rnd : nat) (h : list User) (room : Room) : string :=
  let usedColors := map u_color (room_users h room) in
  match list_find (λ color, color ∉ usedColors) colorPalette with
  | Some (_, color) => color
  | None => default "" (colorPalette !! rnd)
  end.

(** [addUser(roomId, userId, userName, socketId)]; returns the address of
    the new user object. *)
Definition addUser (now : Z) (rnd : nat)
    (roomId userId userName socketId : string) (rm : t) : loc * t :=
  let '(room, rm1) := getRoom now roomId rm in
  let isAdmin := bool_decide (JsMap.size (r_users room) = 0%nat) in
  let adminId1 := if isAdmin then Some userId else r_adminId room in
  let color := assignColor rnd (heap rm1) room in
  let user := {| u_id := userId; u_name := userName; u_color := color;
                 u_socketId := socketId; u_isAdmin := isAdmin;
                 u_joinedAt := now |} in
  let l := length (heap rm1) in
  let room1 := {| r_id := r_id room;
                  r_users := JsMap.set userId l (r_users room);
                  r_drawingState := r_drawingState room;
                  r_adminId := adminId1;
                  r_createdAt := r_createdAt room |} in
  (l, {| rooms := <[roomId := room1]> (rooms rm1); heap := heap rm1 ++ [user] |}).

(** [removeUser(roomId, userId)] *)
Definition removeUser (roomId userId : string) (rm : t) : option loc * t :=
  match rooms rm !! roomId with
  | None => (None, rm)
  | Some room =>
      let user := JsMap.get userId (r_users room) in
      let users1 := JsMap.delete userId (r_users room) in
      (* If admin left, assign new admin *)
      let '(adminId1, heap1) :=
        if bool_decide (Some userId = r_adminId room)
           && bool_decide (0 < JsMap.size users1)%nat
        then
          match JsMap.values users1 with
          | l0 :: _ =>
              match heap rm !! l0 with
              | Some newAdmin =>
                  (Some (u_id newAdmin), <[l0 := set_isAdmin true newAdmin]> (heap rm))
              | None => (r_adminId room, heap rm)
              end
          | [] => (r_adminId room, heap rm)
          end
        else (r_adminId room, heap rm) in
      let room1 := {| r_id := r_id room; r_users := users1;
                      r_drawingState := r_drawingState room;
                      r_adminId := adminId1;
                      r_createdAt := r_createdAt room |} in
      (* Clean up empty rooms *)
      let rooms1 :=
        if bool_decide (JsMap.size users1 = 0%nat)
        then delete roomId (rooms rm)
        else <[roomId := room1]> (rooms rm) in
      (user, {| rooms := rooms1; heap := heap1 |})
  end.

(** [getRoomUsers(roomId)] *)
Definition getRoomUsers (roomId : string) (rm : t) : list User :=
  match rooms rm !! roomId with
  | None => []
  | Some room => room_users (heap rm) room
  end.

(** [getDrawingState(roomId)] *)
Definition getDrawingState (roomId : string) (rm : t) : option DrawingState.t :=
  r_drawingState <$> rooms rm !! roomId.

(** Writing through the reference [getDrawingState] returned. *)
Definition put_drawingState (roomId : string) (ds : DrawingState.t) (rm : t) : t :=
  {| rooms := alter (set_drawingState ds) roomId (rooms rm); heap := heap rm |}.

(** [setAdmin]: the class defines [getRoom], [addUser], [removeUser],
    [getRoomUsers], [getUserBySocketId], [assignColor], [getDrawingState]
    and [getRoomStats] and nothing else, so on the exported instance the
    property [setAdmin] is [undefined]. A present method would take the room
    id and the new admin's id and return [{oldAdmin, newAdmin}] or a falsy
    value. *)
Definition setAdmin
    : option (string → string → t → option (User * User) * t) := None.

End RoomManager.

(** ** The socket handlers of the server *)
Module Server.

(** The variables [currentUser] and [currentRoom] closed over by the
    handlers of one connection. [currentUser] is the object [addUser]
    returned, that is, the one stored in the room's [users] map. *)
Record Conn := mkConn {
  currentUser : option RoomManager.loc;
  currentRoom : option string
}.

Inductive Target :=
| ToSocket (socketId : string)       (* socket.emit / io.to(socketId) *)
| ToRoom (roomId : string)           (* io.to(roomId) *)
| ToRoomExcept (roomId socketId : string).  (* socket.to(roomId) *)

Inductive OutEvent :=
| EvUserInfo (userId userName color : string) (isAdmin : bool)
| EvOperationHistory (history : DrawingState.History)
| EvUserJoined (userId userName color : string)
| EvUserLeft (userId userName : string)
| EvUserList (users : list RoomManager.User)
| EvDrawingUpdate (operation : Operation)
| EvCursorUpdate (userId userName userColor : string) (x y : Z)
| EvUndoUpdate (operationId : string)
| EvRedoUpdate (operationId : string)
| EvCanvasCleared (userId : string)
| EvAdminCanvasCleared
| EvKicked
| EvThemeChange (theme : string)
| EvAdminPromoted (message : string)
| EvError (message : string).

Inductive Effect :=
| Emit (to : Target) (ev : OutEvent)
| SocketJoin (socketId roomId : string)     (* socket.join(roomId) *)
| ForceDisconnect (socketId : string)       (* targetSocket.disconnect(true) *)
| ConsoleError (context : string).          (* the catch clause *)

Definition Result : Type := Conn * RoomManager.t * list Effect.

(** The payload of a ['drawing-event'] message: [{type, data}]. *)
Record DrawingEvent := mkDrawingEvent {
  d_type : string;
  d_data : option Payload
}.

(** A string used as a condition: [undefined] and [""] are falsy. *)
Definition truthy_str (o : option string) : option string :=
  match o with
  | Some s => if decide (s = "") then None else Some s
  | None => None
  end.

(** [if (!currentRoom || !currentUser) return;] followed by the reads of
    [currentUser]'s fields: the room id and the user object, if both
    variables are set. *)
Definition joined (c : Conn) (rm : RoomManager.t)
    : option (string * RoomManager.User) :=
  match truthy_str (currentRoom c), currentUser c with
  | Some roomId, Some l =>
      match RoomManager.heap rm !! l with
      | Some user => Some (roomId, user)
      | None => None
      end
  | _, _ => None
  end.

(** A handler body run on the reference [getDrawingState] returned
    ([None] is [null]): it either runs to its end or throws, and what it
    stored before throwing stays stored. *)
Inductive Outcome :=
| Returned (ds : option DrawingState.t)
| Threw (ds : option DrawingState.t).

Definition and_then (o : Outcome) (k : option DrawingState.t → Outcome) : Outcome :=
  match o with
  | Returned ds => k ds
  | Threw ds => Threw ds
  end.

Definition store (roomId : string) (ds : option DrawingState.t)
    (rm : RoomManager.t) : RoomManager.t :=
  match ds with
  | Some ds => RoomManager.put_drawingState roomId ds rm
  | None => rm
  end.

(** ['join-room'] *)
Definition on_join_room (uuid : string) (now : Z) (rnd : nat)
    (roomId userName : string) (sid : string) (c : Conn) (rm : RoomManager.t)
    : Result :=
  let '(l, rm1) := RoomManager.addUser now rnd roomId uuid userName sid rm in
  let c1 := {| currentUser := Some l; currentRoom := Some roomId |} in
  match RoomManager.heap rm1 !! l, RoomManager.getDrawingState roomId rm1 with
  | Some user, Some drawingState =>
      (c1, rm1,
       [SocketJoin sid roomId;
        Emit (ToSocket sid)
          (EvUserInfo (RoomManager.u_id user) (RoomManager.u_name user)
             (RoomManager.u_color user) (RoomManager.u_isAdmin user));
        Emit (ToSocket sid)
          (EvOperationHistory (DrawingState.getOperationHistory drawingState));
        Emit (ToRoom roomId)
          (EvUserJoined (RoomManager.u_id user) (RoomManager.u_name user)
             (RoomManager.u_color user));
        Emit (ToRoom roomId) (EvUserList (RoomManager.getRoomUsers roomId rm1))])
  | _, _ =>
      (c1, rm1,
       [ConsoleError "Error joining room";
        Emit (ToSocket sid) (EvError "Failed to join room")])
  end.

(** The kinds that are always stored. *)
Definition durable (type : string) : bool :=
  bool_decide (type = "draw") || bool_decide (type = "shape")
  || bool_decide (type = "text") || bool_decide (type = "image").

(** [data.type === 'draw' || ... || data.data.isComplete]; [None] is the
    [TypeError] of reading [isComplete] from a missing payload. *)
Definition commit_test (data : DrawingEvent) : option bool :=
  if durable (d_type data) then Some true
  else p_isComplete <$> d_data data.

(** [data.type === type && data.data.operationId]; the outer [None] is the
    [TypeError] of reading [operationId] from a missing payload. *)
Definition positional_test (type : string) (data : DrawingEvent)
    : option (option (string * Payload)) :=
  if bool_decide (d_type data = type)
  then match d_data data with
       | Some p => Some ((λ i, (i, p)) <$> truthy_str (p_operationId p))
       | None => None
       end
  else Some None.

(** [existingOp.data.x = data.data.x; existingOp.data.y = data.data.y] *)
Definition move_fields (src dst : Payload) : Payload :=
  {| p_isComplete := p_isComplete dst; p_tempId := p_tempId dst;
     p_operationId := p_operationId dst; p_x := p_x src; p_y := p_y src;
     p_width := p_width dst; p_height := p_height dst; p_tool := p_tool dst;
     p_rest := p_rest dst |}.

(** [existingOp.data.width = ...; existingOp.data.height = ...] *)
Definition resize_fields (src dst : Payload) : Payload :=
  {| p_isComplete := p_isComplete dst; p_tempId := p_tempId dst;
     p_operationId := p_operationId dst; p_x := p_x dst; p_y := p_y dst;
     p_width := p_width src; p_height := p_height src; p_tool := p_tool dst;
     p_rest := p_rest dst |}.

(** [const existingOp = operations.find(op => op.id === operationId);
     if (existingOp && existingOp.data) { ... }] *)
Definition update_existing (f : Payload → Payload) (operationId : string)
    (ops : list Operation) : list Operation :=
  match list_find (λ op, op_id op = operationId) ops with
  | Some (i, existingOp) =>
      match op_data existingOp with
      | Some d => <[i := set_data (Some (f d)) existingOp]> ops
      | None => ops
      end
  | None => ops
  end.

Definition positional_step (type : string) (fields : Payload → Payload → Payload)
    (data : DrawingEvent) (ds : option DrawingState.t) : Outcome :=
  match positional_test type data with
  | None => Threw ds
  | Some None => Returned ds
  | Some (Some (operationId, p)) =>
      match ds with
      | None => Threw ds
      | Some s =>
          Returned (Some (DrawingState.set_operations
            (update_existing (fields p) operationId (DrawingState.operations s)) s))
      end
  end.

Definition commit_step (operation : Operation) (data : DrawingEvent)
    (ds : option DrawingState.t) : Outcome :=
  match commit_test data with
  | None => Threw ds
  | Some false => Returned ds
  | Some true =>
      match ds with
      | None => Threw ds
      | Some s => Returned (Some (DrawingState.addOperation operation s).2)
      end
  end.

(** The operation the ['drawing-event'] handler builds. *)
Definition operation_of (uuid : string) (now : Z) (user : RoomManager.User)
    (data : DrawingEvent) : Operation :=
  {| op_id := uuid; op_type := d_type data;
     op_userId := RoomManager.u_id user;
     op_userName := RoomManager.u_name user;
     op_userColor := RoomManager.u_color user;
     op_timestamp := now; op_data := d_data data; op_undone := false |}.

(** The three conditionals of the handler, in their order. *)
Definition drawing_event_body (operation : Operation) (data : DrawingEvent)
    (drawingState : option DrawingState.t) : Outcome :=
  and_then (and_then (commit_step operation data drawingState)
              (positional_step "move" move_fields data))
    (positional_step "resize" resize_fields data).

Definition outcome_state (o : Outcome) : option DrawingState.t :=
  match o with Returned ds | Threw ds => ds end.

(** ['drawing-event'] *)
Definition on_drawing_event (uuid : string) (now : Z) (data : DrawingEvent)
    (sid : string) (c : Conn) (rm : RoomManager.t) : Result :=
  match joined c rm with
  | None => (c, rm, [])
  | Some (roomId, user) =>
      let drawingState := RoomManager.getDrawingState roomId rm in
      let operation := operation_of uuid now user data in
      match drawing_event_body operation data drawingState with
      | Returned ds =>
          (c, store roomId ds rm, [Emit (ToRoom roomId) (EvDrawingUpdate operation)])
      | Threw ds =>
          (c, store roomId ds rm, [ConsoleError "Error handling drawing event"])
      end
  end.

(** ['cursor-move'] *)
Definition on_cursor_move (x y : Z) (sid : string) (c : Conn)
    (rm : RoomManager.t) : Result :=
  match joined c rm with
  | None => (c, rm, [])
  | Some (roomId, user) =>
      (c, rm,
       [Emit (ToRoomExcept roomId sid)
          (EvCursorUpdate (RoomManager.u_id user) (RoomManager.u_name user)
             (RoomManager.u_color user) x y)])
  end.

(** The common shape of the four undo and redo handlers: call the method
    on the room's drawing state and, if it returned an operation,
    broadcast its id. A [null] drawing state makes the call throw. *)
Definition history_request
    (method : DrawingState.t → option Operation * DrawingState.t)
    (update : string → OutEvent) (context : string)
    (roomId : string) (c : Conn) (rm : RoomManager.t) : Result :=
  match RoomManager.getDrawingState roomId rm with
  | None => (c, rm, [ConsoleError context])
  | Some drawingState =>
      let '(r, ds1) := method drawingState in
      (c, RoomManager.put_drawingState roomId ds1 rm,
       match r with
       | Some operation => [Emit (ToRoom roomId) (update (op_id operation))]
       | None => []
       end)
  end.

(** [if (!currentUser.isAdmin) { socket.emit('error', ...); return; }] *)
Definition admin_only (message : string) (sid : string) (c : Conn)
    (rm : RoomManager.t) (body : string → RoomManager.User → Result) : Result :=
  match joined c rm with
  | None => (c, rm, [])
  | Some (roomId, user) =>
      if RoomManager.u_isAdmin user then body roomId user
      else (c, rm, [Emit (ToSocket sid) (EvError message)])
  end.

(** ['undo-request'] *)
Definition on_undo_request (sid : string) (c : Conn) (rm : RoomManager.t)
    : Result :=
  match joined c rm with
  | None => (c, rm, [])
  | Some (roomId, user) =>
      history_request (DrawingState.undo (RoomManager.u_id user))
        EvUndoUpdate "Error handling undo" roomId c rm
  end.

(** ['redo-request'] *)
Definition on_redo_request (sid : string) (c : Conn) (rm : RoomManager.t)
    : Result :=
  match joined c rm with
  | None => (c, rm, [])
  | Some (roomId, user) =>
      history_request (DrawingState.redo (RoomManager.u_id user))
        EvRedoUpdate "Error handling redo" roomId c rm
  end.

(** ['admin-undo'] *)
Definition on_admin_undo (sid : string) (c : Conn) (rm : RoomManager.t)
    : Result :=
  admin_only "Only admin can use global undo" sid c rm (λ roomId _,
    history_request DrawingState.globalUndo
      EvUndoUpdate "Error handling admin-undo" roomId c rm).

(** ['admin-redo'] *)
Definition on_admin_redo (sid : string) (c : Conn) (rm : RoomManager.t)
    : Result :=
  admin_only "Only admin can use global redo" sid c rm (λ roomId _,
    history_request DrawingState.globalRedo
      EvRedoUpdate "Error handling admin-redo" roomId c rm).

(** [operations.forEach(op => { if (op.userId === userId) op.undone = true })] *)
Definition mark_undone (userId : string) (ops : list Operation) : list Operation :=
  map (λ op, if decide (op_userId op = userId) then set_undone true op else op) ops.

(** ['clear-canvas'] *)
Definition on_clear_canvas (sid : string) (c : Conn) (rm : RoomManager.t)
    : Result :=
  match joined c rm with
  | None => (c, rm, [])
  | Some (roomId, user) =>
      match RoomManager.getDrawingState roomId rm with
      | None => (c, rm, [ConsoleError "Error clearing canvas"])
      | Some drawingState =>
          (c,
           RoomManager.put_drawingState roomId
             (DrawingState.set_operations
                (mark_undone (RoomManager.u_id user)
                   (DrawingState.operations drawingState)) drawingState) rm,
           [Emit (ToRoom roomId) (EvCanvasCleared (RoomManager.u_id user))])
      end
  end.

(** ['admin-clear-all'] *)
Definition on_admin_clear_all (sid : string) (c : Conn) (rm : RoomManager.t)
    : Result :=
  admin_only "Only admin can clear all" sid c rm (λ roomId _,
    match RoomManager.getDrawingState roomId rm with
    | None => (c, rm, [ConsoleError "Error clearing canvas"])
    | Some drawingState =>
        (c, RoomManager.put_drawingState roomId (DrawingState.clear drawingState) rm,
         [Emit (ToRoom roomId) EvAdminCanvasCleared])
    end).

(** ['disconnect'] *)
Definition on_disconnect (now : Z) (sid : string) (c : Conn)
    (rm : RoomManager.t) : Result :=
  match joined c rm with
  | None => (c, rm, [])
  | Some (roomId, user) =>
      let wasAdmin := RoomManager.u_isAdmin user in
      (* Remove user from room (this may transfer admin) *)
      let '(_, rm1) := RoomManager.removeUser roomId (RoomManager.u_id user) rm in
      (* Check if admin was transferred *)
      let '(room, rm2) := RoomManager.getRoom now roomId rm1 in
      let promoted :=
        if wasAdmin then
          match truthy_str (RoomManager.r_adminId room) with
          | Some adminId =>
              match JsMap.get adminId (RoomManager.r_users room)
                    ≫= (λ l, RoomManager.heap rm2 !! l) with
              | Some newAdmin =>
                  [Emit (ToSocket (RoomManager.u_socketId newAdmin))
                     (EvAdminPromoted "You are now the room admin!")]
              | None => []
              end
          | None => []
          end
        else [] in
      (c, rm2,
       [Emit (ToRoomExcept roomId sid)
          (EvUserLeft (RoomManager.u_id user) (RoomManager.u_name user))]
       ++ promoted
       ++ [Emit (ToRoom roomId) (EvUserList (RoomManager.getRoomUsers roomId rm2))])
  end.

(** ['admin-kick-user']. [sockets] is [io.sockets.sockets], each socket
    with the variables of its closure. ['kicked'] is emitted to the target's
    socket id whether or not a socket has it; [targetSocket.disconnect(true)]
    is called only when the table has the socket, and closing the socket
    runs its ['disconnect'] listener before the call returns. *)
Definition on_admin_kick_user (now : Z) (sockets : gmap string Conn)
    (targetUserId : string) (sid : string) (c : Conn) (rm : RoomManager.t)
    : Result :=
  admin_only "Only admin can kick users" sid c rm (λ roomId _,
    let '(room, rm1) := RoomManager.getRoom now roomId rm in
    match JsMap.get targetUserId (RoomManager.r_users room) with
    | Some l =>
        match RoomManager.heap rm1 !! l with
        | Some targetUser =>
            let target := RoomManager.u_socketId targetUser in
            match sockets !! target with
            | Some targetConn =>
                let '(_, rm2, out) := on_disconnect now target targetConn rm1 in
                (c, rm2,
                 [Emit (ToSocket target) EvKicked; ForceDisconnect target] ++ out)
            | None => (c, rm1, [Emit (ToSocket target) EvKicked])
            end
        | None => (c, rm1, [])
        end
    | None => (c, rm1, [])
    end).

(** ['set-theme'] *)
Definition on_set_theme (theme : string) (sid : string) (c : Conn)
    (rm : RoomManager.t) : Result :=
  admin_only "Only admin can change theme" sid c rm (λ roomId _,
    (c, rm, [Emit (ToRoom roomId) (EvThemeChange theme)])).

(** ['admin-transfer']: after the admin check the handler calls
    [roomManager.setAdmin(currentRoom, newAdminId)]; calling a property
    that is [undefined] throws, and the catch clause logs the error. *)
Definition on_admin_transfer (newAdminId : string) (sid : string) (c : Conn)
    (rm : RoomManager.t) : Result :=
  admin_only "Only admin can transfer rights" sid c rm (λ roomId user,
    match RoomManager.setAdmin with
    | None => (c, rm, [ConsoleError "Error transferring admin rights"])
    | Some setAdmin =>
        let '(result, rm1) := setAdmin roomId newAdminId rm in
        match result with
        | Some (_, newAdmin) =>
            (c, rm1,
             [Emit (ToSocket (RoomManager.u_socketId newAdmin))
                (EvAdminPromoted
                   ("You have been promoted to Admin by " +:+ RoomManager.u_name user));
              Emit (ToRoom roomId) (EvUserList (RoomManager.getRoomUsers roomId rm1))])
        | None => (c, rm1, [])
        end
    end).

(** *** The server as a transition system *)

Record State := mkState {
  manager : RoomManager.t;
  conns : gmap string Conn
}.

Definition init : State := {| manager := RoomManager.empty; conns := ∅ |}.

(** What the handlers read from outside: [uuidv4()], [Date.now()] and
    [Math.floor(Math.random() * 10)]. *)
Record Env := mkEnv { uuid : string; now : Z; rnd : nat }.

Inductive Msg :=
| Connection
| JoinRoom (roomId userName : string)
| DrawingEventMsg (data : DrawingEvent)
| CursorMove (x y : Z)
| UndoRequest
| RedoRequest
| AdminUndo
| AdminRedo
| ClearCanvas
| AdminClearAll
| AdminKickUser (userId : string)
| SetTheme (theme : string)
| AdminTransfer (userId : string)
| Disconnect.

Definition handle (env : Env) (sockets : gmap string Conn) (m : Msg)
    (sid : string) (c : Conn) (rm : RoomManager.t) : Result :=
  match m with
  | Connection => (c, rm, [])
  | JoinRoom roomId userName =>
      on_join_room (uuid env) (now env) (rnd env) roomId userName sid c rm
  | DrawingEventMsg data => on_drawing_event (uuid env) (now env) data sid c rm
  | CursorMove x y => on_cursor_move x y sid c rm
  | UndoRequest => on_undo_request sid c rm
  | RedoRequest => on_redo_request sid c rm
  | AdminUndo => on_admin_undo sid c rm
  | AdminRedo => on_admin_redo sid c rm
  | ClearCanvas => on_clear_canvas sid c rm
  | AdminClearAll => on_admin_clear_all sid c rm
  | AdminKickUser userId =>
      on_admin_kick_user (now env) sockets userId sid c rm
  | SetTheme theme => on_set_theme theme sid c rm
  | AdminTransfer userId => on_admin_transfer userId sid c rm
  | Disconnect => on_disconnect (now env) sid c rm
  end.

(** The table of sockets once the sockets a handler closed are gone. *)
Definition closed (out : list Effect) (sockets : gmap string Conn)
    : gmap string Conn :=
  foldr (λ e cs, match e with ForceDisconnect s => delete s cs | _ => cs end)
    sockets out.

(** One inbound event, handled to completion. ['connection'] creates the
    closure, ['disconnect'] is the last event of a socket, a message on a
    socket that is not connected is not delivered, and a socket the handler
    closed is not connected afterwards. *)
Definition step (sid : string) (env : Env) (m : Msg) (st : State)
    : State * list Effect :=
  match m, conns st !! sid with
  | Connection, None =>
      ({| manager := manager st;
          conns := <[sid := {| currentUser := None; currentRoom := None |}]> (conns st) |},
       [])
  | Connection, Some _ => (st, [])
  | _, None => (st, [])
  | _, Some c =>
      let '(c1, rm1, out) := handle env (conns st) m sid c (manager st) in
      ({| manager := rm1;
          conns := closed out
                     match m with
                     | Disconnect => delete sid (conns st)
                     | _ => <[sid := c1]> (conns st)
                     end |},
       out)
  end.

Definition Inbound : Type := string * Env * Msg.

(** A run of the server from [st], with everything it sent. *)
Fixpoint run (evs : list Inbound) (st : State) : State * list Effect :=
  match evs with
  | [] => (st, [])
  | (sid, env, m) :: evs' =>
      let '(st1, out1) := step sid env m st in
      let '(st2, out2) := run evs' st1 in
      (st2, out1 ++ out2)
  end.

(** The states the server can be in. *)
Inductive reachable : State → Prop :=
| reach_init : reachable init
| reach_step sid env m st : reachable st → reachable (step sid env m st).1.

(** An entry the commit test lets into a log: of a durable kind, or with a
    payload marked complete. *)
Definition storable (o : Operation) : Prop :=
  durable (op_type o) = true ∨ ∃ p, op_data o = Some p ∧ p_isComplete p = true.

(** A log whose cursor is its last index and whose entries all passed the
    commit test. *)
Definition log_ok (ds : DrawingState.t) : Prop :=
  DrawingState.currentIndex ds
  = Z.of_nat (length (DrawingState.operations ds)) - 1
  ∧ Forall storable (DrawingState.operations ds).

Definition rooms_ok (rm : RoomManager.t) : Prop :=
  ∀ roomId room, RoomManager.rooms rm !! roomId = Some room →
                 log_ok (RoomManager.r_drawingState room).

End Server.

(** ** canvas.js: the history side of [CanvasManager]

    The canvas, the camera and the maps of remote previews are rendering
    state and are left out; every branch of [addOperation] is kept with its
    test and with what it does to [operations], [pendingStrokeCount] and the
    keys of [activeStrokes]. *)
Module CanvasManager.

Record t := mk {
  operations : list Operation;
  currentUserId : option string;
  pendingStrokeCount : Z;
  activeStrokes : gset string
}.

Definition set_operations (ops : list Operation) (s : t) : t :=
  {| operations := ops; currentUserId := currentUserId s;
     pendingStrokeCount := pendingStrokeCount s;
     activeStrokes := activeStrokes s |}.

(** [clearCanvas()] *)
Definition clearCanvas (s : t) : t := set_operations [] s.

(** [loadOperationHistory(history)] *)
Definition loadOperationHistory (history : DrawingState.History) (s : t) : t :=
  set_operations (DrawingState.h_operations history) s.

(** [operation.type === type && operation.data && operation.data.operationId] *)
Definition positional_test (type : string) (operation : Operation)
    : option (string * Payload) :=
  if bool_decide (op_type operation = type)
  then p ← op_data operation;
       i ← Server.truthy_str (p_operationId p);
       Some (i, p)
  else None.

(** [operation.data && operation.data.tempId] *)
Definition tempId_of (operation : Operation) : option string :=
  op_data operation ≫= (λ p, Server.truthy_str (p_tempId p)).

(** [this.operations.findIndex(op => op.id === tempId)] for a truthy
    [tempId] of the payload. *)
Definition pendingOpIndex (operation : Operation) (ops : list Operation)
    : option nat :=
  tempId ← tempId_of operation;
  fst <$> list_find (λ op, op_id op = tempId) ops.

(** The tail of [addOperation] once the operation was pushed. *)
Definition after_push (operation : Operation) (s : t) : t :=
  let count :=
    if bool_decide (op_type operation = "draw")
       && bool_decide (Server.truthy_str (currentUserId s) = Some (op_userId operation))
       && bool_decide (0 < pendingStrokeCount s)
    then pendingStrokeCount s - 1
    else pendingStrokeCount s in
  {| operations := operations s; currentUserId := currentUserId s;
     pendingStrokeCount := count;
     activeStrokes := activeStrokes s ∖ {[op_userId operation]} |}.

(** [addOperation(operation)]. [None] is a [TypeError] thrown before
    anything was stored (an incremental segment without payload). *)
Definition addOperation (operation : Operation) (s : t) : option t :=
  let type := op_type operation in
  if bool_decide (type = "clear") then Some (clearCanvas s)
  else if bool_decide (type = "shape-preview") then Some s
  else if bool_decide (type = "text-preview") then Some s
  else if bool_decide (type = "move-preview") then Some s
  else
    match positional_test "move" operation with
    | Some (operationId, p) =>
        Some (set_operations
                (Server.update_existing (Server.move_fields p) operationId
                   (operations s)) s)
    | None =>
    match positional_test "resize" operation with
    | Some (operationId, p) =>
        Some (set_operations
                (Server.update_existing (Server.resize_fields p) operationId
                   (operations s)) s)
    | None =>
    if bool_decide (type = "draw-incremental") then
      match op_data operation with
      | None => None
      | Some p =>
          if bool_decide (p_tool p = Some "eraser") then Some s
          else Some {| operations := operations s;
                       currentUserId := currentUserId s;
                       pendingStrokeCount := pendingStrokeCount s;
                       activeStrokes := activeStrokes s ∪ {[op_userId operation]} |}
      end
    else
      (* 1. Reconciliation *)
      match pendingOpIndex operation (operations s) with
      | Some i => Some (set_operations (<[i := operation]> (operations s)) s)
      | None =>
          (* 2. Add to history if not exists *)
          match list_find (λ op, op_id op = op_id operation) (operations s) with
          | Some _ => Some s
          | None =>
              Some (after_push operation
                      (set_operations (operations s ++ [operation]) s))
          end
      end
    end
    end.

End CanvasManager.

(** ** Sample data *)
Module Sample.

Definition payload (complete : bool) (tempId : option string) : Payload :=
  {| p_isComplete := complete; p_tempId := tempId; p_operationId := None;
     p_x := None; p_y := None; p_width := None; p_height := None;
     p_tool := Some "brush"; p_rest := "" |}.

Definition op (id type userId : string) (data : option Payload) : Operation :=
  {| op_id := id; op_type := type; op_userId := userId; op_userName := userId;
     op_userColor := "#FF6B6B"; op_timestamp := 0; op_data := data;
     op_undone := false |}.

Definition opA : Operation := op "A" "draw" "u" (Some (payload true None)).
Definition opB : Operation := op "B" "shape" "u" (Some (payload false None)).
Definition opC : Operation := op "C" "text" "u" (Some (payload false None)).


(** Three users join room [R] in the order x, y, z. *)
Definition rm1 : RoomManager.t :=
  (RoomManager.addUser 1 0 "R" "x" "Xi" "s1" RoomManager.empty).2.
Definition rm2 : RoomManager.t :=
  (RoomManager.addUser 2 0 "R" "y" "Yan" "s2" rm1).2.

Definition userY : RoomManager.User :=
  {| RoomManager.u_id := "y"; RoomManager.u_name := "Yan";
     RoomManager.u_color := "#4ECDC4"; RoomManager.u_socketId := "s2";
     RoomManager.u_isAdmin := false; RoomManager.u_joinedAt := 2 |}.



Definition env (id : string) (t : Z) : Server.Env :=
  {| Server.uuid := id; Server.now := t; Server.rnd := 0 |}.

(** One user connects, joins room [R] and disconnects. *)
Definition solo : list Server.Inbound :=
  [("s1", env "-" 0, Server.Connection);
   ("s1", env "x" 1, Server.JoinRoom "R" "Xi");
   ("s1", env "-" 2, Server.Disconnect)].

(** Users x and y join room [R]; x is the admin. *)
Definition pair : list Server.Inbound :=
  [("s1", env "-" 0, Server.Connection);
   ("s1", env "x" 1, Server.JoinRoom "R" "Xi");
   ("s2", env "-" 1, Server.Connection);
   ("s2", env "y" 2, Server.JoinRoom "R" "Yan")].

Definition draw_event (type : string) (complete : bool) : Server.Msg :=
  Server.DrawingEventMsg
    {| Server.d_type := type; Server.d_data := Some (payload complete None) |}.


Definition userX : RoomManager.User :=
  {| RoomManager.u_id := "x"; RoomManager.u_name := "Xi";
     RoomManager.u_color := "#FF6B6B"; RoomManager.u_socketId := "s1";
     RoomManager.u_isAdmin := true; RoomManager.u_joinedAt := 1 |}.

(** The closure of x's connection after the join. *)
Definition connX : Server.Conn :=
  {| Server.currentUser := Some 0%nat; Server.currentRoom := Some "R" |}.

Definition draw_data (type : string) (complete : bool) : Server.DrawingEvent :=
  {| Server.d_type := type; Server.d_data := Some (payload complete None) |}.


(** After [pair], x draws a stroke and y a shape. *)
Definition drawn : list Server.Inbound :=
  pair ++ [("s1", env "a" 4, Server.DrawingEventMsg (draw_data "draw" true));
           ("s2", env "b" 5, Server.DrawingEventMsg (draw_data "shape" false))].

Definition strokeA : Operation :=
  Server.operation_of "a" 4 userX (draw_data "draw" true).
Definition shapeB : Operation :=
  Server.operation_of "b" 5 userY (draw_data "shape" false).

Definition log2 : DrawingState.t :=
  {| DrawingState.roomId := "R"; DrawingState.operations := [strokeA; shapeB];
     DrawingState.currentIndex := 1; DrawingState.referenceSize := None |}.


(** A client whose history holds a confirmed stroke and a pending local
    shape under its temporary id, and the server's echo of that shape. *)
Definition placeholder : Operation :=
  op "temp-1" "shape" "x" (Some (payload false (Some "temp-1"))).


(** After [drawn], the admin x leaves and y, promoted, asks for a global
    undo. *)
Definition succession : list Server.Inbound :=
  drawn ++ [("s1", env "-" 6, Server.Disconnect);
            ("s2", env "-" 7, Server.AdminUndo)].

End Sample.

(** ** drawing-state.js: statistics *)
Module DrawingStats.

Record Stats := mkStats {
  totalOperations : nat;
  activeOperations : nat;
  stat_currentIndex : Z
}.

(** [getStats()] *)
Definition getStats (s : DrawingState.t) : Stats :=
  {| totalOperations := length (DrawingState.operations s);
     activeOperations := length (DrawingState.getActiveOperations s);
     stat_currentIndex := DrawingState.currentIndex s |}.

End DrawingStats.

(** ** What the registry keeps true *)
Module Registry.

(** An entry of a [users] map: its value is the address of a user object
    whose [id] is the key. *)
Definition member_ok (h : list RoomManager.User)
    (kv : string * RoomManager.loc) : Prop :=
  ∃ u, h !! kv.2 = Some u ∧ RoomManager.u_id u = kv.1.

Definition room_wf (h : list RoomManager.User) (room : RoomManager.Room) : Prop :=
  NoDup (JsMap.keys (RoomManager.r_users room))
  ∧ Forall (member_ok h) (RoomManager.r_users room)
  ∧ match RoomManager.r_users room with
    | [] => RoomManager.r_adminId room = None
    | _ :: _ => ∃ k, RoomManager.r_adminId room = Some k
                     ∧ k ∈ JsMap.keys (RoomManager.r_users room)
    end.

Definition wf (rm : RoomManager.t) : Prop :=
  ∀ roomId room, RoomManager.rooms rm !! roomId = Some room →
                 RoomManager.r_id room = roomId
                 ∧ room_wf (RoomManager.heap rm) room.

(** [uuidv4()] gives an id no user object has: the condition on the
    environment under which ids identify users. *)
Definition fresh_step (st : Server.State) (env : Server.Env) (m : Server.Msg)
    : Prop :=
  match m with
  | Server.JoinRoom _ _ =>
      Server.uuid env
        ∉ map RoomManager.u_id (RoomManager.heap (Server.manager st))
  | _ => True
  end.

Inductive reachable_fresh : Server.State → Prop :=
| fresh_init : reachable_fresh Server.init
| fresh_next sid env m st :
    reachable_fresh st → fresh_step st env m →
    reachable_fresh (Server.step sid env m st).1.

(** A run all of whose joins get a new id. *)
Fixpoint fresh_run (evs : list Server.Inbound) (st : Server.State) : Prop :=
  match evs with
  | [] => True
  | (sid, env, m) :: evs' =>
      fresh_step st env m ∧ fresh_run evs' (Server.step sid env m st).1
  end.

(** The members of a room whose object has [isAdmin] set. *)
Definition admins (h : list RoomManager.User) (room : RoomManager.Room)
    : list string :=
  omap (λ kv : string * RoomManager.loc,
          match h !! kv.2 with
          | Some u => if RoomManager.u_isAdmin u then Some kv.1 else None
          | None => None
          end)
       (RoomManager.r_users room).

(** No user id is a key of the [users] maps of two rooms. *)
Definition keys_apart (rm : RoomManager.t) : Prop :=
  ∀ r1 r2 room1 room2 k,
    RoomManager.rooms rm !! r1 = Some room1 →
    RoomManager.rooms rm !! r2 = Some room2 →
    k ∈ JsMap.keys (RoomManager.r_users room1) →
    k ∈ JsMap.keys (RoomManager.r_users room2) → r1 = r2.

(** The [isAdmin] flag of a member's object is set exactly when [adminId]
    names the member. *)
Definition flags_ok (h : list RoomManager.User) (room : RoomManager.Room) : Prop :=
  ∀ k l u, (k, l) ∈ RoomManager.r_users room → h !! l = Some u →
           (RoomManager.u_isAdmin u = true ↔ RoomManager.r_adminId room = Some k).

Definition one_admin (rm : RoomManager.t) : Prop :=
  wf rm ∧ keys_apart rm
  ∧ ∀ r room, RoomManager.rooms rm !! r = Some room →
              flags_ok (RoomManager.heap rm) room.

(** Addresses of user objects: every address in a [users] map is
    allocated, and no address is in the [users] maps of two rooms. *)
Definition locs_ok (rm : RoomManager.t) : Prop :=
  (∀ r room l, RoomManager.rooms rm !! r = Some room →
               l ∈ JsMap.values (RoomManager.r_users room) →
               (l < length (RoomManager.heap rm))%nat)
  ∧ (∀ r1 r2 room1 room2 l,
       RoomManager.rooms rm !! r1 = Some room1 →
       RoomManager.rooms rm !! r2 = Some room2 →
       l ∈ JsMap.values (RoomManager.r_users room1) →
       l ∈ JsMap.values (RoomManager.r_users room2) → r1 = r2).

(** Room [r] is in [rm'] what it is in [rm]: the room object of the
    registry and the user objects of its members. *)
Definition same_room (r : string) (rm rm' : RoomManager.t) : Prop :=
  RoomManager.rooms rm' !! r = RoomManager.rooms rm !! r
  ∧ ∀ room l, RoomManager.rooms rm !! r = Some room →
              l ∈ JsMap.values (RoomManager.r_users room) →
              RoomManager.heap rm' !! l = RoomManager.heap rm !! l.

(** The room a message of a connection is about. *)
Definition room_of (m : Server.Msg) (c : Server.Conn) : option string :=
  match m with
  | Server.JoinRoom roomId _ => Some roomId
  | _ => Server.currentRoom c
  end.

(** The ids of a room's log, in log order; none for a room that is not in
    the registry. *)
Definition log_ids (roomId : string) (rm : RoomManager.t) : list string :=
  match RoomManager.getDrawingState roomId rm with
  | Some ds => map op_id (DrawingState.operations ds)
  | None => []
  end.

(** An effect addressed to the socket.io room [roomId]. *)
Definition to_room (roomId : string) (e : Server.Effect) : Prop :=
  match e with
  | Server.Emit (Server.ToRoom r) _ => r = roomId
  | Server.Emit (Server.ToRoomExcept r _) _ => r = roomId
  | Server.SocketJoin _ r => r = roomId
  | _ => False
  end.

(** [uuidv4()] gives an id no entry of a log has. *)
Definition new_op_step (st : Server.State) (env : Server.Env) (m : Server.Msg)
    : Prop :=
  match m with
  | Server.DrawingEventMsg _ =>
      ∀ r, Server.uuid env ∉ log_ids r (Server.manager st)
  | _ => True
  end.

Inductive reachable_new_ops : Server.State → Prop :=
| new_ops_init : reachable_new_ops Server.init
| new_ops_next sid env m st :
    reachable_new_ops st → new_op_step st env m →
    reachable_new_ops (Server.step sid env m st).1.

End Registry.

(** ** websocket.js: the sending side of [WebSocketClient] *)
Module WebSocketClient.

Record t := mk {
  connected : bool;
  lastEmitTime : Z
}.

(** [constructor]: [connected = false; lastEmitTime = 0] *)
Definition new : t := {| connected := false; lastEmitTime := 0 |}.

Definition BATCH_DELAY : Z := 16.

(** [sendDrawingEvent(type, data)]: what goes out on the socket. *)
Definition sendDrawingEvent (data : Server.DrawingEvent) (s : t)
    : list Server.Msg :=
  if connected s then [Server.DrawingEventMsg data] else [].

(** [sendCursorMove(x, y)]; [now] is [Date.now()]. *)
Definition sendCursorMove (now : Z) (x y : Z) (s : t) : t * list Server.Msg :=
  if negb (connected s) then (s, [])
  else if now - lastEmitTime s <? BATCH_DELAY then (s, [])
  else ({| connected := connected s; lastEmitTime := now |},
        [Server.CursorMove x y]).

(** A series of [sendCursorMove] calls, each with its clock reading; the
    result lists the readings at which a message went out. *)
Fixpoint cursor_run (calls : list (Z * Z * Z)) (s : t) : t * list Z :=
  match calls with
  | [] => (s, [])
  | (now, x, y) :: calls' =>
      let '(s1, out) := sendCursorMove now x y s in
      let '(s2, times) := cursor_run calls' s1 in
      (s2, match out with [] => times | _ :: _ => now :: times end)
  end.

(** Clock readings each at least [gap] after the one before, the first
    at least [gap] after [last]. *)
Fixpoint spaced (gap last : Z) (times : list Z) : Prop :=
  match times with
  | [] => True
  | t :: times' => gap ≤ t - last ∧ spaced gap t times'
  end.

End WebSocketClient.

(** ** The client's callbacks ([setupWebSocketCallbacks] and
       [setupCanvasCallbacks] of the client entry point) *)
Module Main.

(** [const operation = canvasManager.operations.find(op => op.id === id);
     if (operation) operation.undone = b] *)
Definition set_flag (b : bool) (operationId : string)
    (ops : list Operation) : list Operation :=
  match list_find (λ op, op_id op = operationId) ops with
  | Some (i, operation) => <[i := set_undone b operation]> ops
  | None => ops
  end.

(** [wsClient.onUndoUpdate] *)
Definition onUndoUpdate (operationId : string) (cm : CanvasManager.t)
    : CanvasManager.t :=
  CanvasManager.set_operations
    (set_flag true operationId (CanvasManager.operations cm)) cm.

(** [wsClient.onRedoUpdate] *)
Definition onRedoUpdate (operationId : string) (cm : CanvasManager.t)
    : CanvasManager.t :=
  CanvasManager.set_operations
    (set_flag false operationId (CanvasManager.operations cm)) cm.

(** [wsClient.onCanvasCleared]: the same loop as the server's. *)
Definition onCanvasCleared (userId : string) (cm : CanvasManager.t)
    : CanvasManager.t :=
  CanvasManager.set_operations
    (map (λ op, if decide (op_userId op = userId) then set_undone true op else op)
       (CanvasManager.operations cm)) cm.

(** [wsClient.onAdminCanvasCleared] *)
Definition onAdminCanvasCleared (cm : CanvasManager.t) : CanvasManager.t :=
  CanvasManager.clearCanvas
    {| CanvasManager.operations := [];
       CanvasManager.currentUserId := CanvasManager.currentUserId cm;
       CanvasManager.pendingStrokeCount := CanvasManager.pendingStrokeCount cm;
       CanvasManager.activeStrokes := ∅ |}.

(** [wsClient.onUserInfo], as far as the canvas manager goes:
    [canvasManager.setUserId(data.userId)] *)
Definition onUserInfo (userId : string) (cm : CanvasManager.t) : CanvasManager.t :=
  {| CanvasManager.operations := CanvasManager.operations cm;
     CanvasManager.currentUserId := Some userId;
     CanvasManager.pendingStrokeCount := CanvasManager.pendingStrokeCount cm;
     CanvasManager.activeStrokes := CanvasManager.activeStrokes cm |}.

(** One event from the server, routed as [setupEventListeners] of
    websocket.js and the callbacks above route it. The events that only
    touch the page ([user-joined], [user-list], [cursor-update], ...) leave
    the canvas manager alone. [None]: the callback threw. *)
Definition deliver (ev : Server.OutEvent) (cm : CanvasManager.t)
    : option CanvasManager.t :=
  match ev with
  | Server.EvUserInfo userId _ _ _ => Some (onUserInfo userId cm)
  | Server.EvOperationHistory history =>
      Some (CanvasManager.loadOperationHistory history cm)
  | Server.EvDrawingUpdate operation => CanvasManager.addOperation operation cm
  | Server.EvUndoUpdate operationId => Some (onUndoUpdate operationId cm)
  | Server.EvRedoUpdate operationId => Some (onRedoUpdate operationId cm)
  | Server.EvCanvasCleared userId => Some (onCanvasCleared userId cm)
  | Server.EvAdminCanvasCleared => Some (onAdminCanvasCleared cm)
  | _ => Some cm
  end.

Fixpoint deliver_all (evs : list Server.OutEvent) (cm : CanvasManager.t)
    : option CanvasManager.t :=
  match evs with
  | [] => Some cm
  | ev :: evs' => cm1 ← deliver ev cm; deliver_all evs' cm1
  end.

(** What the socket [socketId], a member of the socket.io room [roomId],
    gets of the effects of a handler. *)
Definition received (socketId roomId : string) (out : list Server.Effect)
    : list Server.OutEvent :=
  omap (λ e,
          match e with
          | Server.Emit (Server.ToSocket s) ev =>
              if decide (s = socketId) then Some ev else None
          | Server.Emit (Server.ToRoom r) ev =>
              if decide (r = roomId) then Some ev else None
          | Server.Emit (Server.ToRoomExcept r s) ev =>
              if decide (r = roomId ∧ s ≠ socketId) then Some ev else None
          | _ => None
          end) out.

(** [canvasManager.onShapeComplete]: add locally, then send the payload
    under the operation's type ([operation.type || 'shape']). *)
Definition onShapeComplete (operation : Operation) (ws : WebSocketClient.t)
    (cm : CanvasManager.t) : option CanvasManager.t * list Server.Msg :=
  (CanvasManager.addOperation operation cm,
   WebSocketClient.sendDrawingEvent
     {| Server.d_type := if decide (op_type operation = "") then "shape"
                         else op_type operation;
        Server.d_data := op_data operation |} ws).

End Main.

(** ** Streaming a freehand stroke

    [startDrawing], [draw] and [stopDrawing] of canvas.js on their brush and
    eraser path, with [emitDrawingEvent] and [emitCompleteStroke] as the
    client entry point installs them. Points are opaque. [lastEmitTime] and
    [lastSentIndex] are the variables of [setupCanvasCallbacks]. *)
Module Stroke.

Definition Point : Type := Z * Z.

Record t := mk {
  isDrawing : bool;
  currentPath : list Point;
  pendingStrokeCount : Z;
  lastEmitTime : Z;
  lastSentIndex : nat;
  connected : bool
}.

Definition EMIT_DELAY : Z := 50.

(** What [wsClient.sendDrawingEvent] is called with: the type, the points
    and [isComplete]. *)
Inductive Sent :=
| Incremental (points : list Point)   (* 'draw-incremental', isComplete: false *)
| Complete (points : list Point).     (* 'draw', isComplete: true *)

(** [wsClient.sendDrawingEvent]: dropped when not connected. *)
Definition send (s : t) (m : Sent) : list Sent :=
  if connected s then [m] else [].

(** [canvasManager.emitDrawingEvent] *)
Definition emitDrawingEvent (now : Z) (s : t) : t * list Sent :=
  if negb (isDrawing s) || bool_decide (length (currentPath s) = 0%nat)
  then (s, [])
  else if now - lastEmitTime s <? EMIT_DELAY then (s, [])
  else
    let newPoints := drop (lastSentIndex s) (currentPath s) in
    match newPoints with
    | [] =>
        ({| isDrawing := isDrawing s; currentPath := currentPath s;
            pendingStrokeCount := pendingStrokeCount s;
            lastEmitTime := now; lastSentIndex := lastSentIndex s;
            connected := connected s |}, [])
    | _ :: _ =>
        ({| isDrawing := isDrawing s; currentPath := currentPath s;
            pendingStrokeCount := pendingStrokeCount s;
            lastEmitTime := now; lastSentIndex := length (currentPath s);
            connected := connected s |},
         send s (Incremental newPoints))
    end.

(** [canvasManager.emitCompleteStroke] *)
Definition emitCompleteStroke (s : t) : t * list Sent :=
  ({| isDrawing := isDrawing s; currentPath := currentPath s;
      pendingStrokeCount := pendingStrokeCount s;
      lastEmitTime := lastEmitTime s; lastSentIndex := 0;
      connected := connected s |},
   match currentPath s with
   | [] => []
   | _ :: _ => send s (Complete (currentPath s))
   end).

(** [startDrawing]: [isDrawing = true; currentPath = [pos]] *)
Definition startDrawing (pos : Point) (s : t) : t :=
  {| isDrawing := true; currentPath := [pos];
     pendingStrokeCount := pendingStrokeCount s;
     lastEmitTime := lastEmitTime s; lastSentIndex := lastSentIndex s;
     connected := connected s |}.

(** [draw]: nothing unless drawing; a point closer than the threshold to
    the last one ([far = false]) is skipped; otherwise the point is pushed
    and [emitDrawingEvent] is called. *)
Definition draw (pos : Point) (far : bool) (now : Z) (s : t) : t * list Sent :=
  if negb (isDrawing s) then (s, [])
  else if negb far then (s, [])
  else
    emitDrawingEvent now
      {| isDrawing := isDrawing s; currentPath := currentPath s ++ [pos];
         pendingStrokeCount := pendingStrokeCount s;
         lastEmitTime := lastEmitTime s; lastSentIndex := lastSentIndex s;
         connected := connected s |}.

(** [stopDrawing] *)
Definition stopDrawing (s : t) : t * list Sent :=
  if negb (isDrawing s) then (s, [])
  else
    let s1 := {| isDrawing := false; currentPath := currentPath s;
                 pendingStrokeCount := pendingStrokeCount s;
                 lastEmitTime := lastEmitTime s; lastSentIndex := lastSentIndex s;
                 connected := connected s |} in
    let '(s2, out) :=
      match currentPath s1 with
      | [] => (s1, [])
      | _ :: _ =>
          emitCompleteStroke
            {| isDrawing := isDrawing s1; currentPath := currentPath s1;
               pendingStrokeCount := pendingStrokeCount s1 + 1;
               lastEmitTime := lastEmitTime s1; lastSentIndex := lastSentIndex s1;
               connected := connected s1 |}
      end in
    ({| isDrawing := isDrawing s2; currentPath := [];
        pendingStrokeCount := pendingStrokeCount s2;
        lastEmitTime := lastEmitTime s2; lastSentIndex := lastSentIndex s2;
        connected := connected s2 |}, out).

(** The mouse moves of one stroke: each with its point, the outcome of the
    distance test and the clock reading. *)
Fixpoint moves (ms : list (Point * bool * Z)) (s : t) : t * list Sent :=
  match ms with
  | [] => (s, [])
  | (pos, far, now) :: ms' =>
      let '(s1, out1) := draw pos far now s in
      let '(s2, out2) := moves ms' s1 in
      (s2, out1 ++ out2)
  end.

(** One stroke: mouse down, moves, mouse up. *)
Definition stroke (pos : Point) (ms : list (Point * bool * Z)) (s : t)
    : t * list Sent :=
  let '(s1, out1) := moves ms (startDrawing pos s) in
  let '(s2, out2) := stopDrawing s1 in
  (s2, out1 ++ out2).

(** The points of the incremental segments of a list of messages. *)
Definition streamed (out : list Sent) : list Point :=
  concat (omap (λ m, match m with Incremental ps => Some ps | Complete _ => None end) out).

End Stroke.

(** ** Further sample data *)
Module Scenario.

(** The registry after [Sample.drawn]. *)
Definition rm_drawn : RoomManager.t :=
  Server.manager (Server.run Sample.drawn Server.init).1.

(** x drags the stroke [a] to (5, 7). *)
Definition to_5_7 : Payload :=
  {| p_isComplete := false; p_tempId := None; p_operationId := Some "a";
     p_x := Some 5; p_y := Some 7; p_width := None; p_height := None;
     p_tool := None; p_rest := "" |}.
Definition move_a : Server.DrawingEvent :=
  {| Server.d_type := "move"; Server.d_data := Some to_5_7 |}.

(** The room [R] after [Sample.pair]. *)
Definition room_pair : RoomManager.Room :=
  {| RoomManager.r_id := "R";
     RoomManager.r_users := [("x", 0%nat); ("y", 1%nat)];
     RoomManager.r_drawingState := DrawingState.new "R";
     RoomManager.r_adminId := Some "x";
     RoomManager.r_createdAt := 1 |}.

(** The history of y's client after [Sample.drawn]. *)
Definition replica : CanvasManager.t :=
  {| CanvasManager.operations := [Sample.strokeA; Sample.shapeB];
     CanvasManager.currentUserId := Some "y";
     CanvasManager.pendingStrokeCount := 0;
     CanvasManager.activeStrokes := ∅ |}.

(** A connected client about to draw, and the mouse moves of a stroke: the
    third move is closer to its predecessor than the threshold. *)
Definition pen : Stroke.t :=
  {| Stroke.isDrawing := false; Stroke.currentPath := [];
     Stroke.pendingStrokeCount := 0; Stroke.lastEmitTime := 0;
     Stroke.lastSentIndex := 0; Stroke.connected := true |}.
Definition pen_moves : list (Stroke.Point * bool * Z) :=
  [((1, 1), true, 100); ((2, 2), true, 120); ((2, 2), false, 180);
   ((3, 3), true, 200)].

(** The server after [Sample.pair], and x kicking y. *)
Definition st_pair : Server.State := (Server.run Sample.pair Server.init).1.
Definition connY : Server.Conn :=
  {| Server.currentUser := Some 1%nat; Server.currentRoom := Some "R" |}.

(** A committed segment: a ['draw-incremental'] marked complete whose
    payload carries the temporary id of [Sample.placeholder]. *)
Definition segment : Operation :=
  Sample.op "srv-2" "draw-incremental" "x"
    (Some (Sample.payload true (Some "temp-1"))).

End Scenario.

(** * Properties of the operation log *)

Section LogLoops.
Local Open Scope nat_scope.
Variables (p : Operation → bool) (b : bool).

(** What the downward scan returns: the hit with the largest index. *)
Lemma down_loop_spec (ops : list Operation) (n : nat) :
  n ≤ length ops →
  match DrawingState.down_loop p b ops n with
  | (Some r, ops') =>
      ∃ i x, i < n ∧ ops !! i = Some x ∧ p x = true
        ∧ (∀ j y, i < j < n → ops !! j = Some y → p y = false)
        ∧ r = set_undone b x ∧ ops' = <[i := r]> ops
  | (None, ops') =>
      ops' = ops ∧ ∀ j y, j < n → ops !! j = Some y → p y = false
  end.
Proof.
  induction n as [|i IH]; intros Hn; simpl.
  - split; [done|]. intros j y Hj. lia.
  - destruct (lookup_lt_is_Some_2 ops i ltac:(lia)) as [x Hx]. rewrite Hx.
    destruct (p x) eqn:Hp.
    + exists i, x. repeat split; try done; try lia.
      all: intros j y Hj; lia.
    + specialize (IH ltac:(lia)).
      destruct (DrawingState.down_loop p b ops i) as [[r|] ops'].
      * destruct IH as (k & z & Hk & Hz & Hpz & Hafter & -> & ->).
        exists k, z. repeat split; try done; try lia.
        intros j y Hj Hy. destruct (decide (j = i)) as [->|Hne].
        -- congruence.
        -- apply (Hafter j y); [lia|done].
      * destruct IH as [-> Hall]. split; [done|].
        intros j y Hj Hy. destruct (decide (j = i)) as [->|Hne].
        -- congruence.
        -- apply (Hall j y); [lia|done].
Qed.

(** What the upward scan returns: the hit with the smallest index. The
    fuel [length ops - i] lets the loop reach its exit test. *)
Lemma up_loop_spec (ops : list Operation) (fuel i : nat) :
  length ops ≤ i + fuel →
  match DrawingState.up_loop p b ops i fuel with
  | (Some r, ops') =>
      ∃ k x, i ≤ k ∧ ops !! k = Some x ∧ p x = true
        ∧ (∀ j y, i ≤ j < k → ops !! j = Some y → p y = false)
        ∧ r = set_undone b x ∧ ops' = <[k := r]> ops
  | (None, ops') =>
      ops' = ops ∧ ∀ j y, i ≤ j → ops !! j = Some y → p y = false
  end.
Proof.
  revert i. induction fuel as [|fuel IH]; intros i Hlen; simpl.
  - split; [done|]. intros j y Hj Hy. apply lookup_lt_Some in Hy. lia.
  - destruct (ops !! i) as [x|] eqn:Hx.
    + destruct (p x) eqn:Hp.
      * exists i, x. repeat split; try done.
        all: intros j y Hj; lia.
      * specialize (IH (S i) ltac:(lia)).
        destruct (DrawingState.up_loop p b ops (S i) fuel) as [[r|] ops'].
        -- destruct IH as (k & z & Hk & Hz & Hpz & Hbefore & -> & ->).
           exists k, z. repeat split; try done; try lia.
           intros j y Hj Hy. destruct (decide (j = i)) as [->|Hne].
           ++ congruence.
           ++ apply (Hbefore j y); [lia|done].
        -- destruct IH as [-> Hall]. split; [done|].
           intros j y Hj Hy. destruct (decide (j = i)) as [->|Hne].
           ++ congruence.
           ++ apply (Hall j y); [lia|done].
    + split; [done|]. intros j y Hj Hy.
      apply lookup_ge_None in Hx. apply lookup_lt_Some in Hy. lia.
Qed.

End LogLoops.

Lemma set_operations_id (s : DrawingState.t) :
  DrawingState.set_operations (DrawingState.operations s) s = s.
Proof. by destruct s. Qed.

Lemma undo_target_true (u : string) (x : Operation) :
  DrawingState.undo_target u x = true ↔ op_userId x = u ∧ op_undone x = false.
Proof.
  unfold DrawingState.undo_target.
  rewrite andb_true_iff, bool_decide_eq_true, negb_true_iff. done.
Qed.

Lemma undo_target_false (u : string) (x : Operation) :
  DrawingState.undo_target u x = false ↔ ¬ (op_userId x = u ∧ op_undone x = false).
Proof. rewrite <- undo_target_true. by destruct (DrawingState.undo_target u x). Qed.

Lemma redo_target_true (u : string) (x : Operation) :
  DrawingState.redo_target u x = true ↔ op_userId x = u ∧ op_undone x = true.
Proof.
  unfold DrawingState.redo_target.
  rewrite andb_true_iff, bool_decide_eq_true. done.
Qed.

Lemma redo_target_false (u : string) (x : Operation) :
  DrawingState.redo_target u x = false ↔ ¬ (op_userId x = u ∧ op_undone x = true).
Proof. rewrite <- redo_target_true. by destruct (DrawingState.redo_target u x). Qed.

(** The general description of [undo]. *)
Lemma undo_spec (userId : string) (s : DrawingState.t) :
  match DrawingState.undo userId s with
  | (Some r, s') =>
      ∃ i x, DrawingState.operations s !! i = Some x
        ∧ op_userId x = userId ∧ op_undone x = false
        ∧ (∀ j y, (i < j)%nat → DrawingState.operations s !! j = Some y →
                  ¬ (op_userId y = userId ∧ op_undone y = false))
        ∧ r = set_undone true x
        ∧ s' = DrawingState.set_operations (<[i := r]> (DrawingState.operations s)) s
  | (None, s') =>
      s' = s ∧ ∀ y, y ∈ DrawingState.operations s →
                    ¬ (op_userId y = userId ∧ op_undone y = false)
  end.
Proof.
  unfold DrawingState.undo, DrawingState.with_log.
  pose proof (down_loop_spec (DrawingState.undo_target userId) true
                (DrawingState.operations s) (length (DrawingState.operations s))
                ltac:(lia)) as H.
  destruct (DrawingState.down_loop _ _ _ _) as [[r|] ops']; simpl.
  - destruct H as (i & x & Hi & Hx & Hp & Hafter & -> & ->).
    apply undo_target_true in Hp as [Hu Hd].
    exists i, x. repeat split; try done.
    intros j y Hj Hy. apply undo_target_false.
    apply (Hafter j y); [|done]. apply lookup_lt_Some in Hy. lia.
  - destruct H as [-> Hall]. split; [apply set_operations_id|].
    intros y Hy. apply list_elem_of_lookup in Hy as [j Hj].
    apply undo_target_false. apply (Hall j y); [|done].
    by apply lookup_lt_Some in Hj.
Qed.

(** The general description of [redo]. *)
Lemma redo_spec (userId : string) (s : DrawingState.t) :
  match DrawingState.redo userId s with
  | (Some r, s') =>
      ∃ i x, DrawingState.operations s !! i = Some x
        ∧ op_userId x = userId ∧ op_undone x = true
        ∧ (∀ j y, (j < i)%nat → DrawingState.operations s !! j = Some y →
                  ¬ (op_userId y = userId ∧ op_undone y = true))
        ∧ r = set_undone false x
        ∧ s' = DrawingState.set_operations (<[i := r]> (DrawingState.operations s)) s
  | (None, s') =>
      s' = s ∧ ∀ y, y ∈ DrawingState.operations s →
                    ¬ (op_userId y = userId ∧ op_undone y = true)
  end.
Proof.
  unfold DrawingState.redo, DrawingState.with_log.
  pose proof (up_loop_spec (DrawingState.redo_target userId) false
                (DrawingState.operations s) (length (DrawingState.operations s)) 0%nat
                ltac:(lia)) as H.
  destruct (DrawingState.up_loop _ _ _ _ _) as [[r|] ops']; simpl.
  - destruct H as (i & x & Hi & Hx & Hp & Hbefore & -> & ->).
    apply redo_target_true in Hp as [Hu Hd].
    exists i, x. repeat split; try done.
    intros j y Hj Hy. apply redo_target_false.
    apply (Hbefore j y); [lia|done].
  - destruct H as [-> Hall]. split; [apply set_operations_id|].
    intros y Hy. apply list_elem_of_lookup in Hy as [j Hj].
    apply redo_target_false. apply (Hall j y); [lia|done].
Qed.

Lemma down_loop_length p b (ops : list Operation) (n : nat) :
  length (DrawingState.down_loop p b ops n).2 = length ops.
Proof.
  induction n as [|i IH]; simpl; [done|].
  destruct (ops !! i) as [x|]; [|done].
  destruct (p x); [|done]. simpl. by rewrite length_insert.
Qed.

Lemma up_loop_length p b (ops : list Operation) (fuel i : nat) :
  length (DrawingState.up_loop p b ops i fuel).2 = length ops.
Proof.
  revert i. induction fuel as [|fuel IH]; intros i; simpl; [done|].
  destruct (ops !! i) as [x|]; [|done].
  destruct (p x); [|by apply IH]. simpl. by rewrite length_insert.
Qed.

Lemma slice0_all {A} (l : list A) : slice0 l (Z.of_nat (length l)) = l.
Proof.
  unfold slice0. destruct (Z.ltb_spec (Z.of_nat (length l)) 0) as [H|H]; [lia|].
  rewrite Z.min_id, Nat2Z.id. apply firstn_all.
Qed.

(** The cursor is the last index of the log after every call. *)
Lemma call_cursor (c : DrawingState.Call) (s : DrawingState.t) :
  DrawingState.currentIndex s = Z.of_nat (length (DrawingState.operations s)) - 1 →
  DrawingState.currentIndex (DrawingState.call c s)
  = Z.of_nat (length (DrawingState.operations (DrawingState.call c s))) - 1.
Proof.
  intros H. destruct c; simpl.
  - rewrite H. replace (Z.of_nat (length (DrawingState.operations s)) - 1 + 1)
      with (Z.of_nat (length (DrawingState.operations s))) by lia.
    rewrite slice0_all, length_app. simpl. lia.
  - by rewrite down_loop_length.
  - by rewrite up_loop_length.
  - by rewrite down_loop_length.
  - by rewrite up_loop_length.
  - done.
Qed.

Lemma reachable_cursor (s : DrawingState.t) :
  DrawingState.reachable s →
  DrawingState.currentIndex s = Z.of_nat (length (DrawingState.operations s)) - 1.
Proof. induction 1 as [r|c s _ IH]; [done|]. by apply call_cursor. Qed.


(** The general description of [globalUndo]: the author plays no part. *)
Lemma globalUndo_spec (s : DrawingState.t) :
  match DrawingState.globalUndo s with
  | (Some r, s') =>
      ∃ i x, DrawingState.operations s !! i = Some x ∧ op_undone x = false
        ∧ (∀ j y, (i < j)%nat → DrawingState.operations s !! j = Some y →
                  op_undone y = true)
        ∧ r = set_undone true x
        ∧ s' = DrawingState.set_operations (<[i := r]> (DrawingState.operations s)) s
  | (None, s') =>
      s' = s ∧ ∀ y, y ∈ DrawingState.operations s → op_undone y = true
  end.
Proof.
  unfold DrawingState.globalUndo, DrawingState.with_log.
  pose proof (down_loop_spec (λ o, negb (op_undone o)) true
                (DrawingState.operations s) (length (DrawingState.operations s))
                ltac:(lia)) as H.
  destruct (DrawingState.down_loop _ _ _ _) as [[r|] ops']; simpl.
  - destruct H as (i & x & Hi & Hx & Hp & Hafter & -> & ->).
    apply negb_true_iff in Hp.
    exists i, x. repeat split; try done.
    intros j y Hj Hy. apply negb_false_iff.
    apply (Hafter j y); [|done]. apply lookup_lt_Some in Hy. lia.
  - destruct H as [-> Hall]. split; [apply set_operations_id|].
    intros y Hy. apply list_elem_of_lookup in Hy as [j Hj].
    apply negb_false_iff. apply (Hall j y); [|done].
    by apply lookup_lt_Some in Hj.
Qed.

(** The general description of [globalRedo]. *)
Lemma globalRedo_spec (s : DrawingState.t) :
  match DrawingState.globalRedo s with
  | (Some r, s') =>
      ∃ i x, DrawingState.operations s !! i = Some x ∧ op_undone x = true
        ∧ (∀ j y, (j < i)%nat → DrawingState.operations s !! j = Some y →
                  op_undone y = false)
        ∧ r = set_undone false x
        ∧ s' = DrawingState.set_operations (<[i := r]> (DrawingState.operations s)) s
  | (None, s') =>
      s' = s ∧ ∀ y, y ∈ DrawingState.operations s → op_undone y = false
  end.
Proof.
  unfold DrawingState.globalRedo, DrawingState.with_log.
  pose proof (up_loop_spec (λ o, op_undone o) false
                (DrawingState.operations s) (length (DrawingState.operations s)) 0%nat
                ltac:(lia)) as H.
  destruct (DrawingState.up_loop _ _ _ _ _) as [[r|] ops']; simpl.
  - destruct H as (i & x & Hi & Hx & Hp & Hbefore & -> & ->).
    exists i, x. repeat split; try done.
    intros j y Hj Hy. apply (Hbefore j y); [lia|done].
  - destruct H as [-> Hall]. split; [apply set_operations_id|].
    intros y Hy. apply list_elem_of_lookup in Hy as [j Hj].
    apply (Hall j y); [lia|done].
Qed.

(** C3: [globalUndo()] flips the most recently committed entry whose
    [undone] flag is false, whoever its author is, and returns it ([null]
    when every entry is undone); after a commit of [A] followed by a commit
    of [B], by any two authors, it flags [B] and leaves [A] active. On the
    server: x and y join, x commits a stroke, y a shape, x leaves, and the
    ['admin-undo'] of y, now admin, flags y's shape and broadcasts its id. *)
Theorem globalUndo_flips_latest_active (s : DrawingState.t) (r : string)
    (A B : Operation) :
  match DrawingState.globalUndo s with
  | (Some o, s') =>
      ∃ i x, DrawingState.operations s !! i = Some x ∧ op_undone x = false
        ∧ (∀ j y, (i < j)%nat → DrawingState.operations s !! j = Some y →
                  op_undone y = true)
        ∧ o = set_undone true x
        ∧ s' = DrawingState.set_operations (<[i := o]> (DrawingState.operations s)) s
  | (None, s') =>
      s' = s ∧ ∀ y, y ∈ DrawingState.operations s → op_undone y = true
  end
  ∧ (let s2 := DrawingState.run [DrawingState.CAdd A; DrawingState.CAdd B]
                 (DrawingState.new r) in
     DrawingState.operations s2 = [set_undone false A; set_undone false B]
     ∧ DrawingState.globalUndo s2
       = (Some (set_undone true B),
          DrawingState.set_operations [set_undone false A; set_undone true B] s2))
  ∧ (let res := Server.run Sample.succession Server.init in
     last res.2 = Some (Server.Emit (Server.ToRoom "R") (Server.EvUndoUpdate "b"))
     ∧ DrawingState.operations
         <$> RoomManager.getDrawingState "R" (Server.manager res.1)
       = Some [Sample.strokeA; set_undone true Sample.shapeB]).
Proof.
  split; [apply globalUndo_spec|]. split; [split; reflexivity|].
  vm_compute. split; reflexivity.
Qed.

(** ** The undo/redo asymmetry *)

Lemma undo_on (u : string) (s : DrawingState.t) (ops : list Operation) :
  DrawingState.operations s = ops →
  DrawingState.undo u s
  = DrawingState.with_log s
      (DrawingState.down_loop (DrawingState.undo_target u) true ops (length ops)).
Proof. intros <-. reflexivity. Qed.

Lemma redo_on (u : string) (s : DrawingState.t) (ops : list Operation) :
  DrawingState.operations s = ops →
  DrawingState.redo u s
  = DrawingState.with_log s
      (DrawingState.up_loop (DrawingState.redo_target u) false ops 0 (length ops)).
Proof. intros <-. reflexivity. Qed.

Lemma undo_target_own (u : string) (o : Operation) (b : bool) :
  op_userId o = u → DrawingState.undo_target u (set_undone b o) = negb b.
Proof.
  intros H. unfold DrawingState.undo_target. simpl.
  by rewrite bool_decide_eq_true_2.
Qed.

Lemma redo_target_own (u : string) (o : Operation) (b : bool) :
  op_userId o = u → DrawingState.redo_target u (set_undone b o) = b.
Proof.
  intros H. unfold DrawingState.redo_target. simpl.
  by rewrite bool_decide_eq_true_2.
Qed.

(** A commit followed by an undo of its author. *)
Lemma commit_then_undo (u r : string) (A : Operation) :
  op_userId A = u →
  DrawingState.undo u (DrawingState.call (DrawingState.CAdd A) (DrawingState.new r))
  = (Some (set_undone true A),
     {| DrawingState.roomId := r;
        DrawingState.operations := [set_undone true A];
        DrawingState.currentIndex := 0;
        DrawingState.referenceSize := None |}).
Proof.
  intros HA. rewrite (undo_on u _ [set_undone false A]) by reflexivity.
  cbn [length DrawingState.down_loop lookup list_lookup].
  rewrite (undo_target_own u A false) by done. reflexivity.
Qed.

(** A commit, an undo, and two more commits by the same user: the first
    entry is undone and the two later ones are active. *)
Lemma undone_then_two_active (u r : string) (A B C : Operation) :
  op_userId A = u →
  DrawingState.run
    [DrawingState.CAdd A; DrawingState.CUndo u;
     DrawingState.CAdd B; DrawingState.CAdd C] (DrawingState.new r)
  = {| DrawingState.roomId := r;
       DrawingState.operations :=
         [set_undone true A; set_undone false B; set_undone false C];
       DrawingState.currentIndex := 2;
       DrawingState.referenceSize := None |}.
Proof.
  intros HA.
  change (DrawingState.run _ _) with
    (DrawingState.run [DrawingState.CAdd B; DrawingState.CAdd C]
       (DrawingState.undo u
          (DrawingState.call (DrawingState.CAdd A) (DrawingState.new r))).2).
  rewrite (commit_then_undo u r A HA). reflexivity.
Qed.

Lemma set_undone_same (x : Operation) : set_undone (op_undone x) x = x.
Proof. by destruct x. Qed.


(** C2: [redo(userId)] flips the oldest undone entry of [userId], found by
    its place in the log and not by when it was undone. With [A], [B], [C]
    committed in that order by one user, [undo] flags [C], a second [undo]
    flags [B], and [redo] then restores [B] and leaves [C] undone. After
    [A], undo, [B], undo, the entry undone last is [B], yet [redo] restores
    [A]. And with [A] undone and [B], [C] active, [undo] followed by [redo]
    flags [C] and restores [A], so the pair does not give the state back. *)
Theorem redo_restores_oldest_undone (userId r : string) (A B C : Operation)
    (HA : op_userId A = userId) (HB : op_userId B = userId)
    (HC : op_userId C = userId) :
  let a := set_undone false A in
  let b := set_undone false B in
  let c := set_undone false C in
  let s3 := DrawingState.run
              [DrawingState.CAdd A; DrawingState.CAdd B; DrawingState.CAdd C]
              (DrawingState.new r) in
  let s4 := DrawingState.set_operations [a; b; set_undone true C] s3 in
  let s5 := DrawingState.set_operations [a; set_undone true B; set_undone true C] s3 in
  let v := DrawingState.run
             [DrawingState.CAdd A; DrawingState.CUndo userId;
              DrawingState.CAdd B; DrawingState.CUndo userId]
             (DrawingState.new r) in
  let t := DrawingState.run
             [DrawingState.CAdd A; DrawingState.CUndo userId;
              DrawingState.CAdd B; DrawingState.CAdd C]
             (DrawingState.new r) in
  (∀ s : DrawingState.t,
     match DrawingState.redo userId s with
     | (Some o, s') =>
         ∃ i x, DrawingState.operations s !! i = Some x
           ∧ op_userId x = userId ∧ op_undone x = true
           ∧ (∀ j y, (j < i)%nat → DrawingState.operations s !! j = Some y →
                     ¬ (op_userId y = userId ∧ op_undone y = true))
           ∧ o = set_undone false x
           ∧ s' = DrawingState.set_operations
                    (<[i := o]> (DrawingState.operations s)) s
     | (None, s') =>
         s' = s ∧ ∀ y, y ∈ DrawingState.operations s →
                       ¬ (op_userId y = userId ∧ op_undone y = true)
     end)
  ∧ (DrawingState.operations s3 = [a; b; c]
     ∧ DrawingState.undo userId s3 = (Some (set_undone true C), s4)
     ∧ DrawingState.undo userId s4 = (Some (set_undone true B), s5)
     ∧ DrawingState.redo userId s5 = (Some b, s4))
  ∧ (DrawingState.operations v = [set_undone true A; set_undone true B]
     ∧ (DrawingState.redo userId v).1 = Some a
     ∧ DrawingState.operations (DrawingState.redo userId v).2
       = [a; set_undone true B])
  ∧ (DrawingState.operations t = [set_undone true A; b; c]
     ∧ (DrawingState.undo userId t).1 = Some (set_undone true C)
     ∧ (DrawingState.redo userId (DrawingState.undo userId t).2).1 = Some a
     ∧ DrawingState.operations
         (DrawingState.redo userId (DrawingState.undo userId t).2).2
       = [a; b; set_undone true C]
     ∧ (DrawingState.redo userId (DrawingState.undo userId t).2).2 ≠ t).
Proof.
  intros a b c s3 s4 s5 v t.
  split; [intros s; apply redo_spec|]. split; [|split].
  - split; [reflexivity|]. split; [|split].
    + rewrite (undo_on userId s3 [a; b; c]) by reflexivity. simpl.
      subst c. rewrite undo_target_own by done. reflexivity.
    + rewrite (undo_on userId s4 [a; b; set_undone true C]) by reflexivity. simpl.
      rewrite (undo_target_own userId C true) by done. simpl.
      subst b. rewrite (undo_target_own userId B false) by done. reflexivity.
    + rewrite (redo_on userId s5 [a; set_undone true B; set_undone true C])
        by reflexivity. simpl.
      subst a. rewrite (redo_target_own userId A false) by done. simpl.
      rewrite (redo_target_own userId B true) by done. reflexivity.
  - assert (Hv : DrawingState.operations v = [set_undone true A; set_undone true B]).
    { subst v.
      change (DrawingState.run _ _) with
        (DrawingState.undo userId
           (DrawingState.call (DrawingState.CAdd B)
              (DrawingState.undo userId
                 (DrawingState.call (DrawingState.CAdd A) (DrawingState.new r))).2)).2.
      rewrite (commit_then_undo userId r A HA).
      rewrite (undo_on userId _ [set_undone true A; set_undone false B])
        by reflexivity. simpl.
      rewrite (undo_target_own userId B false) by done. reflexivity. }
    split; [exact Hv|].
    rewrite (redo_on userId v _ Hv). simpl.
    rewrite (redo_target_own userId A true) by done. split; reflexivity.
  - subst t. rewrite (undone_then_two_active userId r A B C HA).
    set (T := DrawingState.mk r [set_undone true A; set_undone false B;
                                 set_undone false C] 2 None).
    assert (Hu : DrawingState.undo userId T
                 = (Some (set_undone true C),
                    DrawingState.set_operations
                      [set_undone true A; b; set_undone true C] T)).
    { rewrite (undo_on userId T [set_undone true A; b; c]) by reflexivity. simpl.
      subst c. rewrite (undo_target_own userId C false) by done. reflexivity. }
    assert (Hr : DrawingState.redo userId
                   (DrawingState.set_operations
                      [set_undone true A; b; set_undone true C] T)
                 = (Some a, DrawingState.set_operations
                              [a; b; set_undone true C] T)).
    { rewrite (redo_on userId _ [set_undone true A; b; set_undone true C])
        by reflexivity. simpl.
      rewrite (redo_target_own userId A true) by done. reflexivity. }
    rewrite Hu. cbn [fst snd]. rewrite Hr. cbn [fst snd].
    split; [reflexivity|]. split; [reflexivity|]. split; [reflexivity|].
    split; [reflexivity|].
    intros Heq. apply (f_equal DrawingState.operations) in Heq. simpl in Heq.
    discriminate Heq.
Qed.

Lemma redo_restores_oldest_undone_witness :
  (op_userId Sample.opA = "u" ∧ op_userId Sample.opB = "u"
   ∧ op_userId Sample.opC = "u")
  ∧ DrawingState.redo "u"
      (DrawingState.mk "r"
         [Sample.opA; set_undone true Sample.opB; set_undone true Sample.opC] 2 None)
    = (Some Sample.opB,
       DrawingState.mk "r" [Sample.opA; Sample.opB; set_undone true Sample.opC] 2 None).
Proof.
  split; [repeat split|].
  exact (proj2 (proj2 (proj2 (proj1 (proj2
    (redo_restores_oldest_undone "u" "r" Sample.opA Sample.opB Sample.opC
       eq_refl eq_refl eq_refl)))))).
Defined.

(** ** The append cursor *)

(** C10: in every state built from [new DrawingState] by calls of
    [addOperation], [undo], [redo], [globalUndo], [globalRedo] and [clear],
    [currentIndex] is [operations.length - 1]; so the slice at the start of
    [addOperation] keeps the whole log, the new entry is appended to all the
    earlier ones, and [getActiveOperations()] is the whole log filtered by
    [undone = false]. *)
Theorem cursor_is_last_index (s : DrawingState.t) :
  DrawingState.reachable s →
  DrawingState.currentIndex s = Z.of_nat (length (DrawingState.operations s)) - 1
  ∧ slice0 (DrawingState.operations s) (DrawingState.currentIndex s + 1)
    = DrawingState.operations s
  ∧ (∀ o, DrawingState.operations (DrawingState.addOperation o s).2
          = DrawingState.operations s ++ [set_undone false o])
  ∧ DrawingState.getActiveOperations s
    = filter (λ o, op_undone o = false) (DrawingState.operations s).
Proof.
  intros Hr. pose proof (reachable_cursor s Hr) as Hc.
  assert (Hs : slice0 (DrawingState.operations s) (DrawingState.currentIndex s + 1)
               = DrawingState.operations s).
  { rewrite Hc.
    replace (Z.of_nat (length (DrawingState.operations s)) - 1 + 1)
      with (Z.of_nat (length (DrawingState.operations s))) by lia.
    apply slice0_all. }
  split; [exact Hc|]. split; [exact Hs|]. split.
  - intros o. simpl. by rewrite Hs.
  - unfold DrawingState.getActiveOperations. by rewrite Hs.
Qed.

Lemma cursor_is_last_index_witness :
  DrawingState.reachable
    (DrawingState.run
       [DrawingState.CAdd Sample.opA; DrawingState.CAdd Sample.opB;
        DrawingState.CGlobalUndo] (DrawingState.new "r"))
  ∧ DrawingState.getActiveOperations
      (DrawingState.run
         [DrawingState.CAdd Sample.opA; DrawingState.CAdd Sample.opB;
          DrawingState.CGlobalUndo] (DrawingState.new "r"))
    = [Sample.opA].
Proof.
  assert (Hr : DrawingState.reachable
    (DrawingState.run
       [DrawingState.CAdd Sample.opA; DrawingState.CAdd Sample.opB;
        DrawingState.CGlobalUndo] (DrawingState.new "r"))).
  { repeat apply DrawingState.reach_call. apply DrawingState.reach_new. }
  split; [exact Hr|].
  rewrite (proj2 (proj2 (proj2 (cursor_is_last_index _ Hr)))).
  reflexivity.
Defined.

(** * Properties of the room registry *)

Section JsMapFacts.
Local Open Scope nat_scope.
Context {V : Type}.
Implicit Types (m : list (string * V)) (k : string).

(** [set] of a key that is not present appends: a new member comes last. *)
Lemma JsMap_set_fresh k (v : V) m :
  k ∉ JsMap.keys m → JsMap.set k v m = m ++ [(k, v)].
Proof.
  induction m as [|[k' v'] m IH]; simpl; intros Hk; [done|].
  apply not_elem_of_cons in Hk as [Hne Hk].
  destruct (decide (k' = k)); [congruence|]. by rewrite IH.
Qed.

(** What is left after [delete] was there before. *)
Lemma JsMap_delete_lookup k m j y :
  JsMap.delete k m !! j = Some y → ∃ n, m !! n = Some y.
Proof.
  revert j. induction m as [|[k' v'] m IH]; simpl; intros j Hj; [done|].
  destruct (decide (k' = k)) as [_|_].
  - by exists (S j).
  - destruct j as [|j]; simpl in Hj.
    + by exists 0.
    + destruct (IH j Hj) as [n Hn]. by exists (S n).
Qed.


(** [delete] removes the key when keys are unique, as in a [Map]. *)
Lemma JsMap_delete_get k m :
  NoDup (JsMap.keys m) → JsMap.get k (JsMap.delete k m) = None.
Proof.
  induction m as [|[k' v'] m IH]; simpl; intros Hnd; [done|].
  apply NoDup_cons in Hnd as [Hk' Hnd].
  destruct (decide (k' = k)) as [->|Hne].
  - clear IH. induction m as [|[k2 v2] m IH2]; simpl; [done|].
    simpl in Hk'. apply not_elem_of_cons in Hk' as [Hne Hk'].
    apply NoDup_cons in Hnd as [_ Hnd].
    destruct (decide (k2 = k)); [congruence|]. by apply IH2.
  - simpl. destruct (decide (k' = k)); [congruence|]. by apply IH.
Qed.

End JsMapFacts.

(** A user who joins with a fresh id is put after all present members. *)
Lemma addUser_appends (now : Z) (rnd : nat) (roomId userId userName socketId : string)
    (rm : RoomManager.t) (room : RoomManager.Room) :
  RoomManager.rooms rm !! roomId = Some room →
  userId ∉ JsMap.keys (RoomManager.r_users room) →
  ∃ room',
    RoomManager.rooms (RoomManager.addUser now rnd roomId userId userName socketId rm).2
      !! roomId = Some room'
    ∧ RoomManager.r_users room'
      = RoomManager.r_users room ++ [(userId, length (RoomManager.heap rm))].
Proof.
  intros Hroom Hfresh. unfold RoomManager.addUser, RoomManager.getRoom.
  rewrite Hroom. simpl. eexists. rewrite lookup_insert_eq. split; [done|].
  simpl. by apply JsMap_set_fresh.
Qed.



(** * Properties of the socket handlers *)

(** ['admin-transfer'] never changes the registry, the heap or the closure,
    whoever sends it. *)
Lemma admin_transfer_changes_nothing (newAdminId sid : string)
    (c : Server.Conn) (rm : RoomManager.t) :
  (Server.on_admin_transfer newAdminId sid c rm).1 = (c, rm).
Proof.
  unfold Server.on_admin_transfer, Server.admin_only.
  destruct (Server.joined c rm) as [[roomId user]|]; [|done].
  by destruct (RoomManager.u_isAdmin user).
Qed.

(** C8: what the code does. x is the admin of room [R] and y a member; x sends
    ['admin-transfer'] for y. The call of the missing [setAdmin] throws, the
    catch clause logs, nothing is emitted, x is still the admin and y is
    not. *)
Theorem admin_transfer_by_admin_fails :
  let st := (Server.run Sample.pair Server.init).1 in
  let r := Server.step "s1" (Sample.env "-" 9) (Server.AdminTransfer "y") st in
  r.2 = [Server.ConsoleError "Error transferring admin rights"]
  ∧ Server.manager r.1 = Server.manager st
  ∧ RoomManager.r_adminId <$> RoomManager.rooms (Server.manager r.1) !! "R"
    = Some (Some "x")
  ∧ map (λ u, (RoomManager.u_id u, RoomManager.u_isAdmin u))
      (RoomManager.getRoomUsers "R" (Server.manager r.1))
    = [("x", true); ("y", false)].
Proof. vm_compute. repeat split; reflexivity. Qed.

(** After the ['disconnect'] handler of a joined connection the registry has
    an entry for the connection's room, whatever [removeUser] did. *)
Lemma disconnect_leaves_room_entry (now : Z) (sid : string) (c : Server.Conn)
    (rm : RoomManager.t) (roomId : string) (user : RoomManager.User) :
  Server.joined c rm = Some (roomId, user) →
  is_Some (RoomManager.rooms (Server.on_disconnect now sid c rm).1.2 !! roomId).
Proof.
  intros Hj. unfold Server.on_disconnect. rewrite Hj.
  destruct (RoomManager.removeUser roomId (RoomManager.u_id user) rm) as [o rm1].
  unfold RoomManager.getRoom.
  destruct (RoomManager.rooms rm1 !! roomId) as [room|] eqn:Hroom; simpl.
  - by rewrite Hroom.
  - by rewrite lookup_insert_eq.
Qed.

(** C7: what the code does. x is the only member of room [R] and disconnects.
    [removeUser] deletes the room, and the handler's following call of
    [getRoom], which creates what it does not find, puts an empty room back
    under the same id. *)
Theorem disconnect_of_last_member_recreates_room :
  let joined := (Server.run (take 2 Sample.solo) Server.init).1 in
  let left := (Server.run Sample.solo Server.init).1 in
  RoomManager.rooms (RoomManager.removeUser "R" "x" (Server.manager joined)).2 !! "R"
  = None
  ∧ RoomManager.rooms (Server.manager left) !! "R"
    = Some {| RoomManager.r_id := "R"; RoomManager.r_users := [];
              RoomManager.r_drawingState := DrawingState.new "R";
              RoomManager.r_adminId := None; RoomManager.r_createdAt := 2 |}
  ∧ Server.conns left = ∅.
Proof. vm_compute. repeat split; reflexivity. Qed.

(** ** What the handlers keep true of every log *)

Lemma storable_set_undone (b : bool) (o : Operation) :
  Server.storable o → Server.storable (set_undone b o).
Proof. by intros H. Qed.

Lemma storable_set_data (f : Payload → Payload) (o : Operation) (d : Payload) :
  (∀ d, p_isComplete (f d) = p_isComplete d) →
  op_data o = Some d → Server.storable o →
  Server.storable (set_data (Some (f d)) o).
Proof.
  intros Hf Hd [Hdur|(p & Hp & Hc)]; [by left|].
  right. exists (f d). split; [done|]. rewrite Hf. congruence.
Qed.

Section LoopsKeep.
Variable P : Operation → Prop.
Hypothesis P_undone : ∀ b x, P x → P (set_undone b x).

Lemma down_loop_Forall p b (ops : list Operation) (n : nat) :
  Forall P ops → Forall P (DrawingState.down_loop p b ops n).2.
Proof.
  intros Hall. induction n as [|i IH]; simpl; [done|].
  destruct (ops !! i) as [x|] eqn:Hx; [|done].
  destruct (p x); [|done]. simpl.
  apply Forall_insert; [done|]. apply P_undone.
  by apply (Forall_lookup_1 P ops i x).
Qed.

Lemma up_loop_Forall p b (ops : list Operation) (fuel i : nat) :
  Forall P ops → Forall P (DrawingState.up_loop p b ops i fuel).2.
Proof.
  intros Hall. revert i. induction fuel as [|fuel IH]; intros i; simpl; [done|].
  destruct (ops !! i) as [x|] eqn:Hx; [|done].
  destruct (p x); [|by apply IH]. simpl.
  apply Forall_insert; [done|]. apply P_undone.
  by apply (Forall_lookup_1 P ops i x).
Qed.

End LoopsKeep.

Lemma update_existing_length f operationId (ops : list Operation) :
  length (Server.update_existing f operationId ops) = length ops.
Proof.
  unfold Server.update_existing.
  destruct (list_find _ ops) as [[i x]|]; [|done].
  destruct (op_data x); [|done]. by rewrite length_insert.
Qed.

Lemma update_existing_ids f operationId (ops : list Operation) :
  map op_id (Server.update_existing f operationId ops) = map op_id ops.
Proof.
  unfold Server.update_existing.
  destruct (list_find _ ops) as [[i x]|] eqn:Hfind; [|done].
  destruct (op_data x) as [d|]; [|done].
  apply list_find_Some in Hfind as (Hx & _ & _).
  change (map op_id) with (fmap (M := list) op_id).
  rewrite list_fmap_insert. simpl. apply list_insert_id.
  by rewrite list_lookup_fmap, Hx.
Qed.

Lemma update_existing_storable f operationId (ops : list Operation) :
  (∀ d, p_isComplete (f d) = p_isComplete d) →
  Forall Server.storable ops →
  Forall Server.storable (Server.update_existing f operationId ops).
Proof.
  intros Hf Hall. unfold Server.update_existing.
  destruct (list_find _ ops) as [[i x]|] eqn:Hfind; [|done].
  destruct (op_data x) as [d|] eqn:Hd; [|done].
  apply list_find_Some in Hfind as (Hx & _ & _).
  apply Forall_insert; [done|]. apply storable_set_data; [done|done|].
  by apply (Forall_lookup_1 _ ops i x).
Qed.

Lemma mark_undone_storable userId (ops : list Operation) :
  Forall Server.storable ops → Forall Server.storable (Server.mark_undone userId ops).
Proof.
  intros Hall. unfold Server.mark_undone.
  change (map ?f ops) with (f <$> ops). apply Forall_fmap.
  eapply Forall_impl; [exact Hall|]. intros x Hx. simpl.
  by destruct (decide (op_userId x = userId)).
Qed.

(** Every method of the log keeps [log_ok]; [addOperation] needs an entry
    that passed the commit test. *)
Lemma call_log_ok (c : DrawingState.Call) (ds : DrawingState.t) :
  (∀ o, c = DrawingState.CAdd o → Server.storable o) →
  Server.log_ok ds → Server.log_ok (DrawingState.call c ds).
Proof.
  intros Hadd [Hcur Hall]. split; [by apply call_cursor|].
  destruct c; simpl.
  - rewrite Hcur.
    replace (Z.of_nat (length (DrawingState.operations ds)) - 1 + 1)
      with (Z.of_nat (length (DrawingState.operations ds))) by lia.
    rewrite slice0_all. apply Forall_app. split; [done|].
    apply Forall_singleton, storable_set_undone. by apply Hadd.
  - by apply down_loop_Forall.
  - by apply up_loop_Forall.
  - by apply down_loop_Forall.
  - by apply up_loop_Forall.
  - done.
Qed.

Lemma set_operations_log_ok (ops : list Operation) (ds : DrawingState.t) :
  length ops = length (DrawingState.operations ds) →
  Forall Server.storable ops →
  Server.log_ok ds → Server.log_ok (DrawingState.set_operations ops ds).
Proof. intros Hlen Hall [Hcur _]. split; simpl; [by rewrite Hlen|done]. Qed.

Lemma getRoom_rooms_ok (now : Z) (roomId : string) (rm : RoomManager.t) :
  Server.rooms_ok rm →
  Server.rooms_ok (RoomManager.getRoom now roomId rm).2
  ∧ Server.log_ok (RoomManager.r_drawingState (RoomManager.getRoom now roomId rm).1)
  ∧ RoomManager.rooms (RoomManager.getRoom now roomId rm).2 !! roomId
    = Some (RoomManager.getRoom now roomId rm).1.
Proof.
  intros Hok. unfold RoomManager.getRoom.
  destruct (RoomManager.rooms rm !! roomId) as [room|] eqn:Hroom; simpl.
  - split; [done|]. split; [by apply (Hok roomId)|done].
  - split; [|split].
    + intros r room'. simpl. rewrite lookup_insert.
      case_decide; [|by apply Hok]. intros [= <-]. by split.
    + by split.
    + by rewrite lookup_insert_eq.
Qed.

Lemma addUser_rooms_ok (now : Z) (rnd : nat) (roomId userId userName socketId : string)
    (rm : RoomManager.t) :
  Server.rooms_ok rm →
  Server.rooms_ok (RoomManager.addUser now rnd roomId userId userName socketId rm).2.
Proof.
  intros Hok. unfold RoomManager.addUser.
  destruct (getRoom_rooms_ok now roomId rm Hok) as (Hok1 & Hlog & _).
  destruct (RoomManager.getRoom now roomId rm) as [room rm1]. simpl in *.
  intros r room'. simpl. rewrite lookup_insert.
  case_decide; [|by apply Hok1]. by intros [= <-].
Qed.

Lemma removeUser_rooms_ok (roomId userId : string) (rm : RoomManager.t) :
  Server.rooms_ok rm → Server.rooms_ok (RoomManager.removeUser roomId userId rm).2.
Proof.
  intros Hok. unfold RoomManager.removeUser.
  destruct (RoomManager.rooms rm !! roomId) as [room|] eqn:Hroom; [|done].
  match goal with
  | |- context [let '(_, _) := ?e in _] => destruct e as [adminId1 heap1]
  end. simpl.
  intros r room'. simpl. case_bool_decide.
  - rewrite lookup_delete. case_decide; [done|]. by apply Hok.
  - rewrite lookup_insert. case_decide; [|by apply Hok].
    intros [= <-]. simpl. by apply (Hok roomId).
Qed.

Lemma put_drawingState_rooms_ok (roomId : string) (ds : DrawingState.t)
    (rm : RoomManager.t) :
  Server.log_ok ds → Server.rooms_ok rm →
  Server.rooms_ok (RoomManager.put_drawingState roomId ds rm).
Proof.
  intros Hds Hok r room'. unfold RoomManager.put_drawingState. simpl.
  rewrite lookup_alter. case_decide as Heq; [subst r|by apply Hok].
  destruct (RoomManager.rooms rm !! roomId) as [room|]; [|done].
  by intros [= <-].
Qed.

Lemma getDrawingState_log_ok (roomId : string) (rm : RoomManager.t)
    (ds : DrawingState.t) :
  Server.rooms_ok rm → RoomManager.getDrawingState roomId rm = Some ds →
  Server.log_ok ds.
Proof.
  intros Hok. unfold RoomManager.getDrawingState.
  destruct (RoomManager.rooms rm !! roomId) as [room|] eqn:Hroom; [|done].
  intros [= <-]. by apply (Hok roomId).
Qed.

Lemma getDrawingState_put (roomId : string) (ds ds' : DrawingState.t)
    (rm : RoomManager.t) :
  RoomManager.getDrawingState roomId rm = Some ds →
  RoomManager.getDrawingState roomId (RoomManager.put_drawingState roomId ds' rm)
  = Some ds'.
Proof.
  unfold RoomManager.getDrawingState, RoomManager.put_drawingState. simpl.
  rewrite lookup_alter_eq.
  by destruct (RoomManager.rooms rm !! roomId).
Qed.

Lemma positional_step_log_ok type fields data (ds : DrawingState.t) :
  (∀ p d, p_isComplete (fields p d) = p_isComplete d) →
  Server.log_ok ds →
  ∃ ds', Server.outcome_state (Server.positional_step type fields data (Some ds)) = Some ds'
    ∧ Server.log_ok ds'
    ∧ map op_id (DrawingState.operations ds') = map op_id (DrawingState.operations ds)
    ∧ (Server.d_type data ≠ type → ds' = ds).
Proof.
  intros Hf Hok. unfold Server.positional_step, Server.positional_test.
  case_bool_decide as Hty.
  - destruct (Server.d_data data) as [p|]; simpl.
    + destruct (Server.truthy_str (p_operationId p)) as [i|]; simpl.
      * eexists. split; [done|]. split; [|split].
        -- apply set_operations_log_ok; [apply update_existing_length| |done].
           apply update_existing_storable; [apply Hf|]. by destruct Hok.
        -- simpl. apply update_existing_ids.
        -- done.
      * by exists ds.
    + by exists ds.
  - by exists ds.
Qed.

Lemma commit_test_true (data : Server.DrawingEvent) :
  Server.commit_test data = Some true
  ↔ Server.durable (Server.d_type data) = true
    ∨ ∃ p, Server.d_data data = Some p ∧ p_isComplete p = true.
Proof.
  unfold Server.commit_test.
  destruct (Server.durable (Server.d_type data)).
  - split; [by left|done].
  - destruct (Server.d_data data) as [p|]; simpl.
    + split.
      * intros [= H]. right. by exists p.
      * intros [H|(q & [= <-] & H)]; [done|by rewrite H].
    + split; [done|]. by intros [H|(q & H & _)].
Qed.

Lemma durable_kinds (type : string) :
  Server.durable type = true
  ↔ type = "draw" ∨ type = "shape" ∨ type = "text" ∨ type = "image".
Proof.
  unfold Server.durable. rewrite !orb_true_iff, !bool_decide_eq_true. tauto.
Qed.

(** What the body of ['drawing-event'] does to the log of a room that
    exists: one entry more if the commit test holds, none otherwise; move
    and resize rewrite fields of an entry and nothing else. *)
Lemma drawing_event_body_spec (operation : Operation)
    (data : Server.DrawingEvent) (ds : DrawingState.t) :
  op_type operation = Server.d_type data →
  op_data operation = Server.d_data data →
  Server.log_ok ds →
  let new := if default false (Server.commit_test data)
             then [set_undone false operation] else [] in
  ∃ ds',
    Server.outcome_state (Server.drawing_event_body operation data (Some ds))
    = Some ds'
    ∧ Server.log_ok ds'
    ∧ map op_id (DrawingState.operations ds')
      = map op_id (DrawingState.operations ds ++ new)
    ∧ (Server.d_type data ≠ "move" → Server.d_type data ≠ "resize" →
       DrawingState.operations ds' = DrawingState.operations ds ++ new).
Proof.
  intros Hty Hdata Hok new.
  assert (Hstep1 : ∃ ds1,
    Server.outcome_state (Server.commit_step operation data (Some ds)) = Some ds1
    ∧ Server.log_ok ds1
    ∧ DrawingState.operations ds1 = DrawingState.operations ds ++ new
    ∧ (∀ s, Server.commit_step operation data (Some ds) = Server.Threw s →
            Server.commit_test data = None)).
  { unfold Server.commit_step. subst new.
    destruct (Server.commit_test data) as [[|]|] eqn:Hc; simpl.
    - exists (DrawingState.call (DrawingState.CAdd operation) ds).
      split; [done|]. split; [|split; [|done]].
      + apply call_log_ok; [|done]. intros o [= <-].
        apply commit_test_true in Hc. unfold Server.storable.
        by rewrite Hty, Hdata.
      + simpl. destruct Hok as [Hcur _]. rewrite Hcur.
        replace (Z.of_nat (length (DrawingState.operations ds)) - 1 + 1)
          with (Z.of_nat (length (DrawingState.operations ds))) by lia.
        by rewrite slice0_all.
    - exists ds. by rewrite app_nil_r.
    - exists ds. by rewrite app_nil_r. }
  destruct Hstep1 as (ds1 & Hs1 & Hok1 & Hops1 & _).
  unfold Server.drawing_event_body.
  destruct (Server.commit_step operation data (Some ds)) as [o1|o1];
    simpl in Hs1; subst o1; simpl.
  2: { exists ds1. rewrite Hops1. done. }
  destruct (positional_step_log_ok "move" Server.move_fields data ds1
              ltac:(done) Hok1) as (ds2 & Hs2 & Hok2 & Hids2 & Heq2).
  destruct (Server.positional_step "move" Server.move_fields data (Some ds1))
    as [o2|o2]; simpl in Hs2; subst o2; simpl.
  2: { exists ds2. rewrite Hids2, Hops1. split; [done|]. split; [done|].
       split; [done|]. intros Hm _. by rewrite (Heq2 Hm). }
  destruct (positional_step_log_ok "resize" Server.resize_fields data ds2
              ltac:(done) Hok2) as (ds3 & Hs3 & Hok3 & Hids3 & Heq3).
  exists ds3. split; [done|]. split; [done|]. split.
  - by rewrite Hids3, Hids2, Hops1.
  - intros Hm Hr. by rewrite (Heq3 Hr), (Heq2 Hm).
Qed.

Lemma drawing_event_body_null (operation : Operation) (data : Server.DrawingEvent) :
  Server.outcome_state (Server.drawing_event_body operation data None) = None.
Proof.
  unfold Server.drawing_event_body, Server.commit_step, Server.positional_step.
  destruct (Server.commit_test data) as [[|]|]; simpl; try done.
  destruct (Server.positional_test "move" data) as [[[i p]|]|]; simpl; try done.
  by destruct (Server.positional_test "resize" data) as [[[j q]|]|].
Qed.

Lemma on_drawing_event_state (uuid : string) (now : Z) (data : Server.DrawingEvent)
    (sid : string) (c : Server.Conn) (rm : RoomManager.t)
    (roomId : string) (user : RoomManager.User) :
  Server.joined c rm = Some (roomId, user) →
  (Server.on_drawing_event uuid now data sid c rm).1.2
  = Server.store roomId
      (Server.outcome_state
         (Server.drawing_event_body (Server.operation_of uuid now user data) data
            (RoomManager.getDrawingState roomId rm))) rm.
Proof.
  intros Hj. unfold Server.on_drawing_event. rewrite Hj.
  by destruct (Server.drawing_event_body _ _ _).
Qed.

Lemma store_rooms_ok (roomId : string) (ods : option DrawingState.t)
    (rm : RoomManager.t) :
  (∀ ds, ods = Some ds → Server.log_ok ds) →
  Server.rooms_ok rm → Server.rooms_ok (Server.store roomId ods rm).
Proof.
  intros Hds Hok. destruct ods as [ds|]; simpl; [|done].
  apply put_drawingState_rooms_ok; [by apply Hds|done].
Qed.

Lemma on_drawing_event_rooms_ok (uuid : string) (now : Z)
    (data : Server.DrawingEvent) (sid : string) (c : Server.Conn)
    (rm : RoomManager.t) :
  Server.rooms_ok rm →
  Server.rooms_ok (Server.on_drawing_event uuid now data sid c rm).1.2.
Proof.
  intros Hok.
  destruct (Server.joined c rm) as [[roomId user]|] eqn:Hj.
  - rewrite (on_drawing_event_state uuid now data sid c rm roomId user Hj).
    apply store_rooms_ok; [|done]. intros ds' Hds'.
    destruct (RoomManager.getDrawingState roomId rm) as [ds|] eqn:Hds.
    + destruct (drawing_event_body_spec (Server.operation_of uuid now user data)
                  data ds eq_refl eq_refl
                  (getDrawingState_log_ok roomId rm ds Hok Hds))
        as (ds1 & Hs1 & Hok1 & _).
      congruence.
    + by rewrite drawing_event_body_null in Hds'.
  - unfold Server.on_drawing_event. by rewrite Hj.
Qed.

Lemma history_request_rooms_ok method update context (roomId : string)
    (c : Server.Conn) (rm : RoomManager.t) :
  (∀ ds, Server.log_ok ds → Server.log_ok (method ds).2) →
  Server.rooms_ok rm →
  Server.rooms_ok (Server.history_request method update context roomId c rm).1.2.
Proof.
  intros Hm Hok. unfold Server.history_request.
  destruct (RoomManager.getDrawingState roomId rm) as [ds|] eqn:Hds; [|done].
  pose proof (Hm ds (getDrawingState_log_ok roomId rm ds Hok Hds)) as Hds1.
  destruct (method ds) as [r ds1]. simpl in *.
  by apply put_drawingState_rooms_ok.
Qed.

Lemma admin_only_rooms_ok message (sid : string) (c : Server.Conn)
    (rm : RoomManager.t) body :
  (∀ roomId user, Server.rooms_ok (body roomId user).1.2) →
  Server.rooms_ok rm →
  Server.rooms_ok (Server.admin_only message sid c rm body).1.2.
Proof.
  intros Hbody Hok. unfold Server.admin_only.
  destruct (Server.joined c rm) as [[roomId user]|]; [|done].
  destruct (RoomManager.u_isAdmin user); [apply Hbody|done].
Qed.

Lemma on_disconnect_rooms_ok (now : Z) (sid : string) (c : Server.Conn)
    (rm : RoomManager.t) :
  Server.rooms_ok rm → Server.rooms_ok (Server.on_disconnect now sid c rm).1.2.
Proof.
  intros Hok. unfold Server.on_disconnect.
  destruct (Server.joined c rm) as [[roomId user]|]; [|done].
  pose proof (removeUser_rooms_ok roomId (RoomManager.u_id user) rm Hok) as H1.
  destruct (RoomManager.removeUser roomId (RoomManager.u_id user) rm) as [o rm1].
  simpl in H1.
  destruct (getRoom_rooms_ok now roomId rm1 H1) as (H2 & _).
  by destruct (RoomManager.getRoom now roomId rm1) as [room rm2].
Qed.

(** Every handler keeps every log well formed. *)
Lemma handle_rooms_ok (env : Server.Env) (sockets : gmap string Server.Conn)
    (m : Server.Msg) (sid : string) (c : Server.Conn) (rm : RoomManager.t) :
  Server.rooms_ok rm → Server.rooms_ok (Server.handle env sockets m sid c rm).1.2.
Proof.
  intros Hok. destruct m; simpl; try done.
  - (* join-room *)
    unfold Server.on_join_room.
    pose proof (addUser_rooms_ok (Server.now env) (Server.rnd env) roomId
                  (Server.uuid env) userName sid rm Hok) as H1.
    destruct (RoomManager.addUser _ _ _ _ _ _ _) as [l rm1]. simpl in H1.
    by destruct (RoomManager.heap rm1 !! l), (RoomManager.getDrawingState roomId rm1).
  - by apply on_drawing_event_rooms_ok.
  - unfold Server.on_cursor_move.
    by destruct (Server.joined c rm) as [[roomId user]|].
  - unfold Server.on_undo_request.
    destruct (Server.joined c rm) as [[roomId user]|]; [|done].
    apply history_request_rooms_ok; [|done]. intros ds.
    apply (call_log_ok (DrawingState.CUndo (RoomManager.u_id user))). by intros o.
  - unfold Server.on_redo_request.
    destruct (Server.joined c rm) as [[roomId user]|]; [|done].
    apply history_request_rooms_ok; [|done]. intros ds.
    apply (call_log_ok (DrawingState.CRedo (RoomManager.u_id user))). by intros o.
  - apply admin_only_rooms_ok; [|done]. intros roomId user.
    apply history_request_rooms_ok; [|done]. intros ds.
    apply (call_log_ok DrawingState.CGlobalUndo). by intros o.
  - apply admin_only_rooms_ok; [|done]. intros roomId user.
    apply history_request_rooms_ok; [|done]. intros ds.
    apply (call_log_ok DrawingState.CGlobalRedo). by intros o.
  - (* clear-canvas *)
    unfold Server.on_clear_canvas.
    destruct (Server.joined c rm) as [[roomId user]|]; [|done].
    destruct (RoomManager.getDrawingState roomId rm) as [ds|] eqn:Hds; [|done].
    simpl. pose proof (getDrawingState_log_ok roomId rm ds Hok Hds) as Hds1.
    apply put_drawingState_rooms_ok; [|done].
    apply set_operations_log_ok; [|by apply mark_undone_storable, Hds1|done].
    unfold Server.mark_undone. by rewrite length_map.
  - (* admin-clear-all *)
    apply admin_only_rooms_ok; [|done]. intros roomId user.
    destruct (RoomManager.getDrawingState roomId rm) as [ds|] eqn:Hds; [|done].
    simpl. apply put_drawingState_rooms_ok; [|done].
    apply (call_log_ok DrawingState.CClear); [by intros o|].
    by apply (getDrawingState_log_ok roomId rm ds).
  - (* admin-kick-user *)
    apply admin_only_rooms_ok; [|done]. intros roomId user.
    destruct (getRoom_rooms_ok (Server.now env) roomId rm Hok) as (H1 & _).
    destruct (RoomManager.getRoom (Server.now env) roomId rm) as [room rm1].
    simpl in H1.
    destruct (JsMap.get userId (RoomManager.r_users room)) as [l|]; [|done].
    destruct (RoomManager.heap rm1 !! l) as [targetUser|]; [|done]. cbv zeta.
    destruct (sockets !! RoomManager.u_socketId targetUser) as [targetConn|];
      [|done].
    pose proof (on_disconnect_rooms_ok (Server.now env)
                  (RoomManager.u_socketId targetUser) targetConn rm1 H1) as H2.
    by destruct (Server.on_disconnect _ _ _ _) as [[c2 rm2] out].
  - (* set-theme *)
    by apply admin_only_rooms_ok.
  - (* admin-transfer *)
    unfold Server.on_admin_transfer. by apply admin_only_rooms_ok.
  - (* disconnect *)
    exact (on_disconnect_rooms_ok (Server.now env) sid c rm Hok).
Qed.

Lemma step_rooms_ok (sid : string) (env : Server.Env) (m : Server.Msg)
    (st : Server.State) :
  Server.rooms_ok (Server.manager st) →
  Server.rooms_ok (Server.manager (Server.step sid env m st).1).
Proof.
  intros Hok. unfold Server.step.
  destruct (Server.conns st !! sid) as [c|] eqn:Hc.
  - pose proof (handle_rooms_ok env (Server.conns st) m sid c (Server.manager st) Hok) as H.
    destruct (Server.handle env (Server.conns st) m sid c (Server.manager st)) as [[c1 rm1] out].
    by destruct m.
  - by destruct m.
Qed.

Lemma reachable_rooms_ok (st : Server.State) :
  Server.reachable st → Server.rooms_ok (Server.manager st).
Proof.
  induction 1 as [|sid env m st _ IH]; [|by apply step_rooms_ok].
  intros roomId room. simpl. by rewrite lookup_empty.
Qed.

(** A list of effects written out in full holds no emit of a history. *)
Ltac no_emit :=
  let H := fresh in
  intros H; simpl in H;
  repeat (apply elem_of_cons in H as [H|H]; [discriminate H|]);
  by apply elem_of_nil in H.

Lemma admin_only_no_history message (sid : string) (c : Server.Conn)
    (rm : RoomManager.t) body to h :
  (∀ roomId user,
     Server.Emit to (Server.EvOperationHistory h) ∉ (body roomId user).2) →
  Server.Emit to (Server.EvOperationHistory h)
    ∉ (Server.admin_only message sid c rm body).2.
Proof.
  intros Hbody. unfold Server.admin_only.
  destruct (Server.joined c rm) as [[roomId user]|]; simpl; [|no_emit].
  destruct (RoomManager.u_isAdmin user); [apply Hbody|no_emit].
Qed.

Lemma history_request_no_history method update context (roomId : string)
    (c : Server.Conn) (rm : RoomManager.t) to h :
  (∀ i, update i ≠ Server.EvOperationHistory h) →
  Server.Emit to (Server.EvOperationHistory h)
    ∉ (Server.history_request method update context roomId c rm).2.
Proof.
  intros Hup. unfold Server.history_request.
  destruct (RoomManager.getDrawingState roomId rm) as [ds|]; simpl; [|no_emit].
  destruct (method ds) as [[o|] ds1]; simpl; [|no_emit].
  intros Hin. apply list_elem_of_singleton in Hin. injection Hin as _ Heq.
  by apply (Hup (op_id o)).
Qed.

Lemma on_disconnect_no_history (now : Z) (sid : string) (c : Server.Conn)
    (rm : RoomManager.t) to h :
  Server.Emit to (Server.EvOperationHistory h)
    ∉ (Server.on_disconnect now sid c rm).2.
Proof.
  unfold Server.on_disconnect.
  destruct (Server.joined c rm) as [[roomId user]|]; simpl; [|no_emit].
  destruct (RoomManager.removeUser roomId (RoomManager.u_id user) rm) as [o rm1].
  destruct (RoomManager.getRoom now roomId rm1) as [room rm2].
  simpl. intros Hin.
  apply elem_of_cons in Hin as [Hin|Hin]; [discriminate Hin|].
  apply elem_of_app in Hin as [Hin|Hin].
  + destruct (RoomManager.u_isAdmin user); [|by apply elem_of_nil in Hin].
    destruct (Server.truthy_str (RoomManager.r_adminId room));
      [|by apply elem_of_nil in Hin].
    destruct (_ ≫= _); [|by apply elem_of_nil in Hin].
    apply list_elem_of_singleton in Hin. discriminate Hin.
  + apply list_elem_of_singleton in Hin. discriminate Hin.
Qed.

(** The only history a handler sends is the log of a room of the registry
    it leaves behind it. *)
Lemma handle_history_ok (env : Server.Env) (sockets : gmap string Server.Conn)
    (m : Server.Msg) (sid : string) (c : Server.Conn) (rm : RoomManager.t) to h :
  Server.rooms_ok rm →
  Server.Emit to (Server.EvOperationHistory h) ∈ (Server.handle env sockets m sid c rm).2 →
  Forall Server.storable (DrawingState.h_operations h).
Proof.
  intros Hok. destruct m; simpl.
  - no_emit.
  - (* join-room *)
    unfold Server.on_join_room.
    pose proof (addUser_rooms_ok (Server.now env) (Server.rnd env) roomId
                  (Server.uuid env) userName sid rm Hok) as H1.
    destruct (RoomManager.addUser _ _ _ _ _ _ _) as [l rm1]. simpl in H1.
    destruct (RoomManager.heap rm1 !! l) as [user|];
      [destruct (RoomManager.getDrawingState roomId rm1) as [ds|] eqn:Hds|];
      simpl; intros Hin;
      repeat (apply elem_of_cons in Hin as [Hin|Hin]; [try discriminate Hin|]);
      try (by apply elem_of_nil in Hin).
    injection Hin as _ ->. simpl.
    by destruct (getDrawingState_log_ok roomId rm1 ds H1 Hds).
  - unfold Server.on_drawing_event.
    destruct (Server.joined c rm) as [[roomId user]|]; simpl; [|no_emit].
    destruct (Server.drawing_event_body _ _ _); simpl; intros Hin;
      apply list_elem_of_singleton in Hin; discriminate Hin.
  - unfold Server.on_cursor_move.
    destruct (Server.joined c rm) as [[roomId user]|]; simpl; [|no_emit].
    intros Hin. apply list_elem_of_singleton in Hin. discriminate Hin.
  - unfold Server.on_undo_request.
    destruct (Server.joined c rm) as [[roomId user]|]; simpl; [|no_emit].
    intros Hin. by apply history_request_no_history in Hin.
  - unfold Server.on_redo_request.
    destruct (Server.joined c rm) as [[roomId user]|]; simpl; [|no_emit].
    intros Hin. by apply history_request_no_history in Hin.
  - intros Hin. apply admin_only_no_history in Hin; [done|].
    intros roomId user. by apply history_request_no_history.
  - intros Hin. apply admin_only_no_history in Hin; [done|].
    intros roomId user. by apply history_request_no_history.
  - unfold Server.on_clear_canvas.
    destruct (Server.joined c rm) as [[roomId user]|]; simpl; [|no_emit].
    destruct (RoomManager.getDrawingState roomId rm); simpl; intros Hin;
      apply list_elem_of_singleton in Hin; discriminate Hin.
  - intros Hin. apply admin_only_no_history in Hin; [done|].
    intros roomId user.
    destruct (RoomManager.getDrawingState roomId rm); simpl; intros Hin';
      apply list_elem_of_singleton in Hin'; discriminate Hin'.
  - intros Hin. apply admin_only_no_history in Hin; [done|].
    intros roomId user.
    destruct (RoomManager.getRoom (Server.now env) roomId rm) as [room rm1].
    destruct (JsMap.get userId (RoomManager.r_users room)) as [l|]; [|no_emit].
    destruct (RoomManager.heap rm1 !! l) as [targetUser|]; simpl; [|no_emit].
    cbv zeta.
    destruct (sockets !! RoomManager.u_socketId targetUser) as [targetConn|];
      [|no_emit].
    pose proof (on_disconnect_no_history (Server.now env)
                  (RoomManager.u_socketId targetUser) targetConn rm1 to h) as Hd.
    destruct (Server.on_disconnect _ _ _ _) as [[c2 rm2] out]. simpl in *.
    intros Hin'.
    repeat (apply elem_of_cons in Hin' as [Hin'|Hin']; [discriminate Hin'|]).
    done.
  - intros Hin. apply admin_only_no_history in Hin; [done|].
    intros roomId user. simpl. intros Hin'.
    apply list_elem_of_singleton in Hin'. discriminate Hin'.
  - intros Hin. apply admin_only_no_history in Hin; [done|].
    intros roomId user. simpl. intros Hin'.
    apply list_elem_of_singleton in Hin'. discriminate Hin'.
  - (* disconnect *)
    intros Hin. by apply on_disconnect_no_history in Hin.
Qed.

Lemma step_history_ok (sid : string) (env : Server.Env) (m : Server.Msg)
    (st : Server.State) to h :
  Server.rooms_ok (Server.manager st) →
  Server.Emit to (Server.EvOperationHistory h) ∈ (Server.step sid env m st).2 →
  Forall Server.storable (DrawingState.h_operations h).
Proof.
  intros Hok. unfold Server.step.
  destruct (Server.conns st !! sid) as [c|]; [|destruct m; no_emit].
  pose proof (handle_history_ok env (Server.conns st) m sid c (Server.manager st) to h Hok) as H.
  destruct (Server.handle env (Server.conns st) m sid c (Server.manager st)) as [[c1 rm1] out].
  destruct m; solve [exact H | no_emit].
Qed.

Lemma run_ok (evs : list Server.Inbound) (st : Server.State) :
  Server.rooms_ok (Server.manager st) →
  Server.rooms_ok (Server.manager (Server.run evs st).1)
  ∧ ∀ to h, Server.Emit to (Server.EvOperationHistory h) ∈ (Server.run evs st).2 →
            Forall Server.storable (DrawingState.h_operations h).
Proof.
  revert st. induction evs as [|[[sid env] m] evs IH]; intros st Hok; simpl.
  - split; [done|]. intros to h. no_emit.
  - pose proof (step_rooms_ok sid env m st Hok) as Hok1.
    pose proof (step_history_ok sid env m st) as Hh1.
    destruct (Server.step sid env m st) as [st1 out1]. simpl in Hok1, Hh1.
    destruct (IH st1 Hok1) as [Hok2 Hh2].
    destruct (Server.run evs st1) as [st2 out2]. simpl in *.
    split; [done|]. intros to h Hin.
    apply elem_of_app in Hin as [Hin|Hin]; [by apply (Hh1 to h)|by apply (Hh2 to h)].
Qed.

Lemma run_reachable (evs : list Server.Inbound) (st : Server.State) :
  Server.reachable st → Server.reachable (Server.run evs st).1.
Proof.
  revert st. induction evs as [|[[sid env] m] evs IH]; intros st Hr; simpl; [done|].
  pose proof (Server.reach_step sid env m st Hr) as H1.
  destruct (Server.step sid env m st) as [st1 out1]. simpl in H1.
  specialize (IH st1 H1).
  by destruct (Server.run evs st1) as [st2 out2].
Qed.

Lemma step_drawing_event_manager (sid : string) (env : Server.Env)
    (data : Server.DrawingEvent) (st : Server.State) (c : Server.Conn) :
  Server.conns st !! sid = Some c →
  Server.manager (Server.step sid env (Server.DrawingEventMsg data) st).1
  = (Server.on_drawing_event (Server.uuid env) (Server.now env) data sid c
       (Server.manager st)).1.2.
Proof.
  intros Hc. unfold Server.step. rewrite Hc. simpl.
  by destruct (Server.on_drawing_event _ _ _ _ _ _) as [[c1 rm1] out].
Qed.

(** C4: a ['drawing-event'] of a joined connection appends one operation to
    the room's log if its type is draw, shape, text or image or its payload
    has [isComplete] set, and appends nothing otherwise; so in every run of
    the server, a history sent to a joining client holds no draw-incremental
    entry whose payload is not marked complete. *)
Theorem commit_rule (st : Server.State) (sid : string) (env : Server.Env)
    (data : Server.DrawingEvent) (c : Server.Conn) (roomId : string)
    (user : RoomManager.User) (ds : DrawingState.t) :
  Server.reachable st →
  Server.conns st !! sid = Some c →
  Server.joined c (Server.manager st) = Some (roomId, user) →
  RoomManager.getDrawingState roomId (Server.manager st) = Some ds →
  let type := Server.d_type data in
  let committed :=
    (type = "draw" ∨ type = "shape" ∨ type = "text" ∨ type = "image")
    ∨ ∃ p, Server.d_data data = Some p ∧ p_isComplete p = true in
  let operation := Server.operation_of (Server.uuid env) (Server.now env) user data in
  let ops := DrawingState.operations ds in
  (∃ ds',
     RoomManager.getDrawingState roomId
       (Server.manager (Server.step sid env (Server.DrawingEventMsg data) st).1)
     = Some ds'
     ∧ (committed ↔ length (DrawingState.operations ds') = S (length ops))
     ∧ (¬ committed ↔ length (DrawingState.operations ds') = length ops)
     ∧ (committed →
        map op_id (DrawingState.operations ds') = map op_id ops ++ [Server.uuid env])
     ∧ (¬ committed → map op_id (DrawingState.operations ds') = map op_id ops)
     ∧ (type ≠ "move" → type ≠ "resize" →
        (committed → DrawingState.operations ds' = ops ++ [operation])
        ∧ (¬ committed → DrawingState.operations ds' = ops)))
  ∧ (∀ evs to h o,
       Server.Emit to (Server.EvOperationHistory h) ∈ (Server.run evs Server.init).2 →
       o ∈ DrawingState.h_operations h →
       op_type o = "draw-incremental" →
       ∃ p, op_data o = Some p ∧ p_isComplete p = true).
Proof.
  intros Hreach Hc Hj Hds type committed operation ops. split.
  - pose proof (getDrawingState_log_ok roomId _ ds (reachable_rooms_ok st Hreach) Hds)
      as Hok.
    destruct (drawing_event_body_spec operation data ds eq_refl eq_refl Hok)
      as (ds' & Hs & _ & Hids & Hexact).
    exists ds'. split.
    { rewrite (step_drawing_event_manager sid env data st c Hc).
      rewrite (on_drawing_event_state _ _ data sid c _ roomId user Hj).
      rewrite Hds. fold operation. rewrite Hs. simpl.
      by apply (getDrawingState_put roomId ds). }
    assert (Hdec : committed ↔ Server.commit_test data = Some true).
    { rewrite commit_test_true, durable_kinds. done. }
    assert (Hlen : length (DrawingState.operations ds')
                   = length (ops ++ if default false (Server.commit_test data)
                                    then [set_undone false operation] else [])).
    { rewrite <- (length_map op_id), Hids. apply length_map. }
    destruct (Server.commit_test data) as [[|]|] eqn:Hct; simpl in *.
    + assert (Hyes : committed) by by apply Hdec.
      rewrite length_app in Hlen. simpl in Hlen.
      split; [split; [intros _; lia|done]|].
      split; [split; [done|intros Hl; lia]|].
      split; [intros _; by rewrite Hids, map_app|].
      split; [done|]. intros Hm Hr. split; [intros _; by apply Hexact|done].
    + assert (Hno : ¬ committed) by (rewrite Hdec; done).
      rewrite app_nil_r in Hlen, Hids.
      split; [split; [done|intros Hl; lia]|].
      split; [split; [done|done]|].
      split; [done|]. split; [done|]. intros Hm Hr.
      split; [done|]. intros _. rewrite (Hexact Hm Hr). apply app_nil_r.
    + assert (Hno : ¬ committed) by (rewrite Hdec; done).
      rewrite app_nil_r in Hlen, Hids.
      split; [split; [done|intros Hl; lia]|].
      split; [split; [done|done]|].
      split; [done|]. split; [done|]. intros Hm Hr.
      split; [done|]. intros _. rewrite (Hexact Hm Hr). apply app_nil_r.
  - intros evs to h o Hin Ho Hty.
    assert (Hinit : Server.rooms_ok (Server.manager Server.init)).
    { intros r room. simpl. by rewrite lookup_empty. }
    destruct (run_ok evs Server.init Hinit) as [_ Hh].
    pose proof (Hh to h Hin) as Hall.
    rewrite Forall_forall in Hall.
    destruct (Hall o Ho) as [Hdur|Hp]; [|done].
    rewrite Hty in Hdur. discriminate Hdur.
Qed.

Lemma commit_rule_witness :
  (Server.reachable (Server.run Sample.pair Server.init).1
   ∧ Server.conns (Server.run Sample.pair Server.init).1 !! "s1" = Some Sample.connX
   ∧ Server.joined Sample.connX (Server.manager (Server.run Sample.pair Server.init).1)
     = Some ("R", Sample.userX)
   ∧ RoomManager.getDrawingState "R"
       (Server.manager (Server.run Sample.pair Server.init).1)
     = Some (DrawingState.new "R"))
  ∧ ∃ ds',
      RoomManager.getDrawingState "R"
        (Server.manager
           (Server.step "s1" (Sample.env "a" 4)
              (Server.DrawingEventMsg (Sample.draw_data "draw" true))
              (Server.run Sample.pair Server.init).1).1)
      = Some ds'
      ∧ map op_id (DrawingState.operations ds') = ["a"].
Proof.
  assert (H1 : Server.reachable (Server.run Sample.pair Server.init).1)
    by (apply run_reachable; constructor).
  assert (H2 : Server.conns (Server.run Sample.pair Server.init).1 !! "s1"
               = Some Sample.connX) by (vm_compute; reflexivity).
  assert (H3 : Server.joined Sample.connX
                 (Server.manager (Server.run Sample.pair Server.init).1)
               = Some ("R", Sample.userX)) by (vm_compute; reflexivity).
  assert (H4 : RoomManager.getDrawingState "R"
                 (Server.manager (Server.run Sample.pair Server.init).1)
               = Some (DrawingState.new "R")) by (vm_compute; reflexivity).
  split; [by repeat split|].
  destruct (commit_rule _ "s1" (Sample.env "a" 4) (Sample.draw_data "draw" true)
              Sample.connX "R" Sample.userX (DrawingState.new "R") H1 H2 H3 H4)
    as [(ds' & Hds' & _ & _ & Hids & _) _].
  exists ds'. split; [exact Hds'|].
  apply Hids. left. by left.
Defined.

(** ** Clearing *)

Lemma up_loop_flip_first_from p b (pre l : list Operation) :
  (DrawingState.up_loop p b (pre ++ l) (length pre) (length l)).2
  = pre ++ DrawingState.flip_first p b l.
Proof.
  revert pre. induction l as [|x l IH]; intros pre; simpl; [done|].
  rewrite (list_lookup_middle pre l x (length pre) eq_refl).
  destruct (p x); simpl.
  - replace (length pre) with (length pre + 0)%nat at 1 by lia.
    by rewrite insert_app_r.
  - specialize (IH (pre ++ [x])).
    rewrite length_app, <- app_assoc in IH. simpl in IH.
    replace (length pre + 1)%nat with (S (length pre)) in IH by lia.
    rewrite IH. by rewrite <- app_assoc.
Qed.

Lemma up_loop_flip_first p b (ops : list Operation) :
  (DrawingState.up_loop p b ops 0 (length ops)).2 = DrawingState.flip_first p b ops.
Proof. apply (up_loop_flip_first_from p b [] ops). Qed.

Lemma iter_flip_first_skip p b (x : Operation) (l : list Operation) (n : nat) :
  p x = false →
  Nat.iter n (DrawingState.flip_first p b) (x :: l)
  = x :: Nat.iter n (DrawingState.flip_first p b) l.
Proof.
  intros Hx. induction n as [|n IH]; simpl; [done|].
  rewrite IH. simpl. by rewrite Hx.
Qed.

(** As many redos as the user has entries bring all of them back. *)
Lemma redo_all_after_mark (u : string) (ops : list Operation) :
  Nat.iter (length (filter (λ o, op_userId o = u) ops))
    (DrawingState.flip_first (DrawingState.redo_target u) false)
    (Server.mark_undone u ops)
  = map (λ y, if decide (op_userId y = u) then set_undone false y else y) ops.
Proof.
  induction ops as [|x l IH]; simpl; [done|].
  destruct (decide (op_userId x = u)) as [Hx|Hx].
  - rewrite filter_cons_True by done. simpl length.
    rewrite Nat.iter_succ_r. simpl.
    rewrite (redo_target_own u x true Hx).
    change (set_undone false (set_undone true x)) with (set_undone false x).
    rewrite iter_flip_first_skip by apply (redo_target_own u x false Hx).
    by rewrite IH.
  - rewrite filter_cons_False by done.
    rewrite iter_flip_first_skip.
    + by rewrite IH.
    + unfold DrawingState.redo_target. by rewrite bool_decide_eq_false_2.
Qed.

Lemma run_replicate_redo (u : string) (n : nat) (s : DrawingState.t) :
  DrawingState.operations
    (DrawingState.run (replicate n (DrawingState.CRedo u)) s)
  = Nat.iter n (DrawingState.flip_first (DrawingState.redo_target u) false)
      (DrawingState.operations s).
Proof.
  revert s. induction n as [|n IH]; intros s; [done|].
  rewrite Nat.iter_succ_r.
  change (DrawingState.run (replicate (S n) (DrawingState.CRedo u)) s)
    with (DrawingState.run (replicate n (DrawingState.CRedo u))
            (DrawingState.redo u s).2).
  rewrite IH. simpl. by rewrite up_loop_flip_first.
Qed.

Lemma mark_undone_lookup (u : string) (ops : list Operation) (j : nat) :
  Server.mark_undone u ops !! j
  = (λ y, if decide (op_userId y = u) then set_undone true y else y) <$> ops !! j.
Proof. unfold Server.mark_undone. apply list_lookup_fmap. Qed.

(** Every method keeps the ids of the log in place, except that
    [addOperation] puts one at the end and [clear] drops all. *)
Lemma loops_ids p b (ops : list Operation) (n i : nat) :
  map op_id (DrawingState.down_loop p b ops n).2 = map op_id ops
  ∧ map op_id (DrawingState.up_loop p b ops i n).2 = map op_id ops.
Proof.
  assert (Hins : ∀ k x, ops !! k = Some x →
            map op_id (<[k := set_undone b x]> ops) = map op_id ops).
  { intros k x Hx. change (map op_id) with (fmap (M := list) op_id).
    rewrite list_fmap_insert. apply list_insert_id.
    by rewrite list_lookup_fmap, Hx. }
  split.
  - induction n as [|k IH]; simpl; [done|].
    destruct (ops !! k) as [x|] eqn:Hx; [|done].
    destruct (p x); [by apply Hins|done].
  - revert i. induction n as [|k IH]; intros i; simpl; [done|].
    destruct (ops !! i) as [x|] eqn:Hx; [|done].
    destruct (p x); [by apply Hins|apply IH].
Qed.

Lemma call_ids (c : DrawingState.Call) (s : DrawingState.t) (i : string) :
  i ∈ map op_id (DrawingState.operations (DrawingState.call c s)) →
  i ∈ map op_id (DrawingState.operations s)
  ∨ ∃ a, c = DrawingState.CAdd a ∧ i = op_id a.
Proof.
  destruct c; simpl.
  - rewrite map_app. intros Hin. apply elem_of_app in Hin as [Hin|Hin].
    + left. unfold slice0 in Hin.
      change (map op_id ?l) with (op_id <$> l) in *.
      rewrite fmap_take in Hin. by apply subseteq_take in Hin.
    + right. exists operation. split; [done|].
      by apply list_elem_of_singleton in Hin.
  - rewrite (proj1 (loops_ids _ _ _ _ 0%nat)). by left.
  - rewrite (proj2 (loops_ids _ _ _ _ _)). by left.
  - rewrite (proj1 (loops_ids _ _ _ _ 0%nat)). by left.
  - rewrite (proj2 (loops_ids _ _ _ _ _)). by left.
  - intros Hin. by apply elem_of_nil in Hin.
Qed.

(** Whatever is in the log after a run was there before or was committed
    during the run. *)
Lemma run_ids (cs : list DrawingState.Call) (s : DrawingState.t) (i : string) :
  i ∈ map op_id (DrawingState.operations (DrawingState.run cs s)) →
  i ∈ map op_id (DrawingState.operations s)
  ∨ ∃ a, DrawingState.CAdd a ∈ cs ∧ i = op_id a.
Proof.
  revert s. induction cs as [|c cs IH]; intros s Hin; [by left|].
  change (DrawingState.run (c :: cs) s)
    with (DrawingState.run cs (DrawingState.call c s)) in Hin.
  destruct (IH _ Hin) as [H|(a & Ha & ->)].
  - destruct (call_ids c s i H) as [H'|(a & -> & ->)]; [by left|].
    right. exists a. split; [apply elem_of_cons; by left|done].
  - right. exists a. split; [apply elem_of_cons; by right|done].
Qed.

(** C5: ['clear-canvas'] sets [undone] on the entries of the sender and
    on no other entry; the log keeps its length, and every entry of another
    user stays where and what it was. The flagged entries stay in the log:
    [redo] of the same user returns one of them, and as many redos as the
    user has entries make all of them active again. ['admin-clear-all'] of an
    admin leaves the log empty: the four undo and redo methods return [null],
    and whatever a later run holds was committed in that run. *)
Theorem clear_mine_flags_own_entries_clear_all_empties (sid : string)
    (c : Server.Conn) (rm : RoomManager.t) (roomId : string)
    (user : RoomManager.User) (ds : DrawingState.t) :
  Server.joined c rm = Some (roomId, user) →
  RoomManager.getDrawingState roomId rm = Some ds →
  let u := RoomManager.u_id user in
  let ops := DrawingState.operations ds in
  (∃ ds',
     RoomManager.getDrawingState roomId (Server.on_clear_canvas sid c rm).1.2
     = Some ds'
     ∧ length (DrawingState.operations ds') = length ops
     ∧ (∀ j y, ops !! j = Some y → op_userId y = u →
               DrawingState.operations ds' !! j = Some (set_undone true y))
     ∧ (∀ j y, ops !! j = Some y → op_userId y ≠ u →
               DrawingState.operations ds' !! j = Some y)
     ∧ (∀ y, y ∈ ops → op_userId y = u →
             ∃ r s', DrawingState.redo u ds' = (Some r, s')
                     ∧ op_userId r = u ∧ op_undone r = false)
     ∧ DrawingState.operations
         (DrawingState.run
            (replicate (length (filter (λ o, op_userId o = u) ops))
               (DrawingState.CRedo u)) ds')
       = map (λ y, if decide (op_userId y = u) then set_undone false y else y) ops)
  ∧ (RoomManager.u_isAdmin user = true →
     ∃ ds',
       RoomManager.getDrawingState roomId (Server.on_admin_clear_all sid c rm).1.2
       = Some ds'
       ∧ DrawingState.operations ds' = []
       ∧ (∀ v, DrawingState.undo v ds' = (None, ds')
               ∧ DrawingState.redo v ds' = (None, ds'))
       ∧ DrawingState.globalUndo ds' = (None, ds')
       ∧ DrawingState.globalRedo ds' = (None, ds')
       ∧ (∀ cs i,
            i ∈ map op_id (DrawingState.operations (DrawingState.run cs ds')) →
            ∃ a, DrawingState.CAdd a ∈ cs ∧ i = op_id a)).
Proof.
  intros Hj Hds u ops. split.
  - exists (DrawingState.set_operations (Server.mark_undone u ops) ds).
    split.
    { unfold Server.on_clear_canvas. rewrite Hj, Hds. simpl.
      by apply (getDrawingState_put roomId ds). }
    simpl. split; [unfold Server.mark_undone; by rewrite length_map|].
    split; [|split; [|split]].
    + intros j y Hy Hu. rewrite mark_undone_lookup, Hy. simpl.
      by rewrite decide_True.
    + intros j y Hy Hu. rewrite mark_undone_lookup, Hy. simpl.
      by rewrite decide_False.
    + intros y Hy Hu.
      pose proof (redo_spec u (DrawingState.set_operations
                                 (Server.mark_undone u ops) ds)) as Hspec.
      destruct (DrawingState.redo u _) as [[r|] s'].
      * destruct Hspec as (i & x & _ & Hxu & _ & _ & -> & _).
        exists (set_undone false x), s'. by repeat split.
      * destruct Hspec as [_ Hnone]. exfalso.
        apply (Hnone (set_undone true y)); [|by split].
        simpl. apply list_elem_of_lookup in Hy as [j Hj'].
        apply list_elem_of_lookup. exists j.
        rewrite mark_undone_lookup, Hj'. simpl. by rewrite decide_True.
    + rewrite run_replicate_redo. simpl. apply redo_all_after_mark.
  - intros Hadmin. exists (DrawingState.clear ds). split.
    { unfold Server.on_admin_clear_all, Server.admin_only.
      rewrite Hj, Hadmin, Hds. simpl. by apply (getDrawingState_put roomId ds). }
    split; [done|]. split; [by intros v|]. split; [done|]. split; [done|].
    intros cs i Hin. destruct (run_ids cs _ i Hin) as [Hold|Hnew]; [|done].
    simpl in Hold. by apply elem_of_nil in Hold.
Qed.

Lemma clear_mine_flags_own_entries_clear_all_empties_witness :
  (Server.joined Sample.connX (Server.manager (Server.run Sample.drawn Server.init).1)
   = Some ("R", Sample.userX)
   ∧ RoomManager.getDrawingState "R"
       (Server.manager (Server.run Sample.drawn Server.init).1)
     = Some Sample.log2)
  ∧ ∃ ds',
      RoomManager.getDrawingState "R"
        (Server.on_clear_canvas "s1" Sample.connX
           (Server.manager (Server.run Sample.drawn Server.init).1)).1.2
      = Some ds'
      ∧ DrawingState.operations ds' !! 0%nat = Some (set_undone true Sample.strokeA)
      ∧ DrawingState.operations ds' !! 1%nat = Some Sample.shapeB.
Proof.
  assert (H3 : Server.joined Sample.connX
                 (Server.manager (Server.run Sample.drawn Server.init).1)
               = Some ("R", Sample.userX)) by (vm_compute; reflexivity).
  assert (H4 : RoomManager.getDrawingState "R"
                 (Server.manager (Server.run Sample.drawn Server.init).1)
               = Some Sample.log2) by (vm_compute; reflexivity).
  split; [by split|].
  destruct (clear_mine_flags_own_entries_clear_all_empties "s1" Sample.connX _
              "R" Sample.userX Sample.log2 H3 H4)
    as [(ds' & Hds' & _ & Hown & Hother & _) _].
  exists ds'. split; [exact Hds'|]. split.
  - by apply Hown.
  - by apply Hother.
Defined.

(** * Properties of the client reconciler *)






(** * Further properties of the operation log *)


(** X2: with no undone entry of the user in the log, [redo] takes back
    what [undo] just did: the state is the one before the two calls. *)
Theorem undo_then_redo_without_undone (u : string) (s : DrawingState.t) :
  (∀ y, y ∈ DrawingState.operations s → op_userId y = u → op_undone y = false) →
  (DrawingState.redo u (DrawingState.undo u s).2).2 = s.
Proof.
  intros Hnone. pose proof (undo_spec u s) as Hu.
  destruct (DrawingState.undo u s) as [[r|] s1]; cbn [snd].
  - destruct Hu as (i & x & Hx & Hxu & Hxd & _ & -> & ->).
    pose proof (redo_spec u (DrawingState.set_operations
                  (<[i := set_undone true x]> (DrawingState.operations s)) s)) as Hr.
    assert (Hi : (i < length (DrawingState.operations s))%nat)
      by by apply lookup_lt_Some in Hx.
    destruct (DrawingState.redo u _) as [[r|] s2]; cbn [snd].
    + destruct Hr as (k & z & Hz & Hzu & Hzd & Hfirst & -> & ->).
      simpl in Hz. destruct (decide (k = i)) as [->|Hki].
      * rewrite list_lookup_insert_eq in Hz by done. injection Hz as <-.
        simpl. rewrite list_insert_insert_eq.
        change (set_undone false (set_undone true x)) with (set_undone false x).
        rewrite <- Hxd, set_undone_same.
        rewrite list_insert_id by done. by destruct s.
      * rewrite list_lookup_insert_ne in Hz by done.
        apply list_elem_of_lookup_2 in Hz.
        rewrite (Hnone z Hz Hzu) in Hzd. discriminate Hzd.
    + destruct Hr as [_ Hr]. exfalso.
      apply (Hr (set_undone true x)); [|by split].
      apply list_elem_of_lookup. exists i. by apply list_lookup_insert_eq.
  - destruct Hu as [-> Hu].
    pose proof (redo_spec u s) as Hr.
    destruct (DrawingState.redo u s) as [[r|] s2]; cbn [snd].
    + destruct Hr as (k & z & Hz & Hzu & Hzd & _).
      apply list_elem_of_lookup_2 in Hz.
      rewrite (Hnone z Hz Hzu) in Hzd. discriminate Hzd.
    + by destruct Hr as [-> _].
Qed.

Lemma undo_then_redo_without_undone_witness :
  (∀ y, y ∈ DrawingState.operations Sample.log2 → op_userId y = "x" →
        op_undone y = false)
  ∧ (DrawingState.redo "x" (DrawingState.undo "x" Sample.log2).2).2 = Sample.log2.
Proof.
  assert (H : ∀ y, y ∈ DrawingState.operations Sample.log2 → op_userId y = "x" →
                   op_undone y = false).
  { intros y Hy _. simpl in Hy.
    repeat (apply elem_of_cons in Hy as [->|Hy]; [reflexivity|]).
    by apply elem_of_nil in Hy. }
  split; [exact H|].
  exact (undo_then_redo_without_undone "x" Sample.log2 H).
Defined.

(** X3: when no entry of the log is undone, [globalRedo()] takes back what
    [globalUndo()] just did: the state is the one before the two calls. *)
Theorem globalUndo_then_globalRedo_without_undone (s : DrawingState.t) :
  (∀ y, y ∈ DrawingState.operations s → op_undone y = false) →
  (DrawingState.globalRedo (DrawingState.globalUndo s).2).2 = s.
Proof.
  intros Hnone. pose proof (globalUndo_spec s) as Hu.
  destruct (DrawingState.globalUndo s) as [[r|] s1]; cbn [snd].
  - destruct Hu as (i & x & Hx & Hxd & _ & -> & ->).
    pose proof (globalRedo_spec (DrawingState.set_operations
                  (<[i := set_undone true x]> (DrawingState.operations s)) s)) as Hr.
    assert (Hi : (i < length (DrawingState.operations s))%nat)
      by by apply lookup_lt_Some in Hx.
    destruct (DrawingState.globalRedo _) as [[r|] s2]; cbn [snd].
    + destruct Hr as (k & z & Hz & Hzd & Hfirst & -> & ->).
      simpl in Hz. destruct (decide (k = i)) as [->|Hki].
      * rewrite list_lookup_insert_eq in Hz by done. injection Hz as <-.
        simpl. rewrite list_insert_insert_eq.
        change (set_undone false (set_undone true x)) with (set_undone false x).
        rewrite <- Hxd, set_undone_same.
        rewrite list_insert_id by done. by destruct s.
      * rewrite list_lookup_insert_ne in Hz by done.
        apply list_elem_of_lookup_2 in Hz.
        rewrite (Hnone z Hz) in Hzd. discriminate Hzd.
    + destruct Hr as [_ Hr]. exfalso.
      assert (Hin : set_undone true x
                    ∈ <[i := set_undone true x]> (DrawingState.operations s)).
      { apply list_elem_of_lookup. exists i. by apply list_lookup_insert_eq. }
      specialize (Hr _ Hin). discriminate Hr.
  - destruct Hu as [-> Hu].
    pose proof (globalRedo_spec s) as Hr.
    destruct (DrawingState.globalRedo s) as [[r|] s2]; cbn [snd].
    + destruct Hr as (k & z & Hz & Hzd & _).
      apply list_elem_of_lookup_2 in Hz.
      rewrite (Hnone z Hz) in Hzd. discriminate Hzd.
    + by destruct Hr as [-> _].
Qed.

Lemma globalUndo_then_globalRedo_without_undone_witness :
  (∀ y, y ∈ DrawingState.operations Sample.log2 → op_undone y = false)
  ∧ (DrawingState.globalRedo (DrawingState.globalUndo Sample.log2).2).2
    = Sample.log2.
Proof.
  assert (H : ∀ y, y ∈ DrawingState.operations Sample.log2 → op_undone y = false).
  { intros y Hy. simpl in Hy.
    repeat (apply elem_of_cons in Hy as [->|Hy]; [reflexivity|]).
    by apply elem_of_nil in Hy. }
  split; [exact H|].
  exact (globalUndo_then_globalRedo_without_undone Sample.log2 H).
Defined.

(** The downward scan flips the last hit: the first hit of the reversed
    log. *)
Lemma down_loop_flip_last_from p b (l post : list Operation) :
  (DrawingState.down_loop p b (l ++ post) (length l)).2
  = rev (DrawingState.flip_first p b (rev l)) ++ post.
Proof.
  revert post. induction l as [|x l IH] using rev_ind; intros post; [done|].
  rewrite length_app. simpl length.
  replace (length l + 1)%nat with (S (length l)) by lia. simpl.
  rewrite <- app_assoc. simpl.
  rewrite (list_lookup_middle l post x (length l) eq_refl).
  rewrite rev_app_distr. simpl.
  destruct (p x); simpl.
  - rewrite rev_involutive.
    replace (length l) with (length l + 0)%nat at 1 by lia.
    rewrite insert_app_r. simpl. by rewrite <- app_assoc.
  - rewrite (IH (x :: post)). by rewrite <- app_assoc.
Qed.

Lemma down_loop_flip_last p b (ops : list Operation) :
  (DrawingState.down_loop p b ops (length ops)).2
  = rev (DrawingState.flip_first p b (rev ops)).
Proof.
  pose proof (down_loop_flip_last_from p b ops []) as H.
  by rewrite !app_nil_r in H.
Qed.

Lemma iter_rev_conj (f : list Operation → list Operation) (n : nat)
    (l : list Operation) :
  Nat.iter n (λ l, rev (f (rev l))) l = rev (Nat.iter n f (rev l)).
Proof.
  induction n as [|n IH]; simpl; [by rewrite rev_involutive|].
  by rewrite IH, rev_involutive.
Qed.

Lemma mark_undone_rev (u : string) (l : list Operation) :
  Server.mark_undone u (rev l) = rev (Server.mark_undone u l).
Proof. unfold Server.mark_undone. apply map_rev. Qed.

Lemma filter_rev_length (P : Operation → Prop) `{∀ x, Decision (P x)}
    (l : list Operation) :
  length (filter P (rev l)) = length (filter P l).
Proof.
  induction l as [|x l IH]; [done|]. simpl.
  rewrite filter_app, length_app, IH, !filter_cons, filter_nil.
  destruct (decide (P x)); simpl; lia.
Qed.

(** Flipping the first active entry of the user as often as the user has
    active entries flags them all. *)
Lemma undo_all_is_mark (u : string) (l : list Operation) :
  Nat.iter (length (filter (λ o, op_userId o = u ∧ op_undone o = false) l))
    (DrawingState.flip_first (DrawingState.undo_target u) true) l
  = Server.mark_undone u l.
Proof.
  induction l as [|x l IH]; simpl; [done|].
  destruct (decide (op_userId x = u ∧ op_undone x = false)) as [[Hu Hd]|Hn].
  - rewrite filter_cons_True by done. simpl length.
    rewrite Nat.iter_succ_r. simpl.
    rewrite (proj2 (undo_target_true u x)) by done.
    rewrite iter_flip_first_skip by apply (undo_target_own u x true Hu).
    rewrite IH. by rewrite decide_True.
  - rewrite filter_cons_False by done.
    rewrite iter_flip_first_skip by by apply undo_target_false.
    rewrite IH. f_equal.
    destruct (decide (op_userId x = u)) as [Hu|Hu]; [|done].
    destruct (op_undone x) eqn:Hd; [|by destruct Hn].
    by rewrite <- Hd, set_undone_same.
Qed.

Lemma run_replicate_undo (u : string) (n : nat) (s : DrawingState.t) :
  DrawingState.operations
    (DrawingState.run (replicate n (DrawingState.CUndo u)) s)
  = Nat.iter n
      (λ l, rev (DrawingState.flip_first (DrawingState.undo_target u) true (rev l)))
      (DrawingState.operations s).
Proof.
  revert s. induction n as [|n IH]; intros s; [done|].
  rewrite Nat.iter_succ_r.
  change (DrawingState.run (replicate (S n) (DrawingState.CUndo u)) s)
    with (DrawingState.run (replicate n (DrawingState.CUndo u))
            (DrawingState.undo u s).2).
  rewrite IH. simpl. by rewrite down_loop_flip_last.
Qed.

(** X4: as many [undo(userId)] calls as the user has active entries flag
    exactly what ['clear-canvas'] of that user flags, and the next
    [undo(userId)] finds nothing: it returns [null] and changes nothing. *)
Theorem undo_of_all_own_entries_is_clear_mine (u : string) (s : DrawingState.t) :
  let n := length (filter (λ o, op_userId o = u ∧ op_undone o = false)
                     (DrawingState.operations s)) in
  let s' := DrawingState.run (replicate n (DrawingState.CUndo u)) s in
  DrawingState.operations s' = Server.mark_undone u (DrawingState.operations s)
  ∧ DrawingState.undo u s' = (None, s').
Proof.
  intros n s'.
  assert (Hops : DrawingState.operations s'
                 = Server.mark_undone u (DrawingState.operations s)).
  { subst s' n. rewrite run_replicate_undo, iter_rev_conj.
    rewrite <- (filter_rev_length _ (DrawingState.operations s)).
    rewrite undo_all_is_mark, mark_undone_rev. apply rev_involutive. }
  split; [exact Hops|].
  pose proof (undo_spec u s') as H.
  destruct (DrawingState.undo u s') as [[r|] s2].
  - destruct H as (i & x & Hx & Hu & Hd & _). exfalso.
    rewrite Hops, mark_undone_lookup in Hx.
    destruct (DrawingState.operations s !! i) as [y|]; [|done].
    simpl in Hx. injection Hx as <-.
    destruct (decide (op_userId y = u)); [discriminate Hd|done].
  - by destruct H as [-> _].
Qed.

Lemma active_plus_undone (l : list Operation) :
  (length (filter (λ o, op_undone o = false) l)
   + length (filter (λ o, op_undone o = true) l) = length l)%nat.
Proof.
  induction l as [|x l IH]; [done|].
  rewrite !filter_cons.
  destruct (op_undone x) eqn:E; repeat case_decide; simpl; try lia; congruence.
Qed.

(** X5: in every state built by the six methods, [getStats()] reports a
    total that is the cursor plus one, and the total is the number of active
    entries plus the number of undone ones. *)
Theorem getStats_counts (s : DrawingState.t) :
  DrawingState.reachable s →
  let st := DrawingStats.getStats s in
  Z.of_nat (DrawingStats.totalOperations st) = DrawingStats.stat_currentIndex st + 1
  ∧ (DrawingStats.activeOperations st
     + length (filter (λ o, op_undone o = true) (DrawingState.operations s))
     = DrawingStats.totalOperations st)%nat
  ∧ (DrawingStats.activeOperations st ≤ DrawingStats.totalOperations st)%nat.
Proof.
  intros Hr st. pose proof (reachable_cursor s Hr) as Hc.
  assert (Hact : DrawingState.getActiveOperations s
                 = filter (λ o, op_undone o = false) (DrawingState.operations s)).
  { unfold DrawingState.getActiveOperations. rewrite Hc.
    replace (Z.of_nat (length (DrawingState.operations s)) - 1 + 1)
      with (Z.of_nat (length (DrawingState.operations s))) by lia.
    by rewrite slice0_all. }
  pose proof (active_plus_undone (DrawingState.operations s)) as Hsum.
  subst st. unfold DrawingStats.getStats. simpl. rewrite Hact.
  split; [lia|]. split; [exact Hsum|lia].
Qed.

Lemma getStats_counts_witness :
  DrawingState.reachable
    (DrawingState.run
       [DrawingState.CAdd Sample.opA; DrawingState.CAdd Sample.opB;
        DrawingState.CGlobalUndo] (DrawingState.new "r"))
  ∧ (DrawingStats.activeOperations
       (DrawingStats.getStats
          (DrawingState.run
             [DrawingState.CAdd Sample.opA; DrawingState.CAdd Sample.opB;
              DrawingState.CGlobalUndo] (DrawingState.new "r")))
     ≤ 2)%nat.
Proof.
  assert (Hr : DrawingState.reachable
    (DrawingState.run
       [DrawingState.CAdd Sample.opA; DrawingState.CAdd Sample.opB;
        DrawingState.CGlobalUndo] (DrawingState.new "r"))).
  { repeat apply DrawingState.reach_call. apply DrawingState.reach_new. }
  split; [exact Hr|].
  exact (proj2 (proj2 (getStats_counts _ Hr))).
Defined.

(** * Further properties of the socket handlers *)

(** X6: a connection that has not joined a room is ignored: every message
    from it other than ['join-room'] leaves the registry, the heap and the
    closure as they were and sends nothing. *)
Theorem unjoined_connection_is_ignored (env : Server.Env)
    (sockets : gmap string Server.Conn) (m : Server.Msg)
    (sid : string) (c : Server.Conn) (rm : RoomManager.t) :
  Server.joined c rm = None →
  (∀ roomId userName, m ≠ Server.JoinRoom roomId userName) →
  Server.handle env sockets m sid c rm = (c, rm, []).
Proof.
  intros Hj Hm. destruct m; simpl; try done.
  - by destruct (Hm roomId userName).
  - unfold Server.on_drawing_event. by rewrite Hj.
  - unfold Server.on_cursor_move. by rewrite Hj.
  - unfold Server.on_undo_request. by rewrite Hj.
  - unfold Server.on_redo_request. by rewrite Hj.
  - unfold Server.on_admin_undo, Server.admin_only. by rewrite Hj.
  - unfold Server.on_admin_redo, Server.admin_only. by rewrite Hj.
  - unfold Server.on_clear_canvas. by rewrite Hj.
  - unfold Server.on_admin_clear_all, Server.admin_only. by rewrite Hj.
  - unfold Server.on_admin_kick_user, Server.admin_only. by rewrite Hj.
  - unfold Server.on_set_theme, Server.admin_only. by rewrite Hj.
  - unfold Server.on_admin_transfer, Server.admin_only. by rewrite Hj.
  - unfold Server.on_disconnect. by rewrite Hj.
Qed.

Lemma unjoined_connection_is_ignored_witness :
  Server.joined (Server.mkConn None None) (Server.manager (Server.run Sample.drawn Server.init).1)
  = None
  ∧ Server.handle (Sample.env "z" 9) ∅ Server.AdminClearAll "s9"
      (Server.mkConn None None) (Server.manager (Server.run Sample.drawn Server.init).1)
    = (Server.mkConn None None,
       Server.manager (Server.run Sample.drawn Server.init).1, []).
Proof.
  split; [reflexivity|].
  apply unjoined_connection_is_ignored; [reflexivity|]. intros r n. discriminate.
Defined.

(** X7: a member whose [isAdmin] flag is false cannot use an admin
    message: ['admin-undo'], ['admin-redo'], ['admin-clear-all'],
    ['admin-kick-user'], ['set-theme'] and ['admin-transfer'] from such a
    member change nothing, and the only thing sent is one ['error'] event to
    the sender. *)
Theorem admin_messages_need_admin (env : Server.Env)
    (sockets : gmap string Server.Conn) (m : Server.Msg)
    (sid : string) (c : Server.Conn) (rm : RoomManager.t)
    (roomId : string) (user : RoomManager.User) :
  Server.joined c rm = Some (roomId, user) →
  RoomManager.u_isAdmin user = false →
  (m = Server.AdminUndo ∨ m = Server.AdminRedo ∨ m = Server.AdminClearAll
   ∨ (∃ target, m = Server.AdminKickUser target)
   ∨ (∃ theme, m = Server.SetTheme theme)
   ∨ (∃ target, m = Server.AdminTransfer target)) →
  ∃ message,
    Server.handle env sockets m sid c rm
    = (c, rm, [Server.Emit (Server.ToSocket sid) (Server.EvError message)]).
Proof.
  intros Hj Hadmin Hm.
  assert (Hgate : ∀ message body,
            Server.admin_only message sid c rm body
            = (c, rm, [Server.Emit (Server.ToSocket sid) (Server.EvError message)])).
  { intros message body. unfold Server.admin_only. by rewrite Hj, Hadmin. }
  destruct Hm as [->|[->|[->|[[t ->]|[[t ->]|[t ->]]]]]]; simpl;
    eexists; apply Hgate.
Qed.

Lemma admin_messages_need_admin_witness :
  (Server.joined (Server.mkConn (Some 1%nat) (Some "R"))
     (Server.manager (Server.run Sample.drawn Server.init).1)
   = Some ("R", Sample.userY)
   ∧ RoomManager.u_isAdmin Sample.userY = false)
  ∧ ∃ message,
      Server.handle (Sample.env "-" 9) ∅ Server.AdminClearAll "s2"
        (Server.mkConn (Some 1%nat) (Some "R"))
        (Server.manager (Server.run Sample.drawn Server.init).1)
      = (Server.mkConn (Some 1%nat) (Some "R"),
         Server.manager (Server.run Sample.drawn Server.init).1,
         [Server.Emit (Server.ToSocket "s2") (Server.EvError message)]).
Proof.
  assert (H : Server.joined (Server.mkConn (Some 1%nat) (Some "R"))
     (Server.manager (Server.run Sample.drawn Server.init).1)
   = Some ("R", Sample.userY)) by (vm_compute; reflexivity).
  split; [by split|].
  apply (admin_messages_need_admin _ _ _ _ _ _ "R" Sample.userY H eq_refl).
  right. right. by left.
Defined.

Lemma log_ids_getRoom (now : Z) (r r' : string) (rm : RoomManager.t) :
  Registry.log_ids r (RoomManager.getRoom now r' rm).2 = Registry.log_ids r rm.
Proof.
  unfold Registry.log_ids, RoomManager.getDrawingState, RoomManager.getRoom.
  destruct (RoomManager.rooms rm !! r') as [room|] eqn:Hr'; simpl; [done|].
  destruct (decide (r' = r)) as [->|Hne].
  - by rewrite lookup_insert_eq, Hr'.
  - by rewrite lookup_insert_ne.
Qed.

Lemma log_ids_addUser (now : Z) (rnd : nat) (r r' userId userName socketId : string)
    (rm : RoomManager.t) :
  Registry.log_ids r (RoomManager.addUser now rnd r' userId userName socketId rm).2
  = Registry.log_ids r rm.
Proof.
  rewrite <- (log_ids_getRoom now r r' rm).
  unfold RoomManager.addUser, RoomManager.getRoom, Registry.log_ids,
    RoomManager.getDrawingState.
  destruct (RoomManager.rooms rm !! r') as [room|] eqn:Hr'; simpl.
  - destruct (decide (r' = r)) as [->|Hne].
    + by rewrite lookup_insert_eq, Hr'.
    + by rewrite lookup_insert_ne.
  - destruct (decide (r' = r)) as [->|Hne].
    + by rewrite !lookup_insert_eq.
    + by rewrite !lookup_insert_ne.
Qed.

Lemma log_ids_removeUser (r r' userId : string) (rm : RoomManager.t) :
  Registry.log_ids r (RoomManager.removeUser r' userId rm).2 = Registry.log_ids r rm
  ∨ Registry.log_ids r (RoomManager.removeUser r' userId rm).2 = [].
Proof.
  unfold RoomManager.removeUser, Registry.log_ids, RoomManager.getDrawingState.
  destruct (RoomManager.rooms rm !! r') as [room|] eqn:Hr'; [|by left].
  match goal with
  | |- context [let '(_, _) := ?e in _] => destruct e as [adminId1 heap1]
  end. simpl.
  destruct (decide (r' = r)) as [->|Hne].
  - case_bool_decide.
    + right. by rewrite lookup_delete_eq.
    + left. by rewrite lookup_insert_eq, Hr'.
  - left. case_bool_decide; [by rewrite lookup_delete_ne|by rewrite lookup_insert_ne].
Qed.

Lemma log_ids_put (r r' : string) (ds ds' : DrawingState.t) (rm : RoomManager.t) :
  RoomManager.getDrawingState r' rm = Some ds →
  Registry.log_ids r (RoomManager.put_drawingState r' ds' rm)
  = if decide (r = r') then map op_id (DrawingState.operations ds')
    else Registry.log_ids r rm.
Proof.
  intros Hds. unfold Registry.log_ids. case_decide as Heq.
  - subst r'. by rewrite (getDrawingState_put _ _ _ _ Hds).
  - unfold RoomManager.getDrawingState, RoomManager.put_drawingState. simpl.
    by rewrite lookup_alter_ne.
Qed.

Lemma log_ids_put_same (r r' : string) (ds ds' : DrawingState.t)
    (rm : RoomManager.t) :
  RoomManager.getDrawingState r' rm = Some ds →
  map op_id (DrawingState.operations ds') = map op_id (DrawingState.operations ds) →
  Registry.log_ids r (RoomManager.put_drawingState r' ds' rm) = Registry.log_ids r rm.
Proof.
  intros Hds Hids. rewrite (log_ids_put _ _ _ _ _ Hds). case_decide; [|done].
  subst r'. unfold Registry.log_ids. by rewrite Hds.
Qed.

Lemma history_request_log_ids method update context (r roomId : string)
    (c : Server.Conn) (rm : RoomManager.t) :
  (∀ ds, map op_id (DrawingState.operations (method ds).2)
         = map op_id (DrawingState.operations ds)) →
  Registry.log_ids r (Server.history_request method update context roomId c rm).1.2
  = Registry.log_ids r rm.
Proof.
  intros Hm. unfold Server.history_request.
  destruct (RoomManager.getDrawingState roomId rm) as [ds|] eqn:Hds; [|done].
  specialize (Hm ds). destruct (method ds) as [o ds1]. simpl in *.
  by apply (log_ids_put_same _ _ ds).
Qed.

Lemma method_ids :
  (∀ u ds, map op_id (DrawingState.operations (DrawingState.undo u ds).2)
           = map op_id (DrawingState.operations ds))
  ∧ (∀ u ds, map op_id (DrawingState.operations (DrawingState.redo u ds).2)
             = map op_id (DrawingState.operations ds))
  ∧ (∀ ds, map op_id (DrawingState.operations (DrawingState.globalUndo ds).2)
           = map op_id (DrawingState.operations ds))
  ∧ (∀ ds, map op_id (DrawingState.operations (DrawingState.globalRedo ds).2)
           = map op_id (DrawingState.operations ds)).
Proof.
  repeat split; intros; simpl;
    first [apply (proj1 (loops_ids _ _ _ _ 0%nat)) | apply (proj2 (loops_ids _ _ _ _ _))].
Qed.

Lemma mark_undone_ids (u : string) (ops : list Operation) :
  map op_id (Server.mark_undone u ops) = map op_id ops.
Proof.
  unfold Server.mark_undone. rewrite map_map. apply map_ext.
  intros o. by case_decide.
Qed.

Lemma admin_only_log_ids message (sid : string) (c : Server.Conn)
    (rm : RoomManager.t) body (r : string) (P : list string → Prop) :
  P (Registry.log_ids r rm) →
  (∀ roomId user, P (Registry.log_ids r (body roomId user).1.2)) →
  P (Registry.log_ids r (Server.admin_only message sid c rm body).1.2).
Proof.
  intros H0 Hbody. unfold Server.admin_only.
  destruct (Server.joined c rm) as [[roomId user]|]; [|done].
  destruct (RoomManager.u_isAdmin user); [apply Hbody|done].
Qed.

Lemma on_disconnect_log_ids (now : Z) (sid : string) (c : Server.Conn)
    (rm : RoomManager.t) (r : string) :
  Registry.log_ids r (Server.on_disconnect now sid c rm).1.2 = Registry.log_ids r rm
  ∨ Registry.log_ids r (Server.on_disconnect now sid c rm).1.2 = [].
Proof.
  unfold Server.on_disconnect.
  destruct (Server.joined c rm) as [[roomId user]|]; [|by left].
  pose proof (log_ids_removeUser r roomId (RoomManager.u_id user) rm) as H1.
  destruct (RoomManager.removeUser roomId (RoomManager.u_id user) rm) as [o rm1].
  simpl in H1.
  pose proof (log_ids_getRoom now r roomId rm1) as H2.
  destruct (RoomManager.getRoom now roomId rm1) as [room rm2].
  simpl in *. rewrite H2. destruct H1 as [->| ->]; [by left|by right].
Qed.

Lemma handle_log_ids (env : Server.Env) (sockets : gmap string Server.Conn)
    (m : Server.Msg) (sid : string) (c : Server.Conn) (rm : RoomManager.t) (r : string) :
  Server.rooms_ok rm →
  let before := Registry.log_ids r rm in
  let after := Registry.log_ids r (Server.handle env sockets m sid c rm).1.2 in
  after = before
  ∨ ((∃ data, m = Server.DrawingEventMsg data)
     ∧ after = before ++ [Server.uuid env])
  ∨ after = [].
Proof.
  intros Hok before after. subst before after.
  destruct method_ids as (Hundo & Hredo & Hgundo & Hgredo).
  destruct m; simpl.
  - by left.
  - left. unfold Server.on_join_room.
    pose proof (log_ids_addUser (Server.now env) (Server.rnd env) r roomId
                  (Server.uuid env) userName sid rm) as H1.
    destruct (RoomManager.addUser _ _ _ _ _ _ _) as [l rm1]. simpl in H1.
    by destruct (RoomManager.heap rm1 !! l), (RoomManager.getDrawingState roomId rm1).
  - destruct (Server.joined c rm) as [[roomId user]|] eqn:Hj.
    2: { left. unfold Server.on_drawing_event. by rewrite Hj. }
    rewrite (on_drawing_event_state _ _ _ _ _ _ _ _ Hj).
    destruct (RoomManager.getDrawingState roomId rm) as [ds|] eqn:Hds.
    2: { left. by rewrite drawing_event_body_null. }
    destruct (drawing_event_body_spec
                (Server.operation_of (Server.uuid env) (Server.now env) user data)
                data ds eq_refl eq_refl
                (getDrawingState_log_ok _ _ _ Hok Hds))
      as (ds' & -> & _ & Hids & _).
    simpl. rewrite (log_ids_put _ _ _ _ _ Hds). case_decide as Heq; [|by left].
    subst r. unfold Registry.log_ids. rewrite Hds, Hids, map_app.
    destruct (default false (Server.commit_test data)); simpl.
    + right. left. split; [by exists data|done].
    + left. by rewrite app_nil_r.
  - left. unfold Server.on_cursor_move.
    by destruct (Server.joined c rm) as [[roomId user]|].
  - left. unfold Server.on_undo_request.
    destruct (Server.joined c rm) as [[roomId user]|]; [|done].
    by apply history_request_log_ids.
  - left. unfold Server.on_redo_request.
    destruct (Server.joined c rm) as [[roomId user]|]; [|done].
    by apply history_request_log_ids.
  - left. apply (admin_only_log_ids _ _ _ _ _ _ (λ a, a = _)); [done|].
    intros roomId user. by apply history_request_log_ids.
  - left. apply (admin_only_log_ids _ _ _ _ _ _ (λ a, a = _)); [done|].
    intros roomId user. by apply history_request_log_ids.
  - left. unfold Server.on_clear_canvas.
    destruct (Server.joined c rm) as [[roomId user]|]; [|done].
    destruct (RoomManager.getDrawingState roomId rm) as [ds|] eqn:Hds; [|done].
    simpl. apply (log_ids_put_same _ _ ds); [done|]. simpl. apply mark_undone_ids.
  - assert (H : Registry.log_ids r (Server.on_admin_clear_all sid c rm).1.2
                = Registry.log_ids r rm
                ∨ Registry.log_ids r (Server.on_admin_clear_all sid c rm).1.2 = []).
    { apply (admin_only_log_ids _ _ _ _ _ _
               (λ a, a = Registry.log_ids r rm ∨ a = [])); [by left|].
      intros roomId user.
      destruct (RoomManager.getDrawingState roomId rm) as [ds|] eqn:Hds; [|by left].
      simpl. rewrite (log_ids_put _ _ _ _ _ Hds). case_decide; [by right|by left]. }
    destruct H as [H|H]; [by left|by right; right].
  - assert (H : Registry.log_ids r
                  (Server.on_admin_kick_user (Server.now env) sockets userId
                     sid c rm).1.2 = Registry.log_ids r rm
                ∨ Registry.log_ids r
                    (Server.on_admin_kick_user (Server.now env) sockets userId
                       sid c rm).1.2 = []).
    { apply (admin_only_log_ids _ _ _ _ _ _
               (λ a, a = Registry.log_ids r rm ∨ a = [])); [by left|].
      intros roomId user.
      pose proof (log_ids_getRoom (Server.now env) r roomId rm) as H1.
      destruct (RoomManager.getRoom (Server.now env) roomId rm) as [room rm1].
      simpl in H1.
      destruct (JsMap.get userId (RoomManager.r_users room)) as [l|]; [|by left].
      destruct (RoomManager.heap rm1 !! l) as [targetUser|]; [|by left]. cbv zeta.
      destruct (sockets !! RoomManager.u_socketId targetUser) as [targetConn|];
        [|by left].
      pose proof (on_disconnect_log_ids (Server.now env)
                    (RoomManager.u_socketId targetUser) targetConn rm1 r) as H2.
      destruct (Server.on_disconnect _ _ _ _) as [[c2 rm2] out]. simpl in *.
      rewrite <- H1. exact H2. }
    destruct H as [H|H]; [by left|by right; right].
  - left. by apply (admin_only_log_ids _ _ _ _ _ _ (λ a, a = _)).
  - left. unfold Server.on_admin_transfer.
    by apply (admin_only_log_ids _ _ _ _ _ _ (λ a, a = _)).
  - destruct (on_disconnect_log_ids (Server.now env) sid c rm r) as [H|H];
      [by left|by right; right].
Qed.

Lemma step_log_ids (sid : string) (env : Server.Env) (m : Server.Msg)
    (st : Server.State) (r : string) :
  Server.rooms_ok (Server.manager st) →
  let before := Registry.log_ids r (Server.manager st) in
  let after := Registry.log_ids r (Server.manager (Server.step sid env m st).1) in
  after = before
  ∨ ((∃ data, m = Server.DrawingEventMsg data)
     ∧ after = before ++ [Server.uuid env])
  ∨ after = [].
Proof.
  intros Hok before after. subst before after.
  pose proof (handle_log_ids env (Server.conns st) m sid) as Hh.
  unfold Server.step.
  destruct (Server.conns st !! sid) as [c|] eqn:Hc.
  - specialize (Hh c (Server.manager st) r Hok). simpl in Hh.
    destruct m; try (destruct (Server.handle env (Server.conns st) _ sid c (Server.manager st))
                       as [[c1 rm1] out] eqn:Hhandle; simpl in *; exact Hh).
    by left.
  - by destruct m; left.
Qed.

(** X9: a room's log only grows at its end or is dropped as a whole.
    Over one inbound event of a running server the ids of the log of any
    room stay as they are, or get the new operation's id appended, or become
    empty: no entry is removed from the middle, reordered or renamed. *)
Theorem log_entries_are_appended_or_all_dropped (st : Server.State)
    (sid : string) (env : Server.Env) (m : Server.Msg) (r : string) :
  Server.reachable st →
  let before := Registry.log_ids r (Server.manager st) in
  let after := Registry.log_ids r (Server.manager (Server.step sid env m st).1) in
  after = before ∨ after = before ++ [Server.uuid env] ∨ after = [].
Proof.
  intros Hreach before after. subst before after.
  apply reachable_rooms_ok in Hreach.
  destruct (step_log_ids sid env m st r Hreach) as [H|[[_ H]|H]];
    [by left|right; by left|right; by right].
Qed.

Lemma log_entries_are_appended_or_all_dropped_witness :
  let st := (Server.run Sample.drawn Server.init).1 in
  let before := Registry.log_ids "R" (Server.manager st) in
  let after :=
    Registry.log_ids "R"
      (Server.manager (Server.step "s1" (Sample.env "n" 9)
                         (Sample.draw_event "draw" true) st).1) in
  after = before ∨ after = before ++ ["n"] ∨ after = [].
Proof.
  exact (log_entries_are_appended_or_all_dropped _ "s1" (Sample.env "n" 9)
           (Sample.draw_event "draw" true) "R"
           (run_reachable Sample.drawn Server.init Server.reach_init)).
Defined.

(** X24: the ids of a log are distinct. When every id that [uuidv4()]
    gives a drawing event is new, no two entries of a room's log have the
    same id, in any state the server reaches. *)
Theorem log_ids_are_distinct (st : Server.State) (r : string) :
  Registry.reachable_new_ops st →
  NoDup (Registry.log_ids r (Server.manager st)).
Proof.
  intros Hreach.
  assert (H : Server.reachable st
              ∧ ∀ r, NoDup (Registry.log_ids r (Server.manager st))).
  { clear r. induction Hreach as [|sid env m st _ [IHr IH] Hnew].
    - split; [apply Server.reach_init|]. intros r. apply NoDup_nil_2.
    - split; [by apply Server.reach_step|]. intros r.
      destruct (step_log_ids sid env m st r (reachable_rooms_ok st IHr))
        as [-> |[[[data ->] ->]| ->]]; [apply IH| |apply NoDup_nil_2].
      apply NoDup_app. split; [apply IH|]. split; [|apply NoDup_singleton].
      intros i Hi ->%list_elem_of_singleton. by apply (Hnew r). }
  apply H.
Qed.

Lemma log_ids_are_distinct_witness :
  NoDup (Registry.log_ids "R" (Server.manager (Server.run Sample.drawn Server.init).1)).
Proof.
  assert (Hnew : ∀ i rm,
            map_Forall (λ _ room,
              i ∉ map op_id (DrawingState.operations
                               (RoomManager.r_drawingState room)))
              (RoomManager.rooms rm) →
            ∀ r, i ∉ Registry.log_ids r rm).
  { intros i rm Hall r. unfold Registry.log_ids, RoomManager.getDrawingState.
    destruct (RoomManager.rooms rm !! r) as [room|] eqn:Hr; simpl.
    - by apply (Hall r room).
    - apply not_elem_of_nil. }
  apply log_ids_are_distinct.
  change (Server.run Sample.drawn Server.init).1 with
    (Server.step "s2" (Sample.env "b" 5)
       (Server.DrawingEventMsg (Sample.draw_data "shape" false))
       (Server.step "s1" (Sample.env "a" 4)
          (Server.DrawingEventMsg (Sample.draw_data "draw" true))
          (Server.step "s2" (Sample.env "y" 2) (Server.JoinRoom "R" "Yan")
             (Server.step "s2" (Sample.env "-" 1) Server.Connection
                (Server.step "s1" (Sample.env "x" 1) (Server.JoinRoom "R" "Xi")
                   (Server.step "s1" (Sample.env "-" 0) Server.Connection
                      Server.init).1).1).1).1).1).1.
  repeat (apply Registry.new_ops_next; [|try exact I]).
  - apply Registry.new_ops_init.
  - refine (Hnew _ _ _). apply (bool_decide_unpack _). vm_compute. exact I.
  - refine (Hnew _ _ _). apply (bool_decide_unpack _). vm_compute. exact I.
Defined.

(** What the handler's three conditionals do with a ['move'] or ['resize']
    that is not complete and names an operation. *)
Lemma positional_event_body (operation : Operation) (data : Server.DrawingEvent)
    (ds : DrawingState.t) (p : Payload) (i : string)
    (fields : Payload → Payload → Payload) :
  (Server.d_type data = "move" ∧ fields = Server.move_fields)
  ∨ (Server.d_type data = "resize" ∧ fields = Server.resize_fields) →
  Server.d_data data = Some p →
  p_isComplete p = false →
  Server.truthy_str (p_operationId p) = Some i →
  Server.drawing_event_body operation data (Some ds)
  = Server.Returned (Some (DrawingState.set_operations
      (Server.update_existing (fields p) i (DrawingState.operations ds)) ds)).
Proof.
  intros Hkind Hdata Hc Hi.
  unfold Server.drawing_event_body, Server.commit_step, Server.commit_test,
    Server.positional_step, Server.positional_test.
  destruct Hkind as [[Ht ->]|[Ht ->]]; rewrite Ht, Hdata; simpl;
    rewrite Hc; simpl; rewrite Hi; done.
Qed.




(** ** Invariants of the registry *)

(** The handlers reach the registry through [getRoom], [addUser],
    [removeUser] and the writes to a drawing state only: what these four
    keep, every handler keeps. [Fresh] is what [addUser] needs of the id it
    is given. *)
Section HandlersKeep.
Variable Inv : RoomManager.t → Prop.
Variable Fresh : string → RoomManager.t → Prop.
Hypothesis Inv_getRoom : ∀ now r rm, Inv rm → Inv (RoomManager.getRoom now r rm).2.
Hypothesis Inv_addUser : ∀ now rnd r userId userName socketId rm,
  Inv rm → Fresh userId rm →
  Inv (RoomManager.addUser now rnd r userId userName socketId rm).2.
Hypothesis Inv_removeUser : ∀ r userId rm,
  Inv rm → Inv (RoomManager.removeUser r userId rm).2.
Hypothesis Inv_put : ∀ r ds rm, Inv rm → Inv (RoomManager.put_drawingState r ds rm).

Lemma history_request_keeps method update context (roomId : string)
    (c : Server.Conn) (rm : RoomManager.t) :
  Inv rm → Inv (Server.history_request method update context roomId c rm).1.2.
Proof.
  intros H. unfold Server.history_request.
  destruct (RoomManager.getDrawingState roomId rm) as [ds|]; [|done].
  destruct (method ds) as [o ds1]. simpl. by apply Inv_put.
Qed.

Lemma admin_only_keeps message (sid : string) (c : Server.Conn)
    (rm : RoomManager.t) body :
  Inv rm → (∀ roomId user, Inv (body roomId user).1.2) →
  Inv (Server.admin_only message sid c rm body).1.2.
Proof.
  intros H Hbody. unfold Server.admin_only.
  destruct (Server.joined c rm) as [[roomId user]|]; [|done].
  by destruct (RoomManager.u_isAdmin user).
Qed.

Lemma on_disconnect_keeps (now : Z) (sid : string) (c : Server.Conn)
    (rm : RoomManager.t) :
  Inv rm → Inv (Server.on_disconnect now sid c rm).1.2.
Proof.
  intros H. unfold Server.on_disconnect.
  destruct (Server.joined c rm) as [[roomId user]|]; [|done].
  pose proof (Inv_removeUser roomId (RoomManager.u_id user) rm H) as H1.
  destruct (RoomManager.removeUser roomId (RoomManager.u_id user) rm) as [o rm1].
  simpl in H1.
  pose proof (Inv_getRoom now roomId rm1 H1) as H2.
  by destruct (RoomManager.getRoom now roomId rm1) as [room rm2].
Qed.

Lemma handle_keeps (env : Server.Env) (sockets : gmap string Server.Conn)
    (m : Server.Msg) (sid : string) (c : Server.Conn) (rm : RoomManager.t) :
  Inv rm →
  (∀ r n, m = Server.JoinRoom r n → Fresh (Server.uuid env) rm) →
  Inv (Server.handle env sockets m sid c rm).1.2.
Proof.
  intros H Hfresh. destruct m; simpl; try done.
  - unfold Server.on_join_room.
    pose proof (Inv_addUser (Server.now env) (Server.rnd env) roomId
                  (Server.uuid env) userName sid rm H (Hfresh _ _ eq_refl)) as H1.
    destruct (RoomManager.addUser _ _ _ _ _ _ _) as [l rm1]. simpl in H1.
    by destruct (RoomManager.heap rm1 !! l), (RoomManager.getDrawingState roomId rm1).
  - unfold Server.on_drawing_event.
    destruct (Server.joined c rm) as [[roomId user]|]; [|done].
    destruct (Server.drawing_event_body _ _ _) as [[ds|]|[ds|]]; simpl;
      try done; by apply Inv_put.
  - unfold Server.on_cursor_move.
    by destruct (Server.joined c rm) as [[roomId user]|].
  - unfold Server.on_undo_request.
    destruct (Server.joined c rm) as [[roomId user]|]; [|done].
    by apply history_request_keeps.
  - unfold Server.on_redo_request.
    destruct (Server.joined c rm) as [[roomId user]|]; [|done].
    by apply history_request_keeps.
  - apply admin_only_keeps; [done|]. intros roomId user.
    by apply history_request_keeps.
  - apply admin_only_keeps; [done|]. intros roomId user.
    by apply history_request_keeps.
  - unfold Server.on_clear_canvas.
    destruct (Server.joined c rm) as [[roomId user]|]; [|done].
    destruct (RoomManager.getDrawingState roomId rm) as [ds|]; [|done].
    simpl. by apply Inv_put.
  - apply admin_only_keeps; [done|]. intros roomId user.
    destruct (RoomManager.getDrawingState roomId rm) as [ds|]; [|done].
    simpl. by apply Inv_put.
  - apply admin_only_keeps; [done|]. intros roomId user.
    pose proof (Inv_getRoom (Server.now env) roomId rm H) as H1.
    destruct (RoomManager.getRoom (Server.now env) roomId rm) as [room rm1].
    simpl in H1.
    destruct (JsMap.get userId (RoomManager.r_users room)) as [l|]; [|done].
    destruct (RoomManager.heap rm1 !! l) as [targetUser|]; [|done]. cbv zeta.
    destruct (sockets !! RoomManager.u_socketId targetUser) as [targetConn|];
      [|done].
    pose proof (on_disconnect_keeps (Server.now env)
                  (RoomManager.u_socketId targetUser) targetConn rm1 H1) as H2.
    by destruct (Server.on_disconnect _ _ _ _) as [[c2 rm2] out].
  - by apply admin_only_keeps.
  - unfold Server.on_admin_transfer. by apply admin_only_keeps.
  - exact (on_disconnect_keeps (Server.now env) sid c rm H).
Qed.

Lemma step_keeps (sid : string) (env : Server.Env) (m : Server.Msg)
    (st : Server.State) :
  Inv (Server.manager st) →
  (∀ r n, m = Server.JoinRoom r n → Fresh (Server.uuid env) (Server.manager st)) →
  Inv (Server.manager (Server.step sid env m st).1).
Proof.
  intros H Hfresh. unfold Server.step.
  destruct (Server.conns st !! sid) as [c|] eqn:Hc.
  - pose proof (handle_keeps env (Server.conns st) m sid c (Server.manager st) H Hfresh) as H1.
    destruct (Server.handle env (Server.conns st) m sid c (Server.manager st)) as [[c1 rm1] out].
    by destruct m.
  - by destruct m.
Qed.

End HandlersKeep.

Section JsMapKeys.
Context {V : Type}.
Implicit Types (m : list (string * V)) (k : string).

Lemma JsMap_set_keys_in k (v : V) m :
  k ∈ JsMap.keys m → JsMap.keys (JsMap.set k v m) = JsMap.keys m.
Proof.
  induction m as [|[k' v'] m IH]; simpl; [by intros H%elem_of_nil|].
  intros Hin. destruct (decide (k' = k)) as [->|Hne]; simpl; [done|].
  apply elem_of_cons in Hin as [?|Hin]; [congruence|]. by rewrite IH.
Qed.

Lemma JsMap_set_keys_out k (v : V) m :
  k ∉ JsMap.keys m → JsMap.keys (JsMap.set k v m) = JsMap.keys m ++ [k].
Proof.
  intros Hk. rewrite JsMap_set_fresh by done. unfold JsMap.keys.
  by rewrite map_app.
Qed.

Lemma JsMap_set_elem k (v : V) m kv :
  kv ∈ JsMap.set k v m → kv ∈ m ∨ kv = (k, v).
Proof.
  induction m as [|[k' v'] m IH]; simpl.
  - intros ->%list_elem_of_singleton. by right.
  - destruct (decide (k' = k)) as [->|Hne].
    + intros [->|H]%elem_of_cons; [by right|]. left. apply elem_of_cons. by right.
    + intros [->|H]%elem_of_cons; [left; apply elem_of_cons; by left|].
      destruct (IH H) as [H1|H1]; [|by right]. left. apply elem_of_cons. by right.
Qed.

Lemma JsMap_set_keeps k (v : V) m k' v' :
  (k', v') ∈ m → k' ≠ k → (k', v') ∈ JsMap.set k v m.
Proof.
  induction m as [|[k2 v2] m IH]; simpl; [by intros H%elem_of_nil|].
  intros [Heq|H]%elem_of_cons Hne.
  - injection Heq as <- <-. destruct (decide (k' = k)); [done|].
    apply elem_of_cons. by left.
  - destruct (decide (k2 = k)); apply elem_of_cons; right; [done|by apply IH].
Qed.

Lemma JsMap_set_not_nil k (v : V) m : JsMap.set k v m ≠ [].
Proof. destruct m as [|[k' v'] m]; simpl; [done|]. by destruct (decide (k' = k)). Qed.

Lemma JsMap_delete_elem k m kv : kv ∈ JsMap.delete k m → kv ∈ m.
Proof.
  intros [j Hj]%list_elem_of_lookup.
  destruct (JsMap_delete_lookup k m j kv Hj) as [n Hn].
  by apply list_elem_of_lookup_2 in Hn.
Qed.

Lemma JsMap_delete_keys k m :
  NoDup (JsMap.keys m) →
  NoDup (JsMap.keys (JsMap.delete k m))
  ∧ (k ∉ JsMap.keys (JsMap.delete k m))
  ∧ (∀ k', k' ∈ JsMap.keys m → k' ≠ k → k' ∈ JsMap.keys (JsMap.delete k m))
  ∧ (∀ k', k' ∈ JsMap.keys (JsMap.delete k m) → k' ∈ JsMap.keys m).
Proof.
  induction m as [|[k' v'] m IH]; simpl; intros Hnd.
  - repeat split; try done. apply not_elem_of_nil.
  - apply NoDup_cons in Hnd as [Hk' Hnd].
    destruct (IH Hnd) as (H1 & H2 & H3 & H4).
    destruct (decide (k' = k)) as [->|Hne]; simpl.
    + repeat split; [done|done| |].
      * intros k2 [?|?]%elem_of_cons Hk2; [congruence|done].
      * intros k2 Hk2. apply elem_of_cons. by right.
    + repeat split.
      * apply NoDup_cons. split; [|done]. intros Hin. by apply Hk', H4.
      * intros [?|?]%elem_of_cons; [congruence|done].
      * intros k2 [->|Hin]%elem_of_cons Hk2; apply elem_of_cons; [by left|].
        right. by apply H3.
      * intros k2 [->|Hin]%elem_of_cons; apply elem_of_cons; [by left|].
        right. by apply H4.
Qed.

Lemma JsMap_key_elem m kv : kv ∈ m → kv.1 ∈ JsMap.keys m.
Proof. intros H. unfold JsMap.keys. apply list_elem_of_fmap. by exists kv. Qed.

Lemma JsMap_NoDup_key m k v v' :
  NoDup (JsMap.keys m) → (k, v) ∈ m → (k, v') ∈ m → v = v'.
Proof.
  induction m as [|[k2 v2] m IH]; simpl; intros Hnd H1 H2;
    [by apply elem_of_nil in H1|].
  apply NoDup_cons in Hnd as [Hk Hnd].
  apply elem_of_cons in H1 as [H1|H1]; apply elem_of_cons in H2 as [H2|H2].
  - congruence.
  - injection H1 as -> ->. by apply JsMap_key_elem in H2.
  - injection H2 as -> ->. by apply JsMap_key_elem in H1.
  - by apply IH.
Qed.

End JsMapKeys.

Lemma member_ok_app (h : list RoomManager.User) (u : RoomManager.User)
    (kv : string * RoomManager.loc) :
  Registry.member_ok h kv → Registry.member_ok (h ++ [u]) kv.
Proof.
  intros (x & Hx & Hid). exists x. split; [|done].
  by apply lookup_app_l_Some.
Qed.

Lemma member_ok_promote (h : list RoomManager.User) (l : RoomManager.loc)
    (u : RoomManager.User) (kv : string * RoomManager.loc) :
  h !! l = Some u → Registry.member_ok h kv →
  Registry.member_ok (<[l := RoomManager.set_isAdmin true u]> h) kv.
Proof.
  intros Hl (x & Hx & Hid). destruct (decide (kv.2 = l)) as [Heq|Hne].
  - exists (RoomManager.set_isAdmin true u). rewrite Heq. split.
    + apply list_lookup_insert_eq. by apply lookup_lt_Some in Hl.
    + simpl. rewrite Heq, Hl in Hx. by injection Hx as ->.
  - exists x. split; [|done]. by rewrite list_lookup_insert_ne.
Qed.

Lemma room_wf_heap (h h' : list RoomManager.User) (room : RoomManager.Room) :
  (∀ kv, Registry.member_ok h kv → Registry.member_ok h' kv) →
  Registry.room_wf h room → Registry.room_wf h' room.
Proof.
  intros Hh (H1 & H2 & H3). split; [done|]. split; [|done].
  eapply Forall_impl; [exact H2|]. exact Hh.
Qed.

Lemma getRoom_lookup (now : Z) (r : string) (rm : RoomManager.t) :
  RoomManager.rooms (RoomManager.getRoom now r rm).2 !! r
  = Some (RoomManager.getRoom now r rm).1
  ∧ RoomManager.heap (RoomManager.getRoom now r rm).2 = RoomManager.heap rm.
Proof.
  unfold RoomManager.getRoom.
  destruct (RoomManager.rooms rm !! r) as [room|] eqn:Hr; simpl; [done|].
  by rewrite lookup_insert_eq.
Qed.

Lemma wf_getRoom (now : Z) (r : string) (rm : RoomManager.t) :
  Registry.wf rm → Registry.wf (RoomManager.getRoom now r rm).2.
Proof.
  intros Hwf. unfold RoomManager.getRoom.
  destruct (RoomManager.rooms rm !! r) as [room|] eqn:Hr; simpl; [done|].
  intros r2 room2. simpl. destruct (decide (r = r2)) as [->|Hne].
  - rewrite lookup_insert_eq. intros [= <-]. simpl. split; [done|].
    split; [apply NoDup_nil_2|]. split; [constructor|done].
  - rewrite lookup_insert_ne by done. apply Hwf.
Qed.

Lemma wf_addUser (now : Z) (rnd : nat) (r userId userName socketId : string)
    (rm : RoomManager.t) :
  Registry.wf rm →
  Registry.wf (RoomManager.addUser now rnd r userId userName socketId rm).2.
Proof.
  intros Hwf. unfold RoomManager.addUser.
  pose proof (wf_getRoom now r rm Hwf) as Hwf1.
  destruct (getRoom_lookup now r rm) as [Hr _].
  destruct (RoomManager.getRoom now r rm) as [room rm1]. simpl in *.
  intros r2 room2. simpl. destruct (decide (r = r2)) as [->|Hne].
  - rewrite lookup_insert_eq. intros [= <-]. simpl.
    destruct (Hwf1 r2 room Hr) as (Hid & Hnd & Hmem & Hadm).
    split; [done|]. split; [|split]; simpl.
    + destruct (decide (userId ∈ JsMap.keys (RoomManager.r_users room)))
        as [Hin|Hin]; [by rewrite JsMap_set_keys_in|].
      rewrite JsMap_set_keys_out by done. apply NoDup_app. split; [done|]. split; [|apply NoDup_singleton].
      intros k Hk ->%list_elem_of_singleton. done.
    + apply Forall_forall. intros kv [Hkv| ->]%JsMap_set_elem.
      * apply member_ok_app. by eapply Forall_forall in Hmem.
      * eexists. split; [simpl; apply list_lookup_middle; done|done].
    + pose proof (JsMap_set_not_nil userId (length (RoomManager.heap rm1))
                    (RoomManager.r_users room)) as Hnn.
      destruct (JsMap.set userId (length (RoomManager.heap rm1))
                  (RoomManager.r_users room)) as [|kv0 rest] eqn:Hset;
        [done|]. rewrite <- Hset.
      destruct (RoomManager.r_users room) as [|kv1 users] eqn:Hu.
      * exists userId. split; [done|]. simpl. apply elem_of_cons. by left.
      * destruct Hadm as (k & Hk & Hin). exists k. split; [done|].
        destruct (decide (userId ∈ JsMap.keys (kv1 :: users))) as [Hin'|Hin'].
        -- by rewrite JsMap_set_keys_in.
        -- rewrite JsMap_set_keys_out by done. apply elem_of_app. by left.
  - rewrite lookup_insert_ne by done. intros Hr2.
    destruct (Hwf1 r2 room2 Hr2) as [Hid Hrw]. split; [done|].
    eapply room_wf_heap; [|exact Hrw]. intros kv. apply member_ok_app.
Qed.

Lemma wf_removeUser (r userId : string) (rm : RoomManager.t) :
  Registry.wf rm → Registry.wf (RoomManager.removeUser r userId rm).2.
Proof.
  intros Hwf. unfold RoomManager.removeUser.
  destruct (RoomManager.rooms rm !! r) as [room|] eqn:Hr; [|done].
  destruct (Hwf r room Hr) as (Hid & Hnd & Hmem & Hadm).
  destruct (JsMap_delete_keys userId (RoomManager.r_users room) Hnd)
    as (Hnd1 & Hgone & Hstay & Hback).
  set (users1 := JsMap.delete userId (RoomManager.r_users room)) in *.
  assert (Hmem1 : Forall (Registry.member_ok (RoomManager.heap rm)) users1).
  { apply Forall_forall. intros kv Hkv%JsMap_delete_elem.
    by eapply Forall_forall in Hmem. }
  (* the new admin id and heap *)
  assert (Hcase :
    ∃ adminId1 heap1,
      (if bool_decide (Some userId = RoomManager.r_adminId room)
          && bool_decide (0 < JsMap.size users1)%nat
       then match JsMap.values users1 with
            | l0 :: _ =>
                match RoomManager.heap rm !! l0 with
                | Some newAdmin =>
                    (Some (RoomManager.u_id newAdmin),
                     <[l0 := RoomManager.set_isAdmin true newAdmin]> (RoomManager.heap rm))
                | None => (RoomManager.r_adminId room, RoomManager.heap rm)
                end
            | [] => (RoomManager.r_adminId room, RoomManager.heap rm)
            end
       else (RoomManager.r_adminId room, RoomManager.heap rm)) = (adminId1, heap1)
      ∧ (∀ kv, Registry.member_ok (RoomManager.heap rm) kv → Registry.member_ok heap1 kv)
      ∧ (users1 ≠ [] → ∃ k, adminId1 = Some k ∧ k ∈ JsMap.keys users1)).
  { destruct (bool_decide (Some userId = RoomManager.r_adminId room)) eqn:Hb1; simpl.
    - destruct users1 as [|[k0 l0] rest] eqn:Hu1; simpl.
      + eexists _, _. split; [done|]. split; [done|]. done.
      + apply Forall_cons in Hmem1 as [(u0 & Hu0 & Hid0) _]. simpl in *.
        rewrite Hu0. eexists _, _. split; [done|]. split.
        * intros kv. by apply member_ok_promote.
        * intros _. exists k0. split; [by rewrite Hid0|]. apply elem_of_cons. by left.
    - eexists _, _. split; [done|]. split; [done|]. intros Hne.
      apply bool_decide_eq_false in Hb1.
      destruct (RoomManager.r_users room) as [|kv1 users] eqn:Hu; [done|].
      destruct Hadm as (k & Hk & Hin). exists k. split; [done|].
      apply Hstay; [done|]. intros ->. by rewrite Hk in Hb1. }
  destruct Hcase as (adminId1 & heap1 & -> & Hheap & Hadm1).
  intros r2 room2. simpl. case_bool_decide as Hsz.
  - destruct (decide (r = r2)) as [->|Hne].
    + by rewrite lookup_delete_eq.
    + rewrite lookup_delete_ne by done. intros Hr2.
      destruct (Hwf r2 room2 Hr2) as [Hid2 Hrw]. split; [done|].
      by eapply room_wf_heap.
  - destruct (decide (r = r2)) as [->|Hne].
    + rewrite lookup_insert_eq. intros [= <-]. simpl. split; [done|].
      split; [done|]. split.
      * simpl. eapply Forall_impl; [exact Hmem1|]. exact Hheap.
      * simpl. destruct users1 as [|kv0 rest] eqn:Hu1; [done|].
        by apply Hadm1.
    + rewrite lookup_insert_ne by done. intros Hr2.
      destruct (Hwf r2 room2 Hr2) as [Hid2 Hrw]. split; [done|].
      by eapply room_wf_heap.
Qed.

Lemma wf_put (r : string) (ds : DrawingState.t) (rm : RoomManager.t) :
  Registry.wf rm → Registry.wf (RoomManager.put_drawingState r ds rm).
Proof.
  intros Hwf r2 room2. simpl. rewrite lookup_alter. case_decide as Heq.
  - subst r2. destruct (RoomManager.rooms rm !! r) as [room|] eqn:Hr; [|done].
    intros [= <-]. exact (Hwf r room Hr).
  - apply Hwf.
Qed.

(** X11: the registry of a running server is well formed. In every room
    of the registry the keys of the [users] map are distinct, each key is
    the id of the user object it maps to, the room's [id] is its key in the
    registry, a room with users has an [adminId] that names one of them, and
    a room without users has none. *)
Theorem registry_is_well_formed (st : Server.State) :
  Server.reachable st → Registry.wf (Server.manager st).
Proof.
  induction 1 as [|sid env m st _ IH].
  - intros r room. simpl. by rewrite lookup_empty.
  - apply (step_keeps Registry.wf (λ _ _, True)); try done.
    + apply wf_getRoom.
    + intros. by apply wf_addUser.
    + apply wf_removeUser.
    + apply wf_put.
Qed.

Lemma registry_is_well_formed_witness :
  Registry.wf (Server.manager (Server.run Sample.succession Server.init).1).
Proof.
  apply registry_is_well_formed.
  apply run_reachable. apply Server.reach_init.
Defined.

Lemma keys_in_heap (h : list RoomManager.User) (room : RoomManager.Room)
    (k : string) :
  Registry.room_wf h room → k ∈ JsMap.keys (RoomManager.r_users room) →
  ∃ l u, (k, l) ∈ RoomManager.r_users room ∧ h !! l = Some u
         ∧ RoomManager.u_id u = k.
Proof.
  intros (_ & Hmem & _) Hk. unfold JsMap.keys in Hk.
  apply list_elem_of_fmap in Hk as ([k' l] & -> & Hin). simpl.
  eapply Forall_forall in Hmem as (u & Hu & Hid); [|exact Hin].
  by exists l, u.
Qed.

Lemma key_is_heap_id (rm : RoomManager.t) (r : string) (room : RoomManager.Room)
    (k : string) :
  Registry.wf rm → RoomManager.rooms rm !! r = Some room →
  k ∈ JsMap.keys (RoomManager.r_users room) →
  k ∈ map RoomManager.u_id (RoomManager.heap rm).
Proof.
  intros Hwf Hr Hk. destruct (Hwf r room Hr) as [_ Hrw].
  destruct (keys_in_heap _ _ _ Hrw Hk) as (l & u & _ & Hu & <-).
  apply list_elem_of_fmap. exists u. split; [done|].
  by apply list_elem_of_lookup_2 in Hu.
Qed.

Lemma JsMap_set_key_elem {V} (k : string) (v : V) (m : list (string * V))
    (k' : string) :
  k' ∈ JsMap.keys (JsMap.set k v m) → k' ∈ JsMap.keys m ∨ k' = k.
Proof.
  destruct (decide (k ∈ JsMap.keys m)) as [Hin|Hin].
  - rewrite JsMap_set_keys_in by done. by left.
  - rewrite JsMap_set_keys_out by done.
    intros [H|H]%elem_of_app; [by left|]. right.
    by apply list_elem_of_singleton in H.
Qed.

Lemma one_admin_getRoom (now : Z) (r : string) (rm : RoomManager.t) :
  Registry.one_admin rm → Registry.one_admin (RoomManager.getRoom now r rm).2.
Proof.
  intros (Hwf & Hapart & Hflags). split; [by apply wf_getRoom|].
  unfold RoomManager.getRoom.
  destruct (RoomManager.rooms rm !! r) as [room|] eqn:Hr; simpl; [done|].
  split.
  - intros r1 r2 room1 room2 k. simpl.
    destruct (decide (r = r1)) as [->|Hne1].
    { rewrite lookup_insert_eq. intros [= <-] _ Hk. by apply elem_of_nil in Hk. }
    destruct (decide (r = r2)) as [->|Hne2].
    { rewrite lookup_insert_eq. intros _ [= <-] _ Hk. by apply elem_of_nil in Hk. }
    rewrite !lookup_insert_ne by done. apply Hapart.
  - intros r2 room2. simpl. destruct (decide (r = r2)) as [->|Hne].
    + rewrite lookup_insert_eq. intros [= <-] k l u Hin. by apply elem_of_nil in Hin.
    + rewrite lookup_insert_ne by done. apply Hflags.
Qed.

Lemma one_admin_addUser (now : Z) (rnd : nat) (r userId userName socketId : string)
    (rm : RoomManager.t) :
  Registry.one_admin rm →
  userId ∉ map RoomManager.u_id (RoomManager.heap rm) →
  Registry.one_admin (RoomManager.addUser now rnd r userId userName socketId rm).2.
Proof.
  intros Hinv Hfresh. split; [apply wf_addUser, Hinv|].
  apply (one_admin_getRoom now r) in Hinv.
  unfold RoomManager.addUser.
  destruct (getRoom_lookup now r rm) as [Hr Hheap].
  destruct (RoomManager.getRoom now r rm) as [room rm1]. simpl in *.
  rewrite <- Hheap in Hfresh. clear Hheap.
  destruct Hinv as (Hwf & Hapart & Hflags).
  assert (Hnew : ∀ r2 room2, RoomManager.rooms rm1 !! r2 = Some room2 →
                   userId ∉ JsMap.keys (RoomManager.r_users room2)).
  { intros r2 room2 Hr2 Hk. by apply Hfresh, (key_is_heap_id rm1 r2 room2). }
  assert (Hlt : ∀ r2 room2 k l, RoomManager.rooms rm1 !! r2 = Some room2 →
                  (k, l) ∈ RoomManager.r_users room2 →
                  ∀ x, (RoomManager.heap rm1 ++ [x]) !! l = RoomManager.heap rm1 !! l).
  { intros r2 room2 k l Hr2 Hin x. destruct (Hwf r2 room2 Hr2) as (_ & _ & Hmem & _).
    eapply Forall_forall in Hmem as (u & Hu & _); [|exact Hin]. simpl in Hu.
    apply lookup_app_l. by apply lookup_lt_Some in Hu. }
  split.
  - intros r1 r2 room1 room2 k. simpl.
    destruct (decide (r = r1)) as [->|Hne1]; destruct (decide (r1 = r2)) as [->|Hne2];
      try done.
    + rewrite lookup_insert_eq, lookup_insert_ne by done.
      intros [= <-] Hr2 Hk1 Hk2. simpl in Hk1.
      apply JsMap_set_key_elem in Hk1 as [Hk1| ->].
      * by apply (Hapart r1 r2 room room2 k).
      * by destruct (Hnew r2 room2 Hr2).
    + rewrite lookup_insert_ne by done.
      destruct (decide (r = r2)) as [->|Hne3].
      * rewrite lookup_insert_eq. intros Hr1 [= <-] Hk1 Hk2. simpl in Hk2.
        apply JsMap_set_key_elem in Hk2 as [Hk2| ->].
        -- by apply (Hapart r1 r2 room1 room k).
        -- by destruct (Hnew r1 room1 Hr1).
      * rewrite lookup_insert_ne by done. apply Hapart.
  - intros r2 room2. simpl. destruct (decide (r = r2)) as [->|Hne].
    + rewrite lookup_insert_eq. intros [= <-] k l u. simpl.
      intros [Hin|Heq]%JsMap_set_elem.
      * rewrite (Hlt r2 room k l Hr Hin). intros Hu.
        rewrite bool_decide_eq_false_2.
        2: { destruct (RoomManager.r_users room); [by apply elem_of_nil in Hin|done]. }
        by apply (Hflags r2 room Hr k l u).
      * injection Heq as -> ->. rewrite list_lookup_middle by done.
        intros [= <-]. simpl. case_bool_decide as Hsz; [done|].
        split; [done|]. intros Hadm.
        destruct (Hwf r2 room Hr) as (_ & _ & _ & Hadm').
        destruct (RoomManager.r_users room) as [|kv users] eqn:Hu; [done|].
        destruct Hadm' as (k' & Hk' & Hin'). rewrite Hadm in Hk'.
        injection Hk' as <-. destruct (Hnew r2 room Hr). by rewrite Hu.
    + rewrite lookup_insert_ne by done. intros Hr2 k l u Hin.
      rewrite (Hlt r2 room2 k l Hr2 Hin). by apply (Hflags r2 room2 Hr2).
Qed.

(** What [removeUser] does to [adminId] and the heap, in a well-formed
    room: the admin's leaving promotes the first remaining member, anything
    else changes neither. *)
Lemma removeUser_admin_cases (h : list RoomManager.User) (room : RoomManager.Room)
    (userId : string) :
  Registry.room_wf h room →
  let users1 := JsMap.delete userId (RoomManager.r_users room) in
  let r :=
    if bool_decide (Some userId = RoomManager.r_adminId room)
       && bool_decide (0 < JsMap.size users1)%nat
    then match JsMap.values users1 with
         | l0 :: _ =>
             match h !! l0 with
             | Some newAdmin =>
                 (Some (RoomManager.u_id newAdmin),
                  <[l0 := RoomManager.set_isAdmin true newAdmin]> h)
             | None => (RoomManager.r_adminId room, h)
             end
         | [] => (RoomManager.r_adminId room, h)
         end
    else (RoomManager.r_adminId room, h) in
  (∃ k0 l0 rest u0,
     RoomManager.r_adminId room = Some userId ∧ users1 = (k0, l0) :: rest
     ∧ h !! l0 = Some u0 ∧ RoomManager.u_id u0 = k0
     ∧ r = (Some k0, <[l0 := RoomManager.set_isAdmin true u0]> h))
  ∨ (r = (RoomManager.r_adminId room, h)
     ∧ (users1 = [] ∨ RoomManager.r_adminId room ≠ Some userId)).
Proof.
  intros (Hnd & Hmem & Hadm) users1 r. subst r.
  assert (Hmem1 : Forall (Registry.member_ok h) users1).
  { apply Forall_forall. intros kv Hkv%JsMap_delete_elem.
    by eapply Forall_forall in Hmem. }
  case_bool_decide as Hb; simpl.
  - destruct users1 as [|[k0 l0] rest] eqn:Hu1; simpl.
    + right. split; [done|]. by left.
    + apply Forall_cons in Hmem1 as [(u0 & Hu0 & Hid0) _]. simpl in *.
      rewrite Hu0. left. exists k0, l0, rest, u0. by rewrite Hid0.
  - right. split; [done|]. right. congruence.
Qed.

Lemma one_admin_removeUser (r userId : string) (rm : RoomManager.t) :
  Registry.one_admin rm → Registry.one_admin (RoomManager.removeUser r userId rm).2.
Proof.
  intros Hinv. split; [apply wf_removeUser, Hinv|].
  destruct Hinv as (Hwf & Hapart & Hflags).
  unfold RoomManager.removeUser.
  destruct (RoomManager.rooms rm !! r) as [room|] eqn:Hr; [|done].
  destruct (Hwf r room Hr) as (Hid & Hrw).
  pose proof Hrw as (Hnd & Hmem & Hadm).
  destruct (JsMap_delete_keys userId (RoomManager.r_users room) Hnd)
    as (Hnd1 & Hgone & Hstay & Hback).
  pose proof (removeUser_admin_cases (RoomManager.heap rm) room userId Hrw) as Hcase.
  simpl in Hcase.
  set (users1 := JsMap.delete userId (RoomManager.r_users room)) in *.
  assert (Hothers : ∀ heap1,
    (heap1 = RoomManager.heap rm
     ∨ ∃ k0 l0 rest u0, users1 = (k0, l0) :: rest
         ∧ RoomManager.heap rm !! l0 = Some u0 ∧ RoomManager.u_id u0 = k0
         ∧ heap1 = <[l0 := RoomManager.set_isAdmin true u0]> (RoomManager.heap rm)) →
    ∀ r2 room2, r ≠ r2 → RoomManager.rooms rm !! r2 = Some room2 →
                Registry.flags_ok heap1 room2).
  { intros heap1 [->|(k0 & l0 & rest & u0 & Hu1 & Hu0 & Hid0 & ->)] r2 room2 Hne Hr2;
      [by apply (Hflags r2)|].
    intros k l u Hin. destruct (decide (l = l0)) as [->|Hl].
    - destruct (Hwf r2 room2 Hr2) as (_ & _ & Hmem2 & _).
      eapply Forall_forall in Hmem2 as (u' & Hu' & Hid'); [|exact Hin].
      simpl in *. rewrite Hu0 in Hu'. injection Hu' as <-.
      destruct Hne. apply (Hapart r r2 room room2 k); [done|done| |].
      + apply Hback. rewrite Hu1, <- Hid', Hid0. apply elem_of_cons. by left.
      + by apply (JsMap_key_elem _ (k, l0)).
    - rewrite list_lookup_insert_ne by done. by apply (Hflags r2 room2 Hr2). }
  assert (Hapart1 : ∀ rooms1,
    (rooms1 = delete r (RoomManager.rooms rm)
     ∨ ∃ room1, RoomManager.r_users room1 = users1
                ∧ rooms1 = <[r := room1]> (RoomManager.rooms rm)) →
    ∀ r1 r2 rA rB k, rooms1 !! r1 = Some rA → rooms1 !! r2 = Some rB →
      k ∈ JsMap.keys (RoomManager.r_users rA) →
      k ∈ JsMap.keys (RoomManager.r_users rB) → r1 = r2).
  { intros rooms1 Hrooms r1 r2 rA rB k HA HB HkA HkB.
    assert (Hold : ∀ r' room', rooms1 !! r' = Some room' →
              k ∈ JsMap.keys (RoomManager.r_users room') →
              ∃ room0, RoomManager.rooms rm !! r' = Some room0
                       ∧ k ∈ JsMap.keys (RoomManager.r_users room0)).
    { intros r' room' Hr' Hk. destruct Hrooms as [-> | (room1 & Hu1 & ->)].
      - destruct (decide (r = r')) as [->|Hne];
          [by rewrite lookup_delete_eq in Hr'|].
        rewrite lookup_delete_ne in Hr' by done. by exists room'.
      - destruct (decide (r = r')) as [->|Hne].
        + rewrite lookup_insert_eq in Hr'. injection Hr' as <-.
          exists room. split; [done|]. apply Hback. by rewrite <- Hu1.
        + rewrite lookup_insert_ne in Hr' by done. by exists room'. }
    destruct (Hold r1 rA HA HkA) as (room0A & H0A & Hk0A).
    destruct (Hold r2 rB HB HkB) as (room0B & H0B & Hk0B).
    by apply (Hapart r1 r2 room0A room0B k). }
  destruct Hcase as [(k0 & l0 & rest & u0 & Hadmin & Hu1 & Hu0 & Hid0 & ->)
                    |[-> Hwhy]]; simpl.
  - (* the admin left and somebody remains *)
    subst k0. rewrite bool_decide_eq_false_2 by (rewrite Hu1; done).
    split.
    + intros r1 r2 rA rB k. simpl. apply Hapart1.
      right. eexists. split; [|reflexivity]. done.
    + intros r2 room2. simpl. destruct (decide (r = r2)) as [->|Hne].
      * rewrite lookup_insert_eq. intros [= <-] k l u. simpl. intros Hin.
        pose proof (JsMap_delete_elem _ _ _ Hin) as Hin0.
        destruct (decide (l = l0)) as [->|Hl].
        -- rewrite list_lookup_insert_eq by (by apply lookup_lt_Some in Hu0).
           intros [= <-]. simpl. split; [|done]. intros _.
           eapply Forall_forall in Hmem as (u' & Hu' & Hid'); [|exact Hin0].
           simpl in *. rewrite Hu0 in Hu'. injection Hu' as <-. congruence.
        -- rewrite list_lookup_insert_ne by done. intros Hu.
           pose proof (Hflags r2 room Hr k l u Hin0 Hu) as Hold.
           split.
           ++ intros Htrue. apply Hold in Htrue. rewrite Hadmin in Htrue.
              injection Htrue as ->. destruct Hgone.
              by apply (JsMap_key_elem _ (k, l)).
           ++ intros [= <-]. destruct Hl.
              apply (JsMap_NoDup_key users1 (RoomManager.u_id u0)); [done|done|].
              rewrite Hu1. apply elem_of_cons. by left.
      * rewrite lookup_insert_ne by done. intros Hr2.
        eapply Hothers; [|exact Hne|exact Hr2]. right.
        by exists (RoomManager.u_id u0), l0, rest, u0.
  - case_bool_decide as Hsz.
    + split; [intros r1 r2 rA rB k; simpl; apply Hapart1; by left|].
      intros r2 room2. simpl. destruct (decide (r = r2)) as [->|Hne];
        [by rewrite lookup_delete_eq|].
      rewrite lookup_delete_ne by done. by apply (Hflags r2).
    + split; [intros r1 r2 rA rB k; simpl; apply Hapart1; right; eexists;
              split; [|reflexivity]; done|].
      intros r2 room2. simpl. destruct (decide (r = r2)) as [->|Hne].
      * rewrite lookup_insert_eq. intros [= <-] k l u. simpl. intros Hin Hu.
        apply (Hflags r2 room Hr k l u); [|done]. by apply JsMap_delete_elem in Hin.
      * rewrite lookup_insert_ne by done. by apply (Hflags r2).
Qed.

Lemma one_admin_put (r : string) (ds : DrawingState.t) (rm : RoomManager.t) :
  Registry.one_admin rm → Registry.one_admin (RoomManager.put_drawingState r ds rm).
Proof.
  intros (Hwf & Hapart & Hflags). split; [by apply wf_put|].
  assert (Hold : ∀ r' room',
            RoomManager.rooms (RoomManager.put_drawingState r ds rm) !! r' = Some room' →
            ∃ room0, RoomManager.rooms rm !! r' = Some room0
                     ∧ RoomManager.r_users room' = RoomManager.r_users room0
                     ∧ RoomManager.r_adminId room' = RoomManager.r_adminId room0).
  { intros r' room'. simpl. rewrite lookup_alter. case_decide as Heq.
    - subst r'. destruct (RoomManager.rooms rm !! r) as [room|]; [|done].
      intros [= <-]. by exists room.
    - intros H. by exists room'. }
  split.
  - intros r1 r2 room1 room2 k H1 H2.
    destruct (Hold r1 room1 H1) as (rA & HA & -> & _).
    destruct (Hold r2 room2 H2) as (rB & HB & -> & _).
    by apply Hapart.
  - intros r2 room2 H2 k l u.
    destruct (Hold r2 room2 H2) as (rB & HB & Hu & Ha).
    unfold Registry.flags_ok in Hflags. rewrite Hu, Ha. by apply (Hflags r2).
Qed.

Lemma reachable_fresh_one_admin (st : Server.State) :
  Registry.reachable_fresh st → Registry.one_admin (Server.manager st).
Proof.
  induction 1 as [|sid env m st _ IH Hfresh].
  - split; [|split].
    + intros r room H. simpl in H. by rewrite lookup_empty in H.
    + intros r1 r2 room1 room2 k H. simpl in H. by rewrite lookup_empty in H.
    + intros r room H. simpl in H. by rewrite lookup_empty in H.
  - apply (step_keeps Registry.one_admin
             (λ userId rm, userId ∉ map RoomManager.u_id (RoomManager.heap rm)));
      try done.
    + apply one_admin_getRoom.
    + apply one_admin_addUser.
    + apply one_admin_removeUser.
    + apply one_admin_put.
    + intros r n ->. exact Hfresh.
Qed.

Lemma admins_none (h : list RoomManager.User)
    (m : list (string * RoomManager.loc)) :
  (∀ k l, (k, l) ∈ m → ∃ u, h !! l = Some u ∧ RoomManager.u_isAdmin u = false) →
  Registry.admins h
    {| RoomManager.r_id := ""; RoomManager.r_users := m;
       RoomManager.r_drawingState := DrawingState.new "";
       RoomManager.r_adminId := None; RoomManager.r_createdAt := 0 |} = [].
Proof.
  unfold Registry.admins. simpl. induction m as [|[k l] m IH]; intros H; [done|].
  simpl. destruct (H k l) as (u & -> & ->); [apply elem_of_cons; by left|].
  apply IH. intros k' l' Hin. apply (H k' l'). apply elem_of_cons. by right.
Qed.

(** X12: a room with users has exactly one admin. When every id that
    [uuidv4()] gives is new, each room of the registry that has users has an
    [adminId], and the members whose object has [isAdmin] set are that one
    member and nobody else. *)
Theorem nonempty_room_has_exactly_one_admin (st : Server.State) (r : string)
    (room : RoomManager.Room) :
  Registry.reachable_fresh st →
  RoomManager.rooms (Server.manager st) !! r = Some room →
  RoomManager.r_users room ≠ [] →
  ∃ k, RoomManager.r_adminId room = Some k
       ∧ Registry.admins (RoomManager.heap (Server.manager st)) room = [k].
Proof.
  intros Hreach Hr Hne.
  destruct (reachable_fresh_one_admin st Hreach) as (Hwf & _ & Hflags).
  destruct (Hwf r room Hr) as (_ & Hnd & Hmem & Hadm).
  specialize (Hflags r room Hr). unfold Registry.flags_ok in Hflags.
  unfold Registry.admins.
  destruct (RoomManager.r_users room) as [|kv0 users0] eqn:Hu; [done|].
  destruct Hadm as (k & Hk & Hin). exists k. split; [done|].
  rewrite Hk in Hflags. clear Hu Hne Hr Hk.
  revert Hnd Hmem Hin Hflags.
  generalize (kv0 :: users0). intros m. clear kv0 users0.
  induction m as [|[k1 l1] m IH]; intros Hnd Hmem Hin Hflags;
    [by apply elem_of_nil in Hin|].
  apply NoDup_cons in Hnd as [Hk1 Hnd].
  apply Forall_cons in Hmem as [(u1 & Hu1 & Hid1) Hmem]. simpl in *.
  rewrite Hu1.
  pose proof (Hflags k1 l1 u1 ltac:(apply elem_of_cons; by left) Hu1) as H1.
  destruct (decide (k = k1)) as [->|Hkne].
  - rewrite (proj2 H1 eq_refl). f_equal.
    assert (Hnone : ∀ k l, (k, l) ∈ m →
              ∃ u, RoomManager.heap (Server.manager st) !! l = Some u
                   ∧ RoomManager.u_isAdmin u = false).
    { intros k l Hkl. eapply Forall_forall in Hmem as (u & Hu & Hid); [|exact Hkl].
      exists u. split; [done|]. simpl in Hu.
      destruct (RoomManager.u_isAdmin u) eqn:Hadm; [|done].
      apply (Hflags k l u) in Hadm; [|apply elem_of_cons; by right|done].
      injection Hadm as ->. destruct Hk1. by apply (JsMap_key_elem _ (k, l)). }
    exact (admins_none _ m Hnone).
  - destruct (RoomManager.u_isAdmin u1) eqn:Hadm.
    { pose proof (proj1 H1 eq_refl). congruence. }
    apply IH; [done|done| |].
    + apply elem_of_cons in Hin as [?|?]; [congruence|done].
    + intros k' l' u' Hin'. apply Hflags. apply elem_of_cons. by right.
Qed.

Lemma run_fresh (evs : list Server.Inbound) (st : Server.State) :
  Registry.reachable_fresh st → Registry.fresh_run evs st →
  Registry.reachable_fresh (Server.run evs st).1.
Proof.
  revert st. induction evs as [|[[sid env] m] evs IH]; intros st Hr Hf; simpl;
    [done|].
  destruct Hf as [Hf1 Hf2].
  pose proof (Registry.fresh_next sid env m st Hr Hf1) as H1.
  specialize (IH _ H1 Hf2).
  destruct (Server.step sid env m st) as [st1 out1]. simpl in *.
  by destruct (Server.run evs st1) as [st2 out2].
Qed.

Lemma nonempty_room_has_exactly_one_admin_witness :
  ∃ k, RoomManager.r_adminId Scenario.room_pair = Some k
       ∧ Registry.admins
           (RoomManager.heap
              (Server.manager (Server.run Sample.pair Server.init).1))
           Scenario.room_pair = [k].
Proof.
  assert (Hf : Registry.fresh_run Sample.pair Server.init).
  { simpl. repeat split; apply (bool_decide_unpack _); vm_compute; exact I. }
  assert (Hr : RoomManager.rooms
                 (Server.manager (Server.run Sample.pair Server.init).1) !! "R"
               = Some Scenario.room_pair) by (vm_compute; reflexivity).
  exact (nonempty_room_has_exactly_one_admin _ "R" Scenario.room_pair
           (run_fresh _ _ Registry.fresh_init Hf) Hr ltac:(discriminate)).
Defined.

(** X13: a joiner gets a colour of its own while the room is not full.
    When a room has fewer than ten members, [addUser] gives the new user a
    colour of the palette that no present member has. *)
Theorem joiner_gets_unused_colour (now : Z) (rnd : nat)
    (roomId userId userName socketId : string) (rm : RoomManager.t) :
  (length (RoomManager.getRoomUsers roomId rm) < 10)%nat →
  let res := RoomManager.addUser now rnd roomId userId userName socketId rm in
  ∃ u, RoomManager.heap res.2 !! res.1 = Some u
       ∧ RoomManager.u_color u ∈ RoomManager.colorPalette
       ∧ ∀ v, v ∈ RoomManager.getRoomUsers roomId rm →
              RoomManager.u_color v ≠ RoomManager.u_color u.
Proof.
  intros Hlen res. subst res.
  unfold RoomManager.addUser, RoomManager.getRoom, RoomManager.getRoomUsers in *.
  set (used := map RoomManager.u_color
                 match RoomManager.rooms rm !! roomId with
                 | Some room => RoomManager.room_users (RoomManager.heap rm) room
                 | None => []
                 end).
  assert (Hfind : ∃ i color,
            list_find (λ color, color ∉ used) RoomManager.colorPalette
            = Some (i, color)).
  { destruct (list_find (λ color, color ∉ used) RoomManager.colorPalette)
      as [[i color]|] eqn:Hf; [by exists i, color|].
    exfalso. apply list_find_None in Hf.
    assert (Hsub : RoomManager.colorPalette ⊆+ used).
    { apply NoDup_submseteq.
      - apply (bool_decide_unpack _). vm_compute. exact I.
      - intros x Hx. eapply Forall_forall in Hf; [|exact Hx].
        by destruct (decide (x ∈ used)). }
    apply submseteq_length in Hsub. subst used. rewrite length_map in Hsub.
    simpl in Hsub. lia. }
  destruct Hfind as (i & color & Hf).
  pose proof Hf as (Hin%list_elem_of_lookup_2 & Hfree & _)%list_find_Some.
  assert (Hcolor : ∀ room,
            match RoomManager.rooms rm !! roomId with
            | Some room0 => room0 = room
            | None => RoomManager.r_users room = []
            end →
            RoomManager.assignColor rnd (RoomManager.heap rm) room = color).
  { intros room Hroom. unfold RoomManager.assignColor.
    replace (map RoomManager.u_color
               (RoomManager.room_users (RoomManager.heap rm) room)) with used.
    - by rewrite Hf.
    - subst used. destruct (RoomManager.rooms rm !! roomId) as [room0|].
      + by subst room0.
      + unfold RoomManager.room_users. by rewrite Hroom. }
  destruct (RoomManager.rooms rm !! roomId) as [room|] eqn:Hr; simpl;
    rewrite list_lookup_middle by done; eexists; (split; [done|]); simpl;
    rewrite Hcolor by done; (split; [done|]);
    intros v Hv Heq; apply Hfree; subst used; rewrite <- Heq;
    apply list_elem_of_fmap; by exists v.
Qed.

Lemma joiner_gets_unused_colour_witness :
  ∃ u, RoomManager.heap (RoomManager.addUser 3 0 "R" "z" "Zed" "s3" Sample.rm2).2
         !! (RoomManager.addUser 3 0 "R" "z" "Zed" "s3" Sample.rm2).1 = Some u
       ∧ RoomManager.u_color u ∈ RoomManager.colorPalette
       ∧ ∀ v, v ∈ RoomManager.getRoomUsers "R" Sample.rm2 →
              RoomManager.u_color v ≠ RoomManager.u_color u.
Proof.
  apply (joiner_gets_unused_colour 3 0 "R" "z" "Zed" "s3" Sample.rm2).
  vm_compute. lia.
Defined.

Lemma omap_cons_Some {A B} (f : A → option B) (a : A) (b : B) (l : list A) :
  f a = Some b → omap f (a :: l) = b :: omap f l.
Proof. intros H. simpl. by rewrite H. Qed.

Lemma omap_lookup_app (h : list RoomManager.User) (x : RoomManager.User)
    (m : list (string * RoomManager.loc)) :
  Forall (Registry.member_ok h) m →
  omap (λ l, (h ++ [x]) !! l) (map snd m) = omap (λ l, h !! l) (map snd m)
  ∧ length (omap (λ l, h !! l) (map snd m)) = length m.
Proof.
  induction m as [|[k l] m IH]; intros Hmem; [done|].
  apply Forall_cons in Hmem as [(u & Hu & _) Hmem]. simpl in Hu.
  destruct (IH Hmem) as [IH1 IH2].
  change (map snd ((k, l) :: m)) with (l :: map snd m).
  rewrite (omap_cons_Some _ l u), (omap_cons_Some _ l u); [|done|].
  - simpl. by rewrite IH1, IH2.
  - rewrite lookup_app_l; [done|]. by apply lookup_lt_Some in Hu.
Qed.

Lemma room_users_app (h : list RoomManager.User) (x : RoomManager.User)
    (room : RoomManager.Room) :
  Forall (Registry.member_ok h) (RoomManager.r_users room) →
  RoomManager.room_users (h ++ [x]) room = RoomManager.room_users h room
  ∧ length (RoomManager.room_users h room) = length (RoomManager.r_users room).
Proof. apply omap_lookup_app. Qed.

(** X14: joining never fails, and it announces the joiner. With a
    well-formed registry and a new id from [uuidv4()], ['join-room'] sets
    the connection's user and room, makes the joiner admin exactly when the
    room had no user, puts the joiner last in the room's user list, and
    sends, in this order: the joiner's own data and the room's history to
    the joiner, then the arrival and the new user list to the room. *)
Theorem join_announces_the_joiner (env : Server.Env)
    (sockets : gmap string Server.Conn) (roomId userName sid : string)
    (c : Server.Conn) (rm : RoomManager.t) :
  Registry.wf rm →
  Server.uuid env ∉ map RoomManager.u_id (RoomManager.heap rm) →
  let res := Server.handle env sockets (Server.JoinRoom roomId userName) sid c rm in
  let before := RoomManager.getRoomUsers roomId rm in
  let log := default (DrawingState.new roomId)
               (RoomManager.getDrawingState roomId rm) in
  ∃ l user,
    res.1.1 = {| Server.currentUser := Some l; Server.currentRoom := Some roomId |}
    ∧ RoomManager.heap res.1.2 !! l = Some user
    ∧ RoomManager.u_id user = Server.uuid env
    ∧ RoomManager.u_name user = userName
    ∧ RoomManager.u_socketId user = sid
    ∧ (RoomManager.u_isAdmin user = true ↔ before = [])
    ∧ RoomManager.getRoomUsers roomId res.1.2 = before ++ [user]
    ∧ RoomManager.getDrawingState roomId res.1.2 = Some log
    ∧ res.2
      = [Server.SocketJoin sid roomId;
         Server.Emit (Server.ToSocket sid)
           (Server.EvUserInfo (Server.uuid env) userName
              (RoomManager.u_color user) (RoomManager.u_isAdmin user));
         Server.Emit (Server.ToSocket sid)
           (Server.EvOperationHistory (DrawingState.getOperationHistory log));
         Server.Emit (Server.ToRoom roomId)
           (Server.EvUserJoined (Server.uuid env) userName
              (RoomManager.u_color user));
         Server.Emit (Server.ToRoom roomId) (Server.EvUserList (before ++ [user]))].
Proof.
  intros Hwf Hfresh res before log. subst res before log. simpl.
  unfold Server.on_join_room, RoomManager.addUser.
  pose proof (wf_getRoom (Server.now env) roomId rm Hwf) as Hwf1.
  destruct (getRoom_lookup (Server.now env) roomId rm) as [Hr Hheap].
  assert (Hsame :
    RoomManager.getRoomUsers roomId rm
    = RoomManager.room_users (RoomManager.heap rm)
        (RoomManager.getRoom (Server.now env) roomId rm).1
    ∧ default (DrawingState.new roomId) (RoomManager.getDrawingState roomId rm)
      = RoomManager.r_drawingState (RoomManager.getRoom (Server.now env) roomId rm).1).
  { unfold RoomManager.getRoomUsers, RoomManager.getDrawingState, RoomManager.getRoom.
    by destruct (RoomManager.rooms rm !! roomId). }
  destruct Hsame as [-> ->].
  destruct (RoomManager.getRoom (Server.now env) roomId rm) as [room rm1].
  simpl in *.
  destruct (Hwf1 roomId room Hr) as (_ & _ & Hmem & _).
  assert (Hnew : Server.uuid env ∉ JsMap.keys (RoomManager.r_users room)).
  { intros Hk. apply Hfresh. rewrite <- Hheap. by apply (key_is_heap_id rm1 roomId room). }
  rewrite Hheap in Hmem |- *. clear Hheap.
  destruct (room_users_app (RoomManager.heap rm)
    {| RoomManager.u_id := Server.uuid env; RoomManager.u_name := userName;
       RoomManager.u_color :=
         RoomManager.assignColor (Server.rnd env) (RoomManager.heap rm) room;
       RoomManager.u_socketId := sid;
       RoomManager.u_isAdmin :=
         bool_decide (JsMap.size (RoomManager.r_users room) = 0%nat);
       RoomManager.u_joinedAt := Server.now env |} room Hmem) as [Happ Hlen].
  rewrite list_lookup_middle by done.
  unfold RoomManager.getDrawingState, RoomManager.getRoomUsers. simpl.
  rewrite !lookup_insert_eq. simpl.
  eexists _, _. split; [done|]. split; [by apply list_lookup_middle|].
  split; [done|]. split; [done|]. split; [done|].
  assert (Husers :
    RoomManager.room_users
      (RoomManager.heap rm ++
         [{| RoomManager.u_id := Server.uuid env; RoomManager.u_name := userName;
             RoomManager.u_color :=
               RoomManager.assignColor (Server.rnd env) (RoomManager.heap rm) room;
             RoomManager.u_socketId := sid;
             RoomManager.u_isAdmin :=
               bool_decide (JsMap.size (RoomManager.r_users room) = 0%nat);
             RoomManager.u_joinedAt := Server.now env |}])
      {| RoomManager.r_id := RoomManager.r_id room;
         RoomManager.r_users :=
           JsMap.set (Server.uuid env) (length (RoomManager.heap rm))
             (RoomManager.r_users room);
         RoomManager.r_drawingState := RoomManager.r_drawingState room;
         RoomManager.r_adminId :=
           if bool_decide (JsMap.size (RoomManager.r_users room) = 0%nat)
           then Some (Server.uuid env) else RoomManager.r_adminId room;
         RoomManager.r_createdAt := RoomManager.r_createdAt room |}
    = RoomManager.room_users (RoomManager.heap rm) room
      ++ [{| RoomManager.u_id := Server.uuid env; RoomManager.u_name := userName;
             RoomManager.u_color :=
               RoomManager.assignColor (Server.rnd env) (RoomManager.heap rm) room;
             RoomManager.u_socketId := sid;
             RoomManager.u_isAdmin :=
               bool_decide (JsMap.size (RoomManager.r_users room) = 0%nat);
             RoomManager.u_joinedAt := Server.now env |}]).
  { unfold RoomManager.room_users. cbn [RoomManager.r_users].
    rewrite JsMap_set_fresh by done. unfold JsMap.values.
    rewrite map_app, omap_app, (proj1 (omap_lookup_app _ _ _ Hmem)).
    f_equal. cbn [map snd].
    erewrite omap_cons_Some; [done|]. by apply list_lookup_middle. }
  rewrite !lookup_insert_eq, Husers. split; [|done].
  simpl. unfold JsMap.size. rewrite <- Hlen. split.
  - intros Hb%bool_decide_eq_true. by apply length_zero_iff_nil.
  - intros ->. done.
Qed.

Lemma join_announces_the_joiner_witness :
  ∃ l user,
    RoomManager.heap
      (Server.handle (Sample.env "z" 3) ∅ (Server.JoinRoom "R" "Zed") "s3"
         (Server.mkConn None None) Sample.rm2).1.2 !! l = Some user
    ∧ RoomManager.getRoomUsers "R"
        (Server.handle (Sample.env "z" 3) ∅ (Server.JoinRoom "R" "Zed") "s3"
           (Server.mkConn None None) Sample.rm2).1.2
      = RoomManager.getRoomUsers "R" Sample.rm2 ++ [user].
Proof.
  assert (Hwf : Registry.wf Sample.rm2).
  { apply (wf_addUser 2 0 "R" "y" "Yan" "s2"), (wf_addUser 1 0 "R" "x" "Xi" "s1").
    intros r room H. simpl in H. by rewrite lookup_empty in H. }
  assert (Hfresh : "z" ∉ map RoomManager.u_id (RoomManager.heap Sample.rm2)).
  { apply (bool_decide_unpack _). vm_compute. exact I. }
  destruct (join_announces_the_joiner (Sample.env "z" 3) ∅ "R" "Zed" "s3"
              (Server.mkConn None None) Sample.rm2 Hwf Hfresh)
    as (l & user & _ & Hu & _ & _ & _ & _ & Hlist & _).
  by exists l, user.
Defined.



(** * The clients' copies of the log *)

(** With distinct ids, looking an entry up by its id finds it where it is. *)
Lemma set_flag_at (b : bool) (ops : list Operation) (i : nat) (x : Operation) :
  NoDup (map op_id ops) → ops !! i = Some x →
  Main.set_flag b (op_id x) ops = <[i := set_undone b x]> ops.
Proof.
  intros Hnd Hx. unfold Main.set_flag.
  destruct (list_find (λ op, op_id op = op_id x) ops) as [[j y]|] eqn:Hf.
  - apply list_find_Some in Hf as (Hy & Hid & _).
    assert (j = i) as ->.
    { apply (NoDup_lookup (map op_id ops) j i (op_id x)); [done| |].
      - change (map op_id ops) with (op_id <$> ops).
        by rewrite list_lookup_fmap, Hy, <- Hid.
      - change (map op_id ops) with (op_id <$> ops).
        by rewrite list_lookup_fmap, Hx. }
    congruence.
  - apply list_find_None in Hf. apply list_elem_of_lookup_2 in Hx.
    eapply Forall_forall in Hf; [|exact Hx]. done.
Qed.

Lemma received_room (socketId roomId : string) (ev : Server.OutEvent) :
  Main.received socketId roomId [Server.Emit (Server.ToRoom roomId) ev] = [ev].
Proof. unfold Main.received. simpl. by destruct (decide (roomId = roomId)). Qed.

Section ReplicaHistory.
Variables (b : bool) (method : DrawingState.t → option Operation * DrawingState.t).
Hypothesis method_flips : ∀ ds,
  match method ds with
  | (Some r, ds') =>
      ∃ i x, DrawingState.operations ds !! i = Some x ∧ r = set_undone b x
             ∧ DrawingState.operations ds'
               = <[i := r]> (DrawingState.operations ds)
  | (None, ds') => DrawingState.operations ds' = DrawingState.operations ds
  end.

Lemma history_request_replica context (roomId : string) (c : Server.Conn)
    (rm : RoomManager.t) (ds : DrawingState.t) (cm : CanvasManager.t)
    (sid2 : string) :
  RoomManager.getDrawingState roomId rm = Some ds →
  NoDup (map op_id (DrawingState.operations ds)) →
  CanvasManager.operations cm = DrawingState.operations ds →
  let res := Server.history_request method
               (if b then Server.EvUndoUpdate else Server.EvRedoUpdate)
               context roomId c rm in
  ∃ ds' cm',
    RoomManager.getDrawingState roomId res.1.2 = Some ds'
    ∧ Main.deliver_all (Main.received sid2 roomId res.2) cm = Some cm'
    ∧ CanvasManager.operations cm' = DrawingState.operations ds'.
Proof.
  intros Hds Hnd Hcm res. subst res. unfold Server.history_request.
  rewrite Hds. specialize (method_flips ds).
  destruct (method ds) as [[r|] ds1]; cbn [fst snd].
  - destruct method_flips as (i & x & Hx & -> & Hops).
    exists ds1. rewrite received_room.
    exists (CanvasManager.set_operations
              (Main.set_flag b (op_id x) (CanvasManager.operations cm)) cm).
    split; [by apply (getDrawingState_put _ ds)|].
    split; [by destruct b|].
    rewrite Hops. simpl. rewrite Hcm. by apply set_flag_at.
  - exists ds1, cm. split; [by apply (getDrawingState_put _ ds)|].
    split; [done|]. by rewrite method_flips.
Qed.

End ReplicaHistory.

Lemma methods_flip :
  (∀ u ds,
     match DrawingState.undo u ds with
     | (Some r, ds') =>
         ∃ i x, DrawingState.operations ds !! i = Some x ∧ r = set_undone true x
                ∧ DrawingState.operations ds'
                  = <[i := r]> (DrawingState.operations ds)
     | (None, ds') => DrawingState.operations ds' = DrawingState.operations ds
     end)
  ∧ (∀ u ds,
     match DrawingState.redo u ds with
     | (Some r, ds') =>
         ∃ i x, DrawingState.operations ds !! i = Some x ∧ r = set_undone false x
                ∧ DrawingState.operations ds'
                  = <[i := r]> (DrawingState.operations ds)
     | (None, ds') => DrawingState.operations ds' = DrawingState.operations ds
     end)
  ∧ (∀ ds,
     match DrawingState.globalUndo ds with
     | (Some r, ds') =>
         ∃ i x, DrawingState.operations ds !! i = Some x ∧ r = set_undone true x
                ∧ DrawingState.operations ds'
                  = <[i := r]> (DrawingState.operations ds)
     | (None, ds') => DrawingState.operations ds' = DrawingState.operations ds
     end)
  ∧ (∀ ds,
     match DrawingState.globalRedo ds with
     | (Some r, ds') =>
         ∃ i x, DrawingState.operations ds !! i = Some x ∧ r = set_undone false x
                ∧ DrawingState.operations ds'
                  = <[i := r]> (DrawingState.operations ds)
     | (None, ds') => DrawingState.operations ds' = DrawingState.operations ds
     end).
Proof.
  split; [|split; [|split]].
  - intros u ds. pose proof (undo_spec u ds) as H.
    destruct (DrawingState.undo u ds) as [[r|] ds'].
    + destruct H as (i & x & Hx & _ & _ & _ & -> & ->). by exists i, x.
    + by destruct H as [-> _].
  - intros u ds. pose proof (redo_spec u ds) as H.
    destruct (DrawingState.redo u ds) as [[r|] ds'].
    + destruct H as (i & x & Hx & _ & _ & _ & -> & ->). by exists i, x.
    + by destruct H as [-> _].
  - intros ds. pose proof (globalUndo_spec ds) as H.
    destruct (DrawingState.globalUndo ds) as [[r|] ds'].
    + destruct H as (i & x & Hx & _ & _ & -> & ->). by exists i, x.
    + by destruct H as [-> _].
  - intros ds. pose proof (globalRedo_spec ds) as H.
    destruct (DrawingState.globalRedo ds) as [[r|] ds'].
    + destruct H as (i & x & Hx & _ & _ & -> & ->). by exists i, x.
    + by destruct H as [-> _].
Qed.

Lemma admin_only_replica message (sid : string) (c : Server.Conn)
    (rm : RoomManager.t) body (roomId : string) (user : RoomManager.User)
    (ds : DrawingState.t) (cm : CanvasManager.t) (sid2 : string) :
  Server.joined c rm = Some (roomId, user) →
  RoomManager.getDrawingState roomId rm = Some ds →
  CanvasManager.operations cm = DrawingState.operations ds →
  (∃ ds' cm',
     RoomManager.getDrawingState roomId (body roomId user).1.2 = Some ds'
     ∧ Main.deliver_all (Main.received sid2 roomId (body roomId user).2) cm = Some cm'
     ∧ CanvasManager.operations cm' = DrawingState.operations ds') →
  let res := Server.admin_only message sid c rm body in
  ∃ ds' cm',
    RoomManager.getDrawingState roomId res.1.2 = Some ds'
    ∧ Main.deliver_all (Main.received sid2 roomId res.2) cm = Some cm'
    ∧ CanvasManager.operations cm' = DrawingState.operations ds'.
Proof.
  intros Hj Hds Hcm Hbody res. subst res. unfold Server.admin_only.
  rewrite Hj. destruct (RoomManager.u_isAdmin user); [done|].
  exists ds, cm. split; [done|]. split; [|done].
  unfold Main.received. simpl. by destruct (decide (sid = sid2)).
Qed.

(** X16: undo, redo and the two clears keep every copy equal to the
    server's log. If a client's history equals the log of its room and the
    ids of the log are distinct, then after the server has handled an
    ['undo-request'], ['redo-request'], ['admin-undo'], ['admin-redo'],
    ['clear-canvas'] or ['admin-clear-all'] of a member of the room, whether
    allowed or refused, and the client has processed what the server sent
    it, the client's history equals the room's log again. *)
Theorem history_commands_keep_replicas_equal (env : Server.Env)
    (sockets : gmap string Server.Conn) (m : Server.Msg)
    (sid : string) (c : Server.Conn) (rm : RoomManager.t) (roomId : string)
    (user : RoomManager.User) (ds : DrawingState.t) (cm : CanvasManager.t)
    (sid2 : string) :
  m ∈ [Server.UndoRequest; Server.RedoRequest; Server.AdminUndo;
       Server.AdminRedo; Server.ClearCanvas; Server.AdminClearAll] →
  Server.joined c rm = Some (roomId, user) →
  RoomManager.getDrawingState roomId rm = Some ds →
  NoDup (map op_id (DrawingState.operations ds)) →
  CanvasManager.operations cm = DrawingState.operations ds →
  let res := Server.handle env sockets m sid c rm in
  ∃ ds' cm',
    RoomManager.getDrawingState roomId res.1.2 = Some ds'
    ∧ Main.deliver_all (Main.received sid2 roomId res.2) cm = Some cm'
    ∧ CanvasManager.operations cm' = DrawingState.operations ds'.
Proof.
  intros Hm Hj Hds Hnd Hcm res. subst res.
  destruct methods_flip as (Hundo & Hredo & Hgundo & Hgredo).
  repeat (apply elem_of_cons in Hm as [-> | Hm]); simpl.
  - unfold Server.on_undo_request. rewrite Hj.
    by apply (history_request_replica true
                (DrawingState.undo (RoomManager.u_id user)) (Hundo _) _ _ _ _ ds).
  - unfold Server.on_redo_request. rewrite Hj.
    by apply (history_request_replica false
                (DrawingState.redo (RoomManager.u_id user)) (Hredo _) _ _ _ _ ds).
  - apply (admin_only_replica _ _ _ _ _ roomId user ds); try done.
    by apply (history_request_replica true DrawingState.globalUndo Hgundo
                _ _ _ _ ds).
  - apply (admin_only_replica _ _ _ _ _ roomId user ds); try done.
    by apply (history_request_replica false DrawingState.globalRedo Hgredo
                _ _ _ _ ds).
  - unfold Server.on_clear_canvas. rewrite Hj, Hds. cbn [fst snd].
    rewrite received_room. simpl. eexists _, _.
    split; [by apply (getDrawingState_put _ ds)|]. split; [done|].
    simpl. by rewrite Hcm.
  - apply (admin_only_replica _ _ _ _ _ roomId user ds); try done.
    rewrite Hds. cbn [fst snd]. rewrite received_room. simpl. eexists _, _.
    split; [by apply (getDrawingState_put _ ds)|]. split; [done|]. done.
  - by apply elem_of_nil in Hm.
Qed.

Lemma history_commands_keep_replicas_equal_witness :
  ∃ ds' cm',
    RoomManager.getDrawingState "R"
      (Server.handle (Sample.env "-" 8) ∅ Server.AdminUndo "s1" Sample.connX
         Scenario.rm_drawn).1.2 = Some ds'
    ∧ Main.deliver_all
        (Main.received "s2" "R"
           (Server.handle (Sample.env "-" 8) ∅ Server.AdminUndo "s1" Sample.connX
              Scenario.rm_drawn).2) Scenario.replica = Some cm'
    ∧ CanvasManager.operations cm' = DrawingState.operations ds'.
Proof.
  assert (Hj : Server.joined Sample.connX Scenario.rm_drawn
               = Some ("R", Sample.userX)) by (vm_compute; reflexivity).
  assert (Hds : RoomManager.getDrawingState "R" Scenario.rm_drawn
                = Some Sample.log2) by (vm_compute; reflexivity).
  assert (Hnd : NoDup (map op_id (DrawingState.operations Sample.log2))).
  { apply (bool_decide_unpack _). vm_compute. exact I. }
  apply (history_commands_keep_replicas_equal (Sample.env "-" 8) ∅ Server.AdminUndo
           "s1" Sample.connX Scenario.rm_drawn "R" Sample.userX Sample.log2
           Scenario.replica "s2"); try done.
  do 2 (apply elem_of_cons; right). apply elem_of_cons. by left.
Defined.

Lemma list_find_id_None (i : string) (ops : list Operation) :
  i ∉ map op_id ops → list_find (λ op, op_id op = i) ops = None.
Proof.
  intros Hi. apply list_find_None, Forall_forall. intros x Hx Heq.
  apply Hi. apply list_elem_of_fmap. by exists x.
Qed.

(** X17: a stored drawing event reaches every copy. If a client's history
    equals the log of its room, the event is of a kind that is always
    stored, and neither the new id nor the temporary id of the payload is
    the id of an entry, then the server appends the new operation to the
    log and broadcasts it, and the client that processes the broadcast
    appends the same operation: history and log are equal again. *)
Theorem stored_event_reaches_replicas (uuid : string) (now : Z)
    (data : Server.DrawingEvent) (sid : string) (c : Server.Conn)
    (rm : RoomManager.t) (roomId : string) (user : RoomManager.User)
    (ds : DrawingState.t) (cm : CanvasManager.t) (sid2 : string) :
  Server.joined c rm = Some (roomId, user) →
  RoomManager.getDrawingState roomId rm = Some ds →
  Server.log_ok ds →
  Server.durable (Server.d_type data) = true →
  uuid ∉ map op_id (DrawingState.operations ds) →
  (∀ p t, Server.d_data data = Some p → p_tempId p = Some t →
          t ∉ map op_id (DrawingState.operations ds)) →
  CanvasManager.operations cm = DrawingState.operations ds →
  let res := Server.on_drawing_event uuid now data sid c rm in
  let operation := Server.operation_of uuid now user data in
  ∃ ds' cm',
    RoomManager.getDrawingState roomId res.1.2 = Some ds'
    ∧ DrawingState.operations ds' = DrawingState.operations ds ++ [operation]
    ∧ Main.deliver_all (Main.received sid2 roomId res.2) cm = Some cm'
    ∧ CanvasManager.operations cm' = DrawingState.operations ds'.
Proof.
  intros Hj Hds [Hcur _] Hdur Hfresh Htemp Hcm res operation. subst res.
  assert (Hty : op_type operation = Server.d_type data) by done.
  assert (Hclient :
    CanvasManager.addOperation operation cm
    = Some (CanvasManager.after_push operation
              (CanvasManager.set_operations
                 (CanvasManager.operations cm ++ [operation]) cm))).
  { assert (Hpend : CanvasManager.pendingOpIndex operation
                      (CanvasManager.operations cm) = None).
    { unfold CanvasManager.pendingOpIndex, CanvasManager.tempId_of. simpl.
      destruct (Server.d_data data) as [p|] eqn:Hp; [|done]. simpl.
      destruct (p_tempId p) as [t|] eqn:Ht; [|done]. simpl.
      destruct (decide (t = "")); [done|]. simpl.
      rewrite Hcm, list_find_id_None; [done|]. by apply (Htemp p). }
    unfold CanvasManager.addOperation, CanvasManager.positional_test.
    rewrite Hpend, Hcm, (list_find_id_None uuid) by done. rewrite Hty.
    apply durable_kinds in Hdur as [-> |[-> |[-> | ->]]]; done. }
  unfold Server.on_drawing_event. rewrite Hj, Hds.
  assert (Hbody :
    Server.drawing_event_body operation data (Some ds)
    = Server.Returned (Some (DrawingState.addOperation operation ds).2)).
  { unfold Server.drawing_event_body, Server.commit_step, Server.commit_test,
      Server.positional_step, Server.positional_test.
    rewrite Hdur. simpl.
    apply durable_kinds in Hdur as [-> |[-> |[-> | ->]]]; done. }
  fold operation. rewrite Hbody. cbn [fst snd]. rewrite received_room.
  eexists _, _. split; [by apply (getDrawingState_put _ ds)|].
  assert (Hlog : DrawingState.operations (DrawingState.addOperation operation ds).2
                 = DrawingState.operations ds ++ [operation]).
  { simpl. rewrite Hcur.
    replace (Z.of_nat (length (DrawingState.operations ds)) - 1 + 1)
      with (Z.of_nat (length (DrawingState.operations ds))) by lia.
    by rewrite slice0_all. }
  split; [exact Hlog|]. rewrite Hlog.
  cbn [Main.deliver_all Main.deliver]. rewrite Hclient. simpl.
  split; [done|]. by rewrite Hcm.
Qed.

Lemma stored_event_reaches_replicas_witness :
  ∃ ds' cm',
    RoomManager.getDrawingState "R"
      (Server.on_drawing_event "n" 9 (Sample.draw_data "text" false) "s1"
         Sample.connX Scenario.rm_drawn).1.2 = Some ds'
    ∧ map op_id (DrawingState.operations ds') = ["a"; "b"; "n"]
    ∧ Main.deliver_all
        (Main.received "s2" "R"
           (Server.on_drawing_event "n" 9 (Sample.draw_data "text" false) "s1"
              Sample.connX Scenario.rm_drawn).2) Scenario.replica = Some cm'
    ∧ CanvasManager.operations cm' = DrawingState.operations ds'.
Proof.
  assert (Hj : Server.joined Sample.connX Scenario.rm_drawn
               = Some ("R", Sample.userX)) by (vm_compute; reflexivity).
  assert (Hds : RoomManager.getDrawingState "R" Scenario.rm_drawn
                = Some Sample.log2) by (vm_compute; reflexivity).
  assert (Hok : Server.log_ok Sample.log2).
  { split; [done|]. repeat constructor; by left. }
  assert (Hfresh : "n" ∉ map op_id (DrawingState.operations Sample.log2)).
  { apply (bool_decide_unpack _). vm_compute. exact I. }
  destruct (stored_event_reaches_replicas "n" 9 (Sample.draw_data "text" false)
              "s1" Sample.connX Scenario.rm_drawn "R" Sample.userX Sample.log2
              Scenario.replica "s2" Hj Hds Hok eq_refl Hfresh)
    as (ds' & cm' & H1 & H2 & H3 & H4); [by intros p t [= <-]|done|].
  exists ds', cm'. split; [done|]. split; [by rewrite H2|]. by split.
Defined.

(** X18: a move or resize keeps every copy equal to the server's log. If
    a client's history equals the log of its room, then after the server has
    handled a ['move'] or ['resize'] that is not complete and names an
    operation, and the client has processed the broadcast, the client's
    history equals the log again: both rewrote the same fields of the same
    entry. *)
Theorem positional_event_keeps_replicas_equal (uuid : string) (now : Z)
    (data : Server.DrawingEvent) (sid : string) (c : Server.Conn)
    (rm : RoomManager.t) (roomId : string) (user : RoomManager.User)
    (ds : DrawingState.t) (p : Payload) (i : string)
    (cm : CanvasManager.t) (sid2 : string) :
  Server.d_type data = "move" ∨ Server.d_type data = "resize" →
  Server.joined c rm = Some (roomId, user) →
  RoomManager.getDrawingState roomId rm = Some ds →
  Server.d_data data = Some p →
  p_isComplete p = false →
  Server.truthy_str (p_operationId p) = Some i →
  CanvasManager.operations cm = DrawingState.operations ds →
  let res := Server.on_drawing_event uuid now data sid c rm in
  ∃ ds' cm',
    RoomManager.getDrawingState roomId res.1.2 = Some ds'
    ∧ Main.deliver_all (Main.received sid2 roomId res.2) cm = Some cm'
    ∧ CanvasManager.operations cm' = DrawingState.operations ds'.
Proof.
  intros Hkind Hj Hds Hdata Hc Hi Hcm res. subst res.
  unfold Server.on_drawing_event. rewrite Hj, Hds.
  destruct Hkind as [Ht|Ht].
  - rewrite (positional_event_body _ data ds p i Server.move_fields) by auto.
    cbn [fst snd]. rewrite received_room. eexists _, _.
    split; [by apply (getDrawingState_put _ ds)|].
    cbn [Main.deliver_all Main.deliver].
    unfold CanvasManager.addOperation, CanvasManager.positional_test. simpl.
    rewrite Ht, Hdata. simpl. rewrite Hi. simpl. split; [done|].
    simpl. by rewrite Hcm.
  - rewrite (positional_event_body _ data ds p i Server.resize_fields) by auto.
    cbn [fst snd]. rewrite received_room. eexists _, _.
    split; [by apply (getDrawingState_put _ ds)|].
    cbn [Main.deliver_all Main.deliver].
    unfold CanvasManager.addOperation, CanvasManager.positional_test. simpl.
    rewrite Ht, Hdata. simpl. rewrite Hi. simpl. split; [done|].
    simpl. by rewrite Hcm.
Qed.

Lemma positional_event_keeps_replicas_equal_witness :
  ∃ ds' cm',
    RoomManager.getDrawingState "R"
      (Server.on_drawing_event "m" 9 Scenario.move_a "s1" Sample.connX
         Scenario.rm_drawn).1.2 = Some ds'
    ∧ Main.deliver_all
        (Main.received "s2" "R"
           (Server.on_drawing_event "m" 9 Scenario.move_a "s1" Sample.connX
              Scenario.rm_drawn).2) Scenario.replica = Some cm'
    ∧ CanvasManager.operations cm' = DrawingState.operations ds'.
Proof.
  assert (Hj : Server.joined Sample.connX Scenario.rm_drawn
               = Some ("R", Sample.userX)) by (vm_compute; reflexivity).
  assert (Hds : RoomManager.getDrawingState "R" Scenario.rm_drawn
                = Some Sample.log2) by (vm_compute; reflexivity).
  exact (positional_event_keeps_replicas_equal "m" 9 Scenario.move_a "s1"
           Sample.connX Scenario.rm_drawn "R" Sample.userX Sample.log2
           Scenario.to_5_7 "a" Scenario.replica "s2"
           (or_introl eq_refl) Hj Hds eq_refl eq_refl eq_refl eq_refl).
Defined.

(** X19: a streamed segment is relayed and stored nowhere. A
    ['draw-incremental'] event whose payload is not marked complete leaves
    the room's log as it is and is broadcast to the room; the client that
    processes the broadcast keeps its history as it is and, unless the tool
    is the eraser, notes the author as having a stroke in progress. *)
Theorem streamed_segment_is_relayed_not_stored (uuid : string) (now : Z)
    (data : Server.DrawingEvent) (sid : string) (c : Server.Conn)
    (rm : RoomManager.t) (roomId : string) (user : RoomManager.User)
    (ds : DrawingState.t) (p : Payload) (cm : CanvasManager.t) (sid2 : string) :
  Server.joined c rm = Some (roomId, user) →
  RoomManager.getDrawingState roomId rm = Some ds →
  Server.d_type data = "draw-incremental" →
  Server.d_data data = Some p →
  p_isComplete p = false →
  let res := Server.on_drawing_event uuid now data sid c rm in
  RoomManager.getDrawingState roomId res.1.2 = Some ds
  ∧ res.2 = [Server.Emit (Server.ToRoom roomId)
               (Server.EvDrawingUpdate (Server.operation_of uuid now user data))]
  ∧ ∃ cm',
      Main.deliver_all (Main.received sid2 roomId res.2) cm = Some cm'
      ∧ CanvasManager.operations cm' = CanvasManager.operations cm
      ∧ CanvasManager.activeStrokes cm'
        = if bool_decide (p_tool p = Some "eraser")
          then CanvasManager.activeStrokes cm
          else CanvasManager.activeStrokes cm ∪ {[RoomManager.u_id user]}.
Proof.
  intros Hj Hds Ht Hdata Hc res. subst res.
  unfold Server.on_drawing_event. rewrite Hj, Hds.
  assert (Hbody :
    Server.drawing_event_body (Server.operation_of uuid now user data) data (Some ds)
    = Server.Returned (Some ds)).
  { unfold Server.drawing_event_body, Server.commit_step, Server.commit_test,
      Server.positional_step, Server.positional_test.
    rewrite Ht, Hdata. simpl. by rewrite Hc. }
  rewrite Hbody. cbn [fst snd]. rewrite received_room.
  split; [by apply (getDrawingState_put _ ds)|]. split; [done|].
  cbn [Main.deliver_all Main.deliver].
  unfold CanvasManager.addOperation, CanvasManager.positional_test. simpl.
  rewrite Ht, Hdata. simpl.
  case_bool_decide; simpl; eexists; (split; [done|]); done.
Qed.

Lemma streamed_segment_is_relayed_not_stored_witness :
  RoomManager.getDrawingState "R"
    (Server.on_drawing_event "n" 9 (Sample.draw_data "draw-incremental" false)
       "s1" Sample.connX Scenario.rm_drawn).1.2 = Some Sample.log2.
Proof.
  assert (Hj : Server.joined Sample.connX Scenario.rm_drawn
               = Some ("R", Sample.userX)) by (vm_compute; reflexivity).
  assert (Hds : RoomManager.getDrawingState "R" Scenario.rm_drawn
                = Some Sample.log2) by (vm_compute; reflexivity).
  exact (proj1 (streamed_segment_is_relayed_not_stored "n" 9
                  (Sample.draw_data "draw-incremental" false) "s1" Sample.connX
                  Scenario.rm_drawn "R" Sample.userX Sample.log2
                  (Sample.payload false None) Scenario.replica "s2"
                  Hj Hds eq_refl eq_refl eq_refl)).
Defined.

(** X20: an optimistic shape comes back as one entry. A client whose
    history equals the log of its room adds a shape, text or image under a
    temporary id and sends it; the server stores it under a new id and
    broadcasts it; when the author's client processes the broadcast, the
    placeholder is replaced by the server's operation, so that the history
    is the old log followed by that operation, as is the room's log. *)
Theorem optimistic_add_round_trip (operation : Operation) (tempId : string)
    (ws : WebSocketClient.t) (cm : CanvasManager.t) (env : Server.Env)
    (sockets : gmap string Server.Conn)
    (sid : string) (c : Server.Conn) (rm : RoomManager.t) (roomId : string)
    (user : RoomManager.User) (ds : DrawingState.t) :
  WebSocketClient.connected ws = true →
  Server.joined c rm = Some (roomId, user) →
  RoomManager.getDrawingState roomId rm = Some ds →
  Server.log_ok ds →
  Server.durable (op_type operation) = true →
  op_id operation = tempId →
  CanvasManager.tempId_of operation = Some tempId →
  tempId ∉ map op_id (DrawingState.operations ds) →
  CanvasManager.operations cm = DrawingState.operations ds →
  ∃ cm1 data,
    Main.onShapeComplete operation ws cm = (Some cm1, [Server.DrawingEventMsg data])
    ∧ CanvasManager.operations cm1 = DrawingState.operations ds ++ [operation]
    ∧ let res := Server.handle env sockets (Server.DrawingEventMsg data) sid c rm in
      let echo := Server.operation_of (Server.uuid env) (Server.now env) user data in
      ∃ ds' cm2,
        RoomManager.getDrawingState roomId res.1.2 = Some ds'
        ∧ DrawingState.operations ds' = DrawingState.operations ds ++ [echo]
        ∧ Main.deliver_all (Main.received sid roomId res.2) cm1 = Some cm2
        ∧ CanvasManager.operations cm2 = DrawingState.operations ds'.
Proof.
  intros Hconn Hj Hds [Hcur _] Hdur Hid Htemp Hfresh Hcm.
  assert (Hty : (if decide (op_type operation = "") then "shape"
                 else op_type operation) = op_type operation).
  { case_decide as He; [|done]. rewrite He in Hdur. done. }
  assert (Hfind : list_find (λ op, op_id op = tempId) (CanvasManager.operations cm)
                  = None) by (rewrite Hcm; by apply list_find_id_None).
  assert (Hlocal :
    CanvasManager.addOperation operation cm
    = Some (CanvasManager.after_push operation
              (CanvasManager.set_operations
                 (CanvasManager.operations cm ++ [operation]) cm))).
  { unfold CanvasManager.addOperation, CanvasManager.positional_test,
      CanvasManager.pendingOpIndex.
    rewrite Htemp. simpl. rewrite Hid, Hfind. simpl.
    apply durable_kinds in Hdur as [-> |[-> |[-> | ->]]]; done. }
  unfold Main.onShapeComplete, WebSocketClient.sendDrawingEvent.
  rewrite Hconn, Hlocal, Hty. eexists _, _. split; [done|].
  split; [simpl; by rewrite Hcm|].
  set (echo := Server.operation_of (Server.uuid env) (Server.now env) user
                  {| Server.d_type := op_type operation;
                     Server.d_data := op_data operation |}).
  cbn [Server.handle].
  unfold Server.on_drawing_event. rewrite Hj, Hds.
  assert (Hbody :
    Server.drawing_event_body echo
      {| Server.d_type := op_type operation; Server.d_data := op_data operation |}
      (Some ds)
    = Server.Returned (Some (DrawingState.addOperation echo ds).2)).
  { unfold Server.drawing_event_body, Server.commit_step, Server.commit_test,
      Server.positional_step, Server.positional_test.
    simpl. rewrite Hdur. simpl.
    apply durable_kinds in Hdur as [-> |[-> |[-> | ->]]]; done. }
  fold echo. rewrite Hbody. cbn [fst snd]. rewrite received_room.
  assert (Hlog : DrawingState.operations (DrawingState.addOperation echo ds).2
                 = DrawingState.operations ds ++ [echo]).
  { simpl. rewrite Hcur.
    replace (Z.of_nat (length (DrawingState.operations ds)) - 1 + 1)
      with (Z.of_nat (length (DrawingState.operations ds))) by lia.
    by rewrite slice0_all. }
  eexists _, _. split; [by apply (getDrawingState_put _ ds)|].
  split; [exact Hlog|]. rewrite Hlog.
  cbn [Main.deliver_all Main.deliver].
  assert (Hecho :
    CanvasManager.addOperation echo
      (CanvasManager.after_push operation
         (CanvasManager.set_operations
            (CanvasManager.operations cm ++ [operation]) cm))
    = Some (CanvasManager.set_operations
              (DrawingState.operations ds ++ [echo])
              (CanvasManager.after_push operation
                 (CanvasManager.set_operations
                    (CanvasManager.operations cm ++ [operation]) cm)))).
  { unfold CanvasManager.addOperation, CanvasManager.positional_test,
      CanvasManager.pendingOpIndex.
    change (CanvasManager.tempId_of echo) with (CanvasManager.tempId_of operation).
    rewrite Htemp. simpl.
    assert (Hat : list_find (λ op, op_id op = tempId)
                    (CanvasManager.operations cm ++ [operation])
                  = Some (length (CanvasManager.operations cm), operation)).
    { apply list_find_Some. split; [by apply list_lookup_middle|].
      split; [done|]. intros j y Hy Hlt Heq.
      rewrite lookup_app_l in Hy by done.
      apply list_find_None in Hfind. apply list_elem_of_lookup_2 in Hy.
      eapply Forall_forall in Hfind; [|exact Hy]. done. }
    rewrite Hat. simpl.
    rewrite (insert_app_r_alt _ _ _ _ ltac:(reflexivity)).
    rewrite Nat.sub_diag. simpl. rewrite Hcm.
    apply durable_kinds in Hdur as [-> |[-> |[-> | ->]]]; done. }
  rewrite Hecho. simpl. done.
Qed.

Lemma optimistic_add_round_trip_witness :
  ∃ cm1 data,
    Main.onShapeComplete Sample.placeholder (WebSocketClient.mk true 0)
      Scenario.replica = (Some cm1, [Server.DrawingEventMsg data])
    ∧ CanvasManager.operations cm1
      = DrawingState.operations Sample.log2 ++ [Sample.placeholder]
    ∧ ∃ ds' cm2,
        RoomManager.getDrawingState "R"
          (Server.handle (Sample.env "n" 9) ∅ (Server.DrawingEventMsg data) "s1"
             Sample.connX Scenario.rm_drawn).1.2 = Some ds'
        ∧ DrawingState.operations ds'
          = DrawingState.operations Sample.log2
            ++ [Server.operation_of "n" 9 Sample.userX data]
        ∧ Main.deliver_all
            (Main.received "s1" "R"
               (Server.handle (Sample.env "n" 9) ∅ (Server.DrawingEventMsg data) "s1"
                  Sample.connX Scenario.rm_drawn).2) cm1 = Some cm2
        ∧ CanvasManager.operations cm2 = DrawingState.operations ds'.
Proof.
  assert (Hj : Server.joined Sample.connX Scenario.rm_drawn
               = Some ("R", Sample.userX)) by (vm_compute; reflexivity).
  assert (Hds : RoomManager.getDrawingState "R" Scenario.rm_drawn
                = Some Sample.log2) by (vm_compute; reflexivity).
  assert (Hok : Server.log_ok Sample.log2).
  { split; [done|]. repeat constructor; by left. }
  assert (Hfresh : "temp-1" ∉ map op_id (DrawingState.operations Sample.log2)).
  { apply (bool_decide_unpack _). vm_compute. exact I. }
  exact (optimistic_add_round_trip Sample.placeholder "temp-1"
           (WebSocketClient.mk true 0) Scenario.replica (Sample.env "n" 9) ∅ "s1"
           Sample.connX Scenario.rm_drawn "R" Sample.userX Sample.log2
           eq_refl Hj Hds Hok eq_refl eq_refl eq_refl Hfresh eq_refl).
Defined.

(** X21: the events of a join bring the joiner's client in step. When
    the joiner's client has processed what ['join-room'] sent it, its user
    id is the new user's id and its history is the log of the room. *)
Theorem join_synchronises_the_joiner (env : Server.Env)
    (sockets : gmap string Server.Conn)
    (roomId userName sid : string) (c : Server.Conn) (rm : RoomManager.t)
    (cm : CanvasManager.t) :
  let res := Server.handle env sockets (Server.JoinRoom roomId userName) sid c rm in
  ∃ ds cm',
    RoomManager.getDrawingState roomId res.1.2 = Some ds
    ∧ Main.deliver_all (Main.received sid roomId res.2) cm = Some cm'
    ∧ CanvasManager.operations cm' = DrawingState.operations ds
    ∧ CanvasManager.currentUserId cm' = Some (Server.uuid env).
Proof.
  simpl. unfold Server.on_join_room, RoomManager.addUser.
  destruct (RoomManager.getRoom (Server.now env) roomId rm) as [room rm1].
  simpl. rewrite list_lookup_middle by done.
  unfold RoomManager.getDrawingState. simpl. rewrite !lookup_insert_eq. simpl.
  unfold Main.received. simpl.
  destruct (decide (sid = sid)) as [_|]; [|done].
  destruct (decide (roomId = roomId)) as [_|]; [|done].
  eexists _, _. rewrite lookup_insert_eq. simpl. done.
Qed.

(** * Throttling on the client *)

Lemma last_nonempty {A} (x : A) (l : list A) (d d' : A) :
  List.last (x :: l) d = List.last (x :: l) d'.
Proof.
  revert x. induction l as [|y l IH]; intros x; [done|].
  change (List.last (y :: l) d = List.last (y :: l) d'). apply IH.
Qed.

(** X22: cursor messages are at least 16 ms apart. Whatever the calls of
    [sendCursorMove] and the clock readings are, the readings at which a
    ['cursor-move'] goes out are each at least [BATCH_DELAY] after the one
    before, the first at least [BATCH_DELAY] after [lastEmitTime]; they are
    readings of the calls, in their order; [lastEmitTime] ends as the last
    of them; and a client that is not connected sends none. *)
Theorem cursor_messages_are_spaced (calls : list (Z * Z * Z))
    (s : WebSocketClient.t) :
  let res := WebSocketClient.cursor_run calls s in
  WebSocketClient.spaced WebSocketClient.BATCH_DELAY
    (WebSocketClient.lastEmitTime s) res.2
  ∧ sublist res.2 (map (λ call, call.1.1) calls)
  ∧ WebSocketClient.lastEmitTime res.1
    = List.last res.2 (WebSocketClient.lastEmitTime s)
  ∧ (WebSocketClient.connected s = false → res.2 = []).
Proof.
  revert s. induction calls as [|[[now x] y] calls IH]; intros s; simpl.
  - split; [done|]. split; [constructor|]. done.
  - unfold WebSocketClient.sendCursorMove.
    destruct (WebSocketClient.connected s) eqn:Hc; simpl.
    + destruct (now - WebSocketClient.lastEmitTime s <? WebSocketClient.BATCH_DELAY)
        eqn:Hlt.
      * specialize (IH s).
        destruct (WebSocketClient.cursor_run calls s) as [s2 times]. simpl in *.
        destruct IH as (H1 & H2 & H3 & H4).
        split; [done|]. split; [by constructor|]. split; [done|]. done.
      * apply Z.ltb_ge in Hlt.
        specialize (IH {| WebSocketClient.connected := true;
                          WebSocketClient.lastEmitTime := now |}).
        destruct (WebSocketClient.cursor_run calls _) as [s2 times]. simpl in *.
        destruct IH as (H1 & H2 & H3 & H4).
        split; [by split|]. split; [by constructor|]. split; [|done].
        rewrite H3. destruct times as [|t times]; [done|].
        change (List.last (t :: times) now
                = List.last (t :: times) (WebSocketClient.lastEmitTime s)).
        apply last_nonempty.
    + specialize (IH s).
      destruct (WebSocketClient.cursor_run calls s) as [s2 times]. simpl in *.
      destruct IH as (H1 & H2 & H3 & H4). rewrite (H4 Hc) in *.
      split; [done|]. split; [apply sublist_nil_l|]. done.
Qed.

(** The moves of a stroke in progress: segments go out in path order,
    none of them empty, and what was sent so far is the path up to
    [lastSentIndex]. *)
Lemma moves_stream (ms : list (Stroke.Point * bool * Z)) (s : Stroke.t) :
  Stroke.isDrawing s = true → Stroke.connected s = true →
  (Stroke.lastSentIndex s ≤ length (Stroke.currentPath s))%nat →
  let res := Stroke.moves ms s in
  ∃ segs,
    res.2 = map Stroke.Incremental segs
    ∧ Forall (λ seg, seg ≠ []) segs
    ∧ Stroke.currentPath res.1
      = Stroke.currentPath s
        ++ map (λ m, m.1.1) (filter (λ m, m.1.2 = true) ms)
    ∧ take (Stroke.lastSentIndex res.1) (Stroke.currentPath res.1)
      = take (Stroke.lastSentIndex s) (Stroke.currentPath s) ++ concat segs
    ∧ Stroke.isDrawing res.1 = true ∧ Stroke.connected res.1 = true
    ∧ Stroke.pendingStrokeCount res.1 = Stroke.pendingStrokeCount s.
Proof.
  revert s. induction ms as [|[[pos far] now] ms IH]; intros s Hd Hc Hle; simpl.
  - exists []. simpl. by rewrite !app_nil_r.
  - assert (Hstep : ∃ s1 segs1,
      Stroke.draw pos far now s = (s1, map Stroke.Incremental segs1)
      ∧ Forall (λ seg, seg ≠ []) segs1
      ∧ Stroke.currentPath s1
        = Stroke.currentPath s ++ (if far then [pos] else [])
      ∧ take (Stroke.lastSentIndex s1) (Stroke.currentPath s1)
        = take (Stroke.lastSentIndex s) (Stroke.currentPath s) ++ concat segs1
      ∧ (Stroke.lastSentIndex s1 ≤ length (Stroke.currentPath s1))%nat
      ∧ Stroke.isDrawing s1 = true ∧ Stroke.connected s1 = true
      ∧ Stroke.pendingStrokeCount s1 = Stroke.pendingStrokeCount s).
    { unfold Stroke.draw. rewrite Hd. simpl. destruct far; simpl.
      2: { exists s, []. simpl. by rewrite !app_nil_r. }
      unfold Stroke.emitDrawingEvent. simpl.
      rewrite bool_decide_eq_false_2 by (rewrite length_app; simpl; lia).
      destruct (now - Stroke.lastEmitTime s <? Stroke.EMIT_DELAY).
      { eexists _, []. split; [reflexivity|]. simpl.
        split; [done|]. split; [done|].
        rewrite app_nil_r, take_app_le by done.
        split; [done|]. rewrite length_app. simpl. repeat split; try done. lia. }
      destruct (drop (Stroke.lastSentIndex s) (Stroke.currentPath s ++ [pos]))
        as [|q new] eqn:Hnew.
      { apply (f_equal length) in Hnew. rewrite length_drop, length_app in Hnew.
        simpl in Hnew. lia. }
      unfold Stroke.send. simpl. rewrite Hc.
      eexists _, [q :: new]. split; [reflexivity|]. simpl.
      split; [by repeat constructor|]. split; [done|].
      rewrite app_nil_r, <- Hnew, take_ge by done.
      rewrite <- (take_app_le _ [pos]) by done. rewrite take_drop.
      repeat split; done. }
    destruct Hstep as (s1 & segs1 & -> & Hne1 & Hpath1 & Htake1 & Hle1 & Hd1 & Hc1 & Hp1).
    destruct (IH s1 Hd1 Hc1 Hle1) as (segs & Hout & Hne & Hpath & Htake & Hd2 & Hc2 & Hp2).
    destruct (Stroke.moves ms s1) as [s2 out2]. simpl in *.
    exists (segs1 ++ segs). rewrite map_app, Hout. split; [done|].
    split; [by apply Forall_app|]. split.
    + rewrite Hpath, Hpath1, <- app_assoc. f_equal.
      by destruct far.
    + rewrite Htake, Htake1, concat_app, app_assoc.
      repeat split; try done. congruence.
Qed.

(** X23: a stroke is streamed in order and ends with the whole path. For
    one stroke of a connected client, from mouse down over any moves to
    mouse up, with [lastSentIndex] at 0 as every finished stroke leaves it:
    the messages are incremental segments followed by one complete stroke;
    no segment is empty; put end to end the segments are a prefix of the
    path, so that no point is sent twice or skipped; the complete stroke
    carries the whole path, which is the first point and the points of the
    moves that passed the distance test; and the stroke counts as one more
    pending stroke. *)
Theorem stroke_is_streamed_in_order (pos : Stroke.Point)
    (ms : list (Stroke.Point * bool * Z)) (s : Stroke.t) :
  Stroke.connected s = true →
  Stroke.lastSentIndex s = 0%nat →
  let path := pos :: map (λ m, m.1.1) (filter (λ m, m.1.2 = true) ms) in
  let res := Stroke.stroke pos ms s in
  ∃ segs,
    res.2 = map Stroke.Incremental segs ++ [Stroke.Complete path]
    ∧ Forall (λ seg, seg ≠ []) segs
    ∧ concat segs `prefix_of` path
    ∧ Stroke.streamed res.2 = concat segs
    ∧ Stroke.currentPath res.1 = []
    ∧ Stroke.isDrawing res.1 = false
    ∧ Stroke.lastSentIndex res.1 = 0%nat
    ∧ Stroke.pendingStrokeCount res.1 = Stroke.pendingStrokeCount s + 1.
Proof.
  intros Hc H0 path res. subst path res. unfold Stroke.stroke.
  destruct (moves_stream ms (Stroke.startDrawing pos s) eq_refl Hc)
    as (segs & Hout & Hne & Hpath & Htake & Hd & Hc2 & Hp).
  { simpl. lia. }
  destruct (Stroke.moves ms (Stroke.startDrawing pos s)) as [s1 out1].
  simpl in *. subst out1. rewrite H0 in Htake. simpl in Htake.
  unfold Stroke.stopDrawing. rewrite Hd. simpl. rewrite Hpath. simpl.
  unfold Stroke.send. simpl. rewrite Hc2. simpl.
  exists segs. split; [done|]. split; [done|]. split.
  - rewrite <- Htake, Hpath. simpl. apply prefix_take.
  - split; [|by rewrite Hp].
    unfold Stroke.streamed. rewrite omap_app. simpl. rewrite app_nil_r.
    f_equal. clear. induction segs as [|seg segs IH]; [done|].
    simpl. f_equal. exact IH.
Qed.

Lemma stroke_is_streamed_in_order_witness :
  ∃ segs,
    (Stroke.stroke (0, 0) Scenario.pen_moves Scenario.pen).2
    = map Stroke.Incremental segs
      ++ [Stroke.Complete [(0, 0); (1, 1); (2, 2); (3, 3)]]
    ∧ concat segs `prefix_of` [(0, 0); (1, 1); (2, 2); (3, 3)].
Proof.
  destruct (stroke_is_streamed_in_order (0, 0) Scenario.pen_moves Scenario.pen
              eq_refl eq_refl) as (segs & H1 & _ & H2 & _).
  by exists segs.
Defined.
